(** * libldap/sasl.c: SASL bind negotiation and the SASL security layer

    A shallow embedding of [libraries/libldap/sasl.c] (OpenLDAP, 2000):
    the packet framing helpers of the Sockbuf security layer
    ([sb_sasl_pkt_length], [sb_sasl_drop_packet], [sb_sasl_read],
    [sb_sasl_write], [sb_sasl_setup], [ldap_pvt_sasl_install]), the status
    mapping [sasl_err2ldap], the negotiation driver [ldap_pvt_sasl_bind]
    and the two credential callbacks.

    C integers are modelled as [Z]; where the source relies on the width of
    [long] / [ber_len_t] the wrap-around is written out.  Bytes are
    [Byte.byte]; a memory block is the list of its bytes.  Calls into the
    Cyrus SASL library, into liblber and into the next Sockbuf layer are
    modelled by oracles that are parameters of the functions calling them. *)

From Stdlib Require Import String ZArith List Bool Lia.
From Stdlib Require Import Strings.Byte.
Import ListNotations.
Open Scope Z_scope.

(** ** Machine integers *)

(** [long], [ber_len_t] (unsigned long) and [ber_slen_t] (long) are 32 bits
    wide on the platforms the file was written for: [sb_sasl_pkt_length]
    loads the four header bytes through a [long *]. *)
Definition LONG_BITS : Z := 32.

(** Conversion to [ber_len_t]: reduction modulo 2^32. *)
Definition to_len (x : Z) : Z := x mod 2 ^ LONG_BITS.

(** Conversion of a [ber_len_t] value to [ber_slen_t] (two's complement). *)
Definition to_slen (x : Z) : Z :=
  let u := to_len x in
  if u <? 2 ^ (LONG_BITS - 1) then u else u - 2 ^ LONG_BITS.

Definition byte := Byte.byte.

Definition byte_val (b : byte) : Z := Z.of_N (Byte.to_N b).

(** ** Constants of the public headers

    The macros below are used by sasl.c and declared in [<ldap.h>],
    [<sasl.h>] and [<errno.h>]; they carry the values of those headers. *)

Definition LDAP_VERSION2 : Z := 2.
Definition LDAP_VERSION3 : Z := 3.

Definition LDAP_SUCCESS : Z := 0x00.
Definition LDAP_OPERATIONS_ERROR : Z := 0x01.
Definition LDAP_SASL_BIND_IN_PROGRESS : Z := 0x0e.
Definition LDAP_NO_SUCH_ATTRIBUTE : Z := 0x10.
Definition LDAP_UNAVAILABLE : Z := 0x34.
Definition LDAP_LOCAL_ERROR : Z := 0x52.
Definition LDAP_ENCODING_ERROR : Z := 0x53.
Definition LDAP_DECODING_ERROR : Z := 0x54.
Definition LDAP_AUTH_UNKNOWN : Z := 0x56.
Definition LDAP_PARAM_ERROR : Z := 0x59.
Definition LDAP_NO_MEMORY : Z := 0x5a.
Definition LDAP_NOT_SUPPORTED : Z := 0x5c.
Definition LDAP_MORE_RESULTS_TO_RETURN : Z := 0x5f.

(** [LDAP_API_ERROR(n)] is [LDAP_RANGE((n),0x51,0x61)]: the block of
    result codes reserved for failures raised by the client library. *)
Definition LDAP_API_ERROR (n : Z) : bool := (0x51 <=? n) && (n <=? 0x61).

Definition SASL_CONTINUE : Z := 1.
Definition SASL_OK : Z := 0.
Definition SASL_FAIL : Z := -1.
Definition SASL_NOMEM : Z := -2.
Definition SASL_NOMECH : Z := -4.
Definition SASL_BADPARAM : Z := -7.
Definition SASL_BADAUTH : Z := -13.
Definition SASL_NOAUTHZ : Z := -14.
Definition SASL_TOOWEAK : Z := -15.
Definition SASL_ENCRYPT : Z := -16.

Definition SASL_CB_LIST_END : Z := 0.
Definition SASL_CB_USER : Z := 0x4001.
Definition SASL_CB_AUTHNAME : Z := 0x4002.
Definition SASL_CB_LANGUAGE : Z := 0x4003.
Definition SASL_CB_PASS : Z := 0x4004.

Definition EINTR : Z := 4.
Definition EIO : Z := 5.
Definition ENOMEM : Z := 12.

Definition MAX_BUFF_SIZE : Z := 65536.
Definition MIN_BUFF_SIZE : Z := 4096.

(** ** Packet length *)

(** [ntohl] applied to the [long] loaded from four bytes in memory order:
    the first byte in memory is the most significant one. *)
Definition ntohl (b0 b1 b2 b3 : byte) : Z :=
  Z.lor (Z.shiftl (byte_val b0) 24)
        (Z.lor (Z.shiftl (byte_val b1) 16)
               (Z.lor (Z.shiftl (byte_val b2) 8) (byte_val b3))).

(** [sb_sasl_pkt_length (buf, debuglevel)].  [buf] is the memory [buf]
    points to; the four bytes read are its first four (a byte that the
    list does not hold reads as zero; the callers always pass a block of
    at least four bytes).  The debug message is not modelled. *)
Definition sb_sasl_pkt_length (buf : list byte) : Z :=
  let size := ntohl (nth 0 buf x00) (nth 1 buf x00) (nth 2 buf x00) (nth 3 buf x00) in
  let size := if MAX_BUFF_SIZE <? size then 16 else size in
  to_len (size + 4).

(** The value a sequence of bytes denotes in network (big-endian) byte
    order, as arithmetic: the reference [sb_sasl_pkt_length] is compared
    with. *)
Definition be_value (bs : list byte) : Z :=
  fold_left (fun acc b => acc * 256 + byte_val b) bs 0.

(** ** Sockbuf buffers *)

(** [Sockbuf_Buf] of [<lber.h>]: a memory block [buf_base] of capacity
    [buf_size] with two cursors. *)
Record Sockbuf_Buf : Type := mkBuf {
  buf_base : list byte;
  buf_ptr : Z;
  buf_end : Z;
  buf_size : Z
}.

(** [memmove (base + dst, base + src, n)] inside one block. *)
Definition memmove (base : list byte) (dst src n : nat) : list byte :=
  firstn dst base ++ firstn n (skipn src base) ++ skipn (dst + n) base.

(** [memcpy (base + dst, data, |data|)] into a block. *)
Definition mem_write (base : list byte) (dst : nat) (data : list byte) : list byte :=
  firstn dst base ++ data ++ skipn (dst + length data) base.

(** [sb_sasl_drop_packet (sec_buf_in, debuglevel)]. *)
Definition sb_sasl_drop_packet (sec_buf_in : Sockbuf_Buf) : Sockbuf_Buf :=
  let len := to_slen (buf_ptr sec_buf_in - buf_end sec_buf_in) in
  let base :=
    if 0 <? len
    then memmove (buf_base sec_buf_in) 0 (Z.to_nat (buf_end sec_buf_in)) (Z.to_nat len)
    else buf_base sec_buf_in in
  let e := if 4 <=? len then sb_sasl_pkt_length base else 0 in
  {| buf_base := base; buf_ptr := to_len len; buf_end := e;
     buf_size := buf_size sec_buf_in |}.

(** Cursor states of the staging buffer after a packet was dropped:
    nothing buffered, or the start of a packet whose header or body is
    still to be read. *)
Definition staged_empty (b : Sockbuf_Buf) : bool :=
  (buf_ptr b =? 0) && (buf_end b =? 0).

Definition staged_incomplete (b : Sockbuf_Buf) : bool :=
  (0 <? buf_ptr b) && ((buf_ptr b <? 4) || (buf_ptr b <? buf_end b)).

(** The bytes [from, to) of a block. *)
Definition mem_range (base : list byte) (from to : Z) : list byte :=
  firstn (Z.to_nat (to - from)) (skipn (Z.to_nat from) base).

(** Modelled from the spec: [ber_pvt_sb_buf_init] and
    [ber_pvt_sb_buf_destroy] are liblber's (sockbuf.c), not part of this
    file; "reset(buffer): releases backing storage, zeroes cursors". *)
Definition ber_pvt_sb_buf_init : Sockbuf_Buf := mkBuf [] 0 0 0.

Definition ber_pvt_sb_buf_destroy (buf : Sockbuf_Buf) : Sockbuf_Buf :=
  ber_pvt_sb_buf_init.

(** Modelled from the spec: [ber_pvt_sb_copy_out] is liblber's; "copies up
    to max_len bytes from [read_cursor, end) into dest, advances
    read_cursor; never blocks; returns 0 if empty".  The result is the
    count, the bytes stored at [dest] and the buffer afterwards. *)
Definition ber_pvt_sb_copy_out (sbb : Sockbuf_Buf) (len : Z)
  : Z * list byte * Sockbuf_Buf :=
  let max := Z.max 0 (Z.min (buf_end sbb - buf_ptr sbb) len) in
  (max,
   firstn (Z.to_nat max) (skipn (Z.to_nat (buf_ptr sbb)) (buf_base sbb)),
   mkBuf (buf_base sbb) (buf_ptr sbb + max) (buf_end sbb) (buf_size sbb)).

(** Modelled from the spec: [ber_pvt_sb_grow_buffer] is liblber's;
    "reallocates backing storage to at least min_capacity; fails (signals
    out-of-memory) without corrupting existing content if allocation
    fails".  [realloc] is the allocator's answer to a request for at
    least [minsize] bytes: [None] when it fails, else the capacity it
    chooses, which counts for no less than the request.  The block is
    extended to the new capacity (fresh bytes read as zero) and never
    shrunk.  [None] is the failure result (-1). *)
Definition ber_pvt_sb_grow_buffer (realloc : Z -> option Z)
    (buf : Sockbuf_Buf) (minsize : Z) : option Sockbuf_Buf :=
  match realloc minsize with
  | Some cap =>
      let size := Z.max minsize cap in
      Some (mkBuf (buf_base buf ++ repeat x00 (Z.to_nat (size - buf_size buf)))
                  (buf_ptr buf) (buf_end buf) (Z.max (buf_size buf) size))
  | None => None
  end.

(** ** The next Sockbuf layer, read side *)

(** What one call of the next layer's read does: deliver bytes, report
    end of file (0), or fail with a negative result and an [errno]. *)
Inductive rd_event : Type :=
| RdData (bs : list byte)
| RdEof
| RdFail (r : positive) (e : Z).

(** The next layer as the sequence of what its coming calls will do.  An
    exhausted sequence reads as end of file. *)
Definition transport : Type := list rd_event.

(** [LBER_SBIOD_READ_NEXT (sbiod, buf, len)]: the result, the bytes stored
    at [buf], [errno] afterwards and the layer afterwards.  A data event
    delivers at most [len] bytes; what it could not deliver stays for the
    next call. *)
Definition LBER_SBIOD_READ_NEXT (t : transport) (errno : Z) (len : Z)
  : Z * list byte * Z * transport :=
  match t with
  | [] => (0, [], errno, [])
  | RdData bs :: t' =>
      let got := firstn (Z.to_nat len) bs in
      let rest := skipn (Z.to_nat len) bs in
      (Z.of_nat (length got), got, errno,
       match rest with [] => t' | _ :: _ => RdData rest :: t' end)
  | RdEof :: t' => (0, [], errno, t')
  | RdFail r e :: t' => (Z.neg r, [], e, t')
  end.

(** A bound on the number of calls a transport can answer before it
    reports end of file. *)
Fixpoint transport_cost (t : transport) : nat :=
  match t with
  | [] => O
  | RdData bs :: t' => S (length bs + transport_cost t')
  | _ :: t' => S (transport_cost t')
  end.

(** ** The SASL layer of a Sockbuf *)

(** Calls the layer makes to its collaborators, in order: the record the
    properties of [sb_sasl_read] and [sb_sasl_write] are stated on. *)
Inductive call : Type :=
| ReadNext (len ret err : Z)        (* LBER_SBIOD_READ_NEXT: request, result, errno after *)
| Grow (minsize : Z) (ok : bool)    (* ber_pvt_sb_grow_buffer *)
| Decode (pkt : list byte) (rc : Z) (* sasl_decode *)
| Encode (data : list byte) (rc : Z)(* sasl_encode *)
| DoWrite (pending ret : Z).        (* ber_pvt_sb_do_write: bytes pending, result *)

(** Outcome of a loop body that may [return] from the enclosing function. *)
Inductive flow (A : Type) : Type :=
| Return (ret : Z) (s : A)
| Continue (s : A)
| OutOfFuel.
Arguments Return {A} ret s.
Arguments Continue {A} s.
Arguments OutOfFuel {A}.

Section SaslLayer.

(** The security context [sasl_conn_t] and the next layer's write side. *)
Variable Ctx : Type.
Variable Wr : Type.

(** [sasl_decode (conn, input, inputlen, &output, &outputlen)]: status,
    output and the context afterwards. *)
Variable sasl_decode : Ctx -> list byte -> Z * list byte * Ctx.

(** [sasl_encode (conn, input, inputlen, &output, &outputlen)]. *)
Variable sasl_encode : Ctx -> list byte -> Z * list byte * Ctx.

(** The allocator behind [ber_pvt_sb_grow_buffer]: failure, or the
    capacity it gives for a request. *)
Variable realloc : Z -> option Z.

(** [ber_pvt_sb_do_write (sbiod, buf_out)] of liblber: flushes the bytes
    pending in [buf_out] to the next layer.  It is not part of this file;
    the layer is stated for any such helper. *)
Variable ber_pvt_sb_do_write : Wr -> Sockbuf_Buf -> Z * Sockbuf_Buf * Wr.

(** [struct sb_sasl_data]. *)
Record sb_sasl_data : Type := mkData {
  sasl_context : Ctx;
  sec_buf_in : Sockbuf_Buf;
  buf_in : Sockbuf_Buf;
  buf_out : Sockbuf_Buf
}.

(** The layer [sbiod] with what it acts on: its private data, the next
    layer (read and write side), [errno] and the calls made so far. *)
Record Sockbuf_IO_Desc : Type := mkIod {
  sbiod_pvt : sb_sasl_data;
  next_rd : transport;
  next_wr : Wr;
  errno : Z;
  calls : list call
}.

Definition set_sec (s : Sockbuf_IO_Desc) (b : Sockbuf_Buf) : Sockbuf_IO_Desc :=
  let p := sbiod_pvt s in
  mkIod (mkData (sasl_context p) b (buf_in p) (buf_out p))
        (next_rd s) (next_wr s) (errno s) (calls s).

Definition set_in (s : Sockbuf_IO_Desc) (b : Sockbuf_Buf) : Sockbuf_IO_Desc :=
  let p := sbiod_pvt s in
  mkIod (mkData (sasl_context p) (sec_buf_in p) b (buf_out p))
        (next_rd s) (next_wr s) (errno s) (calls s).

Definition set_out (s : Sockbuf_IO_Desc) (b : Sockbuf_Buf) : Sockbuf_IO_Desc :=
  let p := sbiod_pvt s in
  mkIod (mkData (sasl_context p) (sec_buf_in p) (buf_in p) b)
        (next_rd s) (next_wr s) (errno s) (calls s).

Definition set_ctx (s : Sockbuf_IO_Desc) (c : Ctx) : Sockbuf_IO_Desc :=
  let p := sbiod_pvt s in
  mkIod (mkData c (sec_buf_in p) (buf_in p) (buf_out p))
        (next_rd s) (next_wr s) (errno s) (calls s).

Definition set_errno (s : Sockbuf_IO_Desc) (e : Z) : Sockbuf_IO_Desc :=
  mkIod (sbiod_pvt s) (next_rd s) (next_wr s) e (calls s).

Definition set_wr (s : Sockbuf_IO_Desc) (w : Wr) : Sockbuf_IO_Desc :=
  mkIod (sbiod_pvt s) (next_rd s) w (errno s) (calls s).

Definition log (s : Sockbuf_IO_Desc) (c : call) : Sockbuf_IO_Desc :=
  mkIod (sbiod_pvt s) (next_rd s) (next_wr s) (errno s) (calls s ++ [c]).

Definition sec (s : Sockbuf_IO_Desc) : Sockbuf_Buf := sec_buf_in (sbiod_pvt s).

(** One call [LBER_SBIOD_READ_NEXT (sbiod, sec_buf_in.buf_base + off, len)]:
    the bytes land in the staging block at offset [off]. *)
Definition read_next_into (s : Sockbuf_IO_Desc) (off len : Z) : Z * Sockbuf_IO_Desc :=
  let '(ret, data, e, t) := LBER_SBIOD_READ_NEXT (next_rd s) (errno s) len in
  let b := sec s in
  let b' := mkBuf (mem_write (buf_base b) (Z.to_nat off) data)
                  (buf_ptr b) (buf_end b) (buf_size b) in
  let p := sbiod_pvt s in
  (ret,
   mkIod (mkData (sasl_context p) b' (buf_in p) (buf_out p))
         t (next_wr s) e (calls s ++ [ReadNext len ret e])).

Definition advance_sec (s : Sockbuf_IO_Desc) (n : Z) : Sockbuf_IO_Desc :=
  let b := sec s in
  set_sec s (mkBuf (buf_base b) (to_len (buf_ptr b + n)) (buf_end b) (buf_size b)).

(** The first loop of [sb_sasl_read]: "Read the length of the packet".
    Every call stores at [buf_base] (offset 0), as the source does. *)
Fixpoint read_pkt_header (fuel : nat) (s : Sockbuf_IO_Desc) : flow Sockbuf_IO_Desc :=
  if buf_ptr (sec s) <? 4 then
    match fuel with
    | O => OutOfFuel
    | S fuel' =>
        let '(ret, s1) := read_next_into s 0 (4 - buf_ptr (sec s)) in
        if (ret <? 0) && (errno s1 =? EINTR) then read_pkt_header fuel' s1
        else if ret <=? 0 then Return ret s1
        else read_pkt_header fuel' (advance_sec s1 ret)
    end
  else Continue s.

(** The second loop: "Did we read the whole encrypted packet?". *)
Fixpoint read_pkt_body (fuel : nat) (s : Sockbuf_IO_Desc) : flow Sockbuf_IO_Desc :=
  if buf_ptr (sec s) <? buf_end (sec s) then
    match fuel with
    | O => OutOfFuel
    | S fuel' =>
        let ret := to_slen (buf_end (sec s) - buf_ptr (sec s)) in
        let '(ret, s1) := read_next_into s (buf_ptr (sec s)) ret in
        if (ret <? 0) && (errno s1 =? EINTR) then read_pkt_body fuel' s1
        else if ret <=? 0 then Return ret s1
        else read_pkt_body fuel' (advance_sec s1 ret)
    end
  else Continue s.

(** [sb_sasl_read], from "Decode the packet" to its end.  [out] are the
    bytes already stored in the caller's [buf], [bufptr] their number and
    [len] what is still asked for. *)
Definition sb_sasl_read_decode (s : Sockbuf_IO_Desc) (out : list byte)
    (bufptr len : Z) : Z * list byte * Sockbuf_IO_Desc :=
  (* Decode the packet *)
  let pkt := firstn (Z.to_nat (buf_end (sec s))) (buf_base (sec s)) in
  let '(rc, plain, ctx) := sasl_decode (sasl_context (sbiod_pvt s)) pkt in
  let s := log (set_ctx s ctx) (Decode pkt rc) in
  if negb (rc =? SASL_OK) then
    let s := set_sec s (sb_sasl_drop_packet (sec s)) in
    (-1, out, set_errno s EIO)
  else
    let plen := Z.of_nat (length plain) in
    (* Drop the packet from the input buffer *)
    let s := set_sec s (sb_sasl_drop_packet (sec s)) in
    let s := set_in s (mkBuf plain (buf_ptr (buf_in (sbiod_pvt s))) plen plen) in
    let '(n, out2, bin) := ber_pvt_sb_copy_out (buf_in (sbiod_pvt s)) len in
    (to_slen (bufptr + n), out ++ out2, set_in s bin).

(** [sb_sasl_read], from "Did we read the whole encrypted packet?" to
    its end. *)
Definition sb_sasl_read_body (s : Sockbuf_IO_Desc) (out : list byte)
    (bufptr len : Z) : option (Z * list byte * Sockbuf_IO_Desc) :=
  match read_pkt_body (S (transport_cost (next_rd s))) s with
  | OutOfFuel => None
  | Return ret s => Some (ret, out, s)
  | Continue s => Some (sb_sasl_read_decode s out bufptr len)
  end.

(** [sb_sasl_read (sbiod, buf, len)].  The result is the value returned,
    the bytes stored in the caller's [buf] and the layer afterwards; [None]
    only if a loop ran out of fuel (it never does, see
    [sb_sasl_read_cases]). *)
Definition sb_sasl_read (s : Sockbuf_IO_Desc) (len : Z)
  : option (Z * list byte * Sockbuf_IO_Desc) :=
  (* Are there anything left in the buffer? *)
  let '(ret, out, bin) := ber_pvt_sb_copy_out (buf_in (sbiod_pvt s)) len in
  let bufptr := ret in
  let len := to_len (len - ret) in
  if len =? 0 then Some (bufptr, out, set_in s bin)
  else
    let s := set_in s (ber_pvt_sb_buf_destroy bin) in
    (* Read the length of the packet *)
    match read_pkt_header (S (transport_cost (next_rd s))) s with
    | OutOfFuel => None
    | Return ret s => Some (ret, out, s)
    | Continue s =>
        (* The new packet always starts at p->sec_buf_in.buf_base *)
        let ret := to_slen (sb_sasl_pkt_length (buf_base (sec s))) in
        (* Grow the packet buffer if neccessary *)
        let grown :=
          if buf_size (sec s) <? ret then
            match ber_pvt_sb_grow_buffer realloc (sec s) ret with
            | Some b => inr (log (set_sec s b) (Grow ret true))
            | None => inl (log s (Grow ret false))
            end
          else inr s in
        match grown with
        | inl s => Some (-1, out, set_errno s ENOMEM)
        | inr s =>
            let b := sec s in
            let s := set_sec s (mkBuf (buf_base b) (buf_ptr b) ret (buf_size b)) in
            sb_sasl_read_body s out bufptr len
        end
    end.

(** One call of the flush helper on [buf_out], recorded. *)
Definition flush_out (s : Sockbuf_IO_Desc) : Z * Sockbuf_IO_Desc :=
  let b := buf_out (sbiod_pvt s) in
  let '(ret, b', w) := ber_pvt_sb_do_write (next_wr s) b in
  (ret, log (set_wr (set_out s b') w) (DoWrite (buf_end b - buf_ptr b) ret)).

(** [sb_sasl_write (sbiod, buf, len)]. *)
Definition sb_sasl_write (s : Sockbuf_IO_Desc) (buf : list byte) (len : Z)
  : Z * Sockbuf_IO_Desc :=
  (* Are there anything left in the buffer? *)
  let flushed :=
    if negb (buf_ptr (buf_out (sbiod_pvt s)) =? buf_end (buf_out (sbiod_pvt s))) then
      let '(ret, s1) := flush_out s in
      if ret <=? 0 then inl (ret, s1) else inr s1
    else inr s in
  match flushed with
  | inl r => r
  | inr s =>
      (* now encode the next packet. *)
      let s := set_out s (ber_pvt_sb_buf_destroy (buf_out (sbiod_pvt s))) in
      let data := firstn (Z.to_nat len) buf in
      let '(rc, cipher, ctx) := sasl_encode (sasl_context (sbiod_pvt s)) data in
      let s := log (set_ctx s ctx) (Encode data rc) in
      if negb (rc =? SASL_OK) then (-1, s)
      else
        let clen := Z.of_nat (length cipher) in
        let s := set_out s (mkBuf cipher 0 clen clen) in
        let '(ret, s) := flush_out s in
        if ret <=? 0 then (ret, s) else (to_slen len, s)
  end.

(** [sb_sasl_setup (sbiod, arg)]: the private data of a fresh layer, or
    failure (-1).  [malloc_ok] is the outcome of [LBER_MALLOC]. *)
Definition sb_sasl_setup (malloc_ok : bool) (arg : Ctx) : option sb_sasl_data :=
  if malloc_ok then
    match ber_pvt_sb_grow_buffer realloc ber_pvt_sb_buf_init MIN_BUFF_SIZE with
    | Some b => Some (mkData arg b ber_pvt_sb_buf_init ber_pvt_sb_buf_init)
    | None => None
    end
  else None.

(** ** Installing the layer *)

(** The Sockbuf [sb] and the two liblber entry points
    [ldap_pvt_sasl_install] calls on it:
    [ber_sockbuf_ctrl (sb, LBER_SB_OPT_HAS_IO, &ldap_pvt_sockbuf_io_sasl)]
    and [ber_sockbuf_add_io (sb, &ldap_pvt_sockbuf_io_sasl,
    LBER_SBIOD_LEVEL_APPLICATION, ctx_arg)]. *)
Variable Sockbuf : Type.
Variable ber_sockbuf_has_io_sasl : Sockbuf -> bool.
Variable ber_sockbuf_add_io_sasl : Sockbuf -> Ctx -> Z * Sockbuf.

(** [ldap_pvt_sasl_install (sb, ctx_arg)]. *)
Definition ldap_pvt_sasl_install (sb : Sockbuf) (ctx_arg : Ctx) : Z * Sockbuf :=
  let sb :=
    if negb (ber_sockbuf_has_io_sasl sb)
    then snd (ber_sockbuf_add_io_sasl sb ctx_arg)
    else sb in
  (LDAP_SUCCESS, sb).

End SaslLayer.

Arguments mkData {Ctx}.
Arguments sasl_context {Ctx}.
Arguments sec_buf_in {Ctx}.
Arguments buf_in {Ctx}.
Arguments buf_out {Ctx}.
Arguments mkIod {Ctx Wr}.
Arguments sbiod_pvt {Ctx Wr}.
Arguments next_rd {Ctx Wr}.
Arguments next_wr {Ctx Wr}.
Arguments errno {Ctx Wr}.
Arguments calls {Ctx Wr}.
Arguments sec {Ctx Wr}.
Arguments set_sec {Ctx Wr}.
Arguments set_in {Ctx Wr}.
Arguments set_out {Ctx Wr}.
Arguments set_ctx {Ctx Wr}.
Arguments set_errno {Ctx Wr}.
Arguments set_wr {Ctx Wr}.
Arguments log {Ctx Wr}.
Arguments read_next_into {Ctx Wr}.
Arguments advance_sec {Ctx Wr}.
Arguments read_pkt_header {Ctx Wr}.
Arguments read_pkt_body {Ctx Wr}.
Arguments sb_sasl_read_decode {Ctx Wr}.
Arguments sb_sasl_read_body {Ctx Wr}.
Arguments sb_sasl_read {Ctx Wr}.
Arguments flush_out {Ctx Wr}.
Arguments sb_sasl_write {Ctx Wr}.
Arguments sb_sasl_setup {Ctx}.
Arguments ldap_pvt_sasl_install {Ctx Sockbuf}.

(** A transport read after which the loops of [sb_sasl_read] go on:
    it delivered bytes, or it was interrupted ([EINTR]). *)
Definition passes (c : call) : bool :=
  match c with
  | ReadNext _ ret e => (0 <? ret) || ((ret <? 0) && (e =? EINTR))
  | _ => false
  end.

Definition is_decode (c : call) : bool :=
  match c with Decode _ _ => true | _ => false end.

Definition is_encode (c : call) : bool :=
  match c with Encode _ _ => true | _ => false end.

Definition is_grow (c : call) : bool :=
  match c with Grow _ _ => true | _ => false end.


(** What the read loops leave alone: the context, the two other buffers,
    the write side, and the capacity and frame end of the staging
    buffer. *)
Definition same_frame {Ctx Wr : Type} (s s' : Sockbuf_IO_Desc Ctx Wr) : Prop :=
  sasl_context (sbiod_pvt s') = sasl_context (sbiod_pvt s) /\
  buf_in (sbiod_pvt s') = buf_in (sbiod_pvt s) /\
  buf_out (sbiod_pvt s') = buf_out (sbiod_pvt s) /\
  next_wr s' = next_wr s /\
  buf_size (sec s') = buf_size (sec s) /\
  buf_end (sec s') = buf_end (sec s).

(** What holds when one of the two read loops of [sb_sasl_read] is left,
    started in [s]: a [return] hands on the result of the last transport
    read, which was not positive and not an interrupt; every read before
    it delivered bytes or was interrupted. *)
Definition loop_post {Ctx Wr : Type} (s : Sockbuf_IO_Desc Ctx Wr)
    (r : flow (Sockbuf_IO_Desc Ctx Wr)) : Prop :=
  match r with
  | OutOfFuel => False
  | Return ret s' =>
      exists rds l,
        calls s' = calls s ++ rds ++ [ReadNext l ret (errno s')] /\
        forallb passes rds = true /\
        ret <= 0 /\
        passes (ReadNext l ret (errno s')) = false /\
        same_frame s s'
  | Continue s' =>
      exists rds,
        calls s' = calls s ++ rds /\
        forallb passes rds = true /\
        same_frame s s'
  end.

(** A call after which [sb_sasl_read] goes on: a passing transport read
    or a successful growth of the staging buffer. *)
Definition quiet (c : call) : bool :=
  match c with
  | Grow _ ok => ok
  | _ => passes c
  end.

(** The ways [sb_sasl_read] ends, read off the calls [evs] it made, for
    a call started in [s] that returned [ret] in state [s']: served from
    the ready buffer without any call; a transport read that reported
    end of file or an error; a failed growth; a decode failure; a decode
    success.  All calls before the last one are [quiet].  [b] is the
    staging buffer handed to the decoder. *)
Definition read_post {Ctx Wr : Type}
    (sasl_decode : Ctx -> list byte -> Z * list byte * Ctx)
    (s : Sockbuf_IO_Desc Ctx Wr) (ret : Z) (s' : Sockbuf_IO_Desc Ctx Wr)
    (evs : list call) : Prop :=
  (evs = [] /\ 0 <= ret) \/
  (exists rds l,
      evs = rds ++ [ReadNext l ret (errno s')] /\
      forallb quiet rds = true /\
      ret <= 0 /\
      passes (ReadNext l ret (errno s')) = false) \/
  (exists rds m,
      evs = rds ++ [Grow m false] /\
      forallb quiet rds = true /\
      ret = -1 /\ errno s' = ENOMEM) \/
  (exists rds b,
      let pkt := firstn (Z.to_nat (buf_end b)) (buf_base b) in
      let r := sasl_decode (sasl_context (sbiod_pvt s)) pkt in
      evs = rds ++ [Decode pkt (fst (fst r))] /\
      forallb quiet rds = true /\
      buf_end b <= buf_ptr b /\
      sec s' = sb_sasl_drop_packet b /\
      sasl_context (sbiod_pvt s') = snd r /\
      next_wr s' = next_wr s /\
      buf_out (sbiod_pvt s') = buf_out (sbiod_pvt s) /\
      ((fst (fst r) <> SASL_OK /\ ret = -1 /\ errno s' = EIO) \/
       fst (fst r) = SASL_OK)).

(** Modelled from the spec: [ber_pvt_sb_do_write] is liblber's
    (sockbuf.c), not part of this file.  "if the transport only partially
    accepts it, the remainder is retained in the output staging buffer
    for the next write call".  The next layer is the list of what its
    coming writes accept (a count, or a result that is not positive).
    The helper hands the pending bytes to the next layer once; a result
    that is not positive is returned as it is, else the cursor advances
    by the count accepted, the rest stays pending, and the count is
    returned. *)
Definition sb_do_write_model (w : list Z) (b : Sockbuf_Buf)
  : Z * Sockbuf_Buf * list Z :=
  let to_go := buf_end b - buf_ptr b in
  match w with
  | [] => (0, b, [])
  | a :: w' =>
      if a <=? 0 then (a, b, w')
      else
        let n := Z.min a to_go in
        (n, mkBuf (buf_base b) (buf_ptr b + n) (buf_end b) (buf_size b), w')
  end.

(** ** Status mapping *)

(** [sasl_err2ldap (saslerr)]: the value of [rc] at the [assert]. *)
Definition sasl_err2ldap (saslerr : Z) : Z :=
  if saslerr =? SASL_CONTINUE then LDAP_MORE_RESULTS_TO_RETURN
  else if saslerr =? SASL_OK then LDAP_SUCCESS
  else if saslerr =? SASL_FAIL then LDAP_LOCAL_ERROR
  else if saslerr =? SASL_NOMEM then LDAP_NO_MEMORY
  else if saslerr =? SASL_NOMECH then LDAP_AUTH_UNKNOWN
  else if saslerr =? SASL_BADAUTH then LDAP_AUTH_UNKNOWN
  else if saslerr =? SASL_NOAUTHZ then LDAP_PARAM_ERROR
  else if (saslerr =? SASL_TOOWEAK) || (saslerr =? SASL_ENCRYPT) then LDAP_AUTH_UNKNOWN
  else LDAP_LOCAL_ERROR.

(** The condition of the [assert] that ends [sasl_err2ldap]. *)
Definition sasl_err2ldap_assert (rc : Z) : bool :=
  (rc =? LDAP_SUCCESS) || LDAP_API_ERROR rc.

(** ** Credential callbacks *)

(** [struct berval]: a length and the bytes [bv_val] points to. *)
Record berval : Type := mkBerval {
  bv_len : Z;
  bv_val : list byte
}.

(** [sasl_secret_t] as allocated by [ldap_pvt_sasl_getsecret]: [extra] is
    the number of bytes requested beyond [sizeof (sasl_secret_t)]. *)
Record sasl_secret_t : Type := mkSecret {
  secret_len : Z;
  secret_data : list byte;
  secret_extra : Z
}.

(** Outcome of a C function that may dereference a null pointer. *)
Inductive outcome (A : Type) : Type :=
| Fault
| Done (a : A).
Arguments Fault {A}.
Arguments Done {A} a.

(** [ldap_pvt_sasl_getsecret (conn, context, id, psecret)].  [conn] and
    [psecret] are given by whether they are non-null, [context] is the
    passphrase or null, [malloc_ok] the outcome of [LDAP_MALLOC].  The
    result is the status and what [*psecret] holds when it was set to a
    fresh block. *)
Definition ldap_pvt_sasl_getsecret (conn : bool) (context : option berval)
    (id : Z) (psecret : bool) (malloc_ok : bool)
  : outcome (Z * option sasl_secret_t) :=
  let passphrase := context in
  if negb conn || negb psecret || negb (id =? SASL_CB_PASS) then
    Done (SASL_BADPARAM, None)
  else
    let len := match passphrase with Some p => bv_len p | None => 0 end in
    if negb malloc_ok then Done (SASL_NOMEM, None)
    else
      (* the store to the length field reads passphrase->bv_len *)
      match passphrase with
      | None => Fault
      | Some p =>
          Done (SASL_OK,
                Some (mkSecret (bv_len p) (firstn (Z.to_nat len) (bv_val p)) len))
      end.

(** What [ldap_pvt_sasl_getsimple] stored through its output pointers:
    [*result] (a string or null) and [*len], each if written. *)
Record simple_out : Type := mkSimple {
  out_result : option (option string);
  out_len : option Z
}.

(** [ldap_pvt_sasl_getsimple (context, id, result, len)].  [context] is
    the string or null; [result] and [len] are given by whether they are
    non-null. *)
Definition ldap_pvt_sasl_getsimple (context : option string) (id : Z)
    (result len : bool) : Z * simple_out :=
  let value := context in
  if negb result then (SASL_BADPARAM, mkSimple None None)
  else if (id =? SASL_CB_USER) || (id =? SASL_CB_AUTHNAME) then
    (SASL_OK,
     mkSimple (Some value)
       (if len
        then Some (match value with
                   | Some v => Z.of_nat (String.length v)
                   | None => 0
                   end)
        else None))
  else if id =? SASL_CB_LANGUAGE then
    (SASL_OK, mkSimple (Some None) (if len then Some 0 else None))
  else (SASL_BADPARAM, mkSimple None None).

(** ** Binding *)

(** The fields of [LDAP] the bind functions use.  [ld_sasl_context] is the
    handle of the live security context, if any. *)
Record LDAP : Type := mkLDAP {
  ld_version : Z;
  ld_errno : Z;
  ld_msgid : Z;
  ld_defbinddn : option string;
  ld_sasl_context : option nat
}.

Definition set_ld_errno (ld : LDAP) (e : Z) : LDAP :=
  mkLDAP (ld_version ld) e (ld_msgid ld) (ld_defbinddn ld) (ld_sasl_context ld).

Definition set_ld_context (ld : LDAP) (c : option nat) : LDAP :=
  mkLDAP (ld_version ld) (ld_errno ld) (ld_msgid ld) (ld_defbinddn ld) c.

Definition next_msgid (ld : LDAP) : LDAP :=
  mkLDAP (ld_version ld) (ld_errno ld) (ld_msgid ld + 1) (ld_defbinddn ld)
         (ld_sasl_context ld).

(** The authentication choice of a BindRequest. *)
Inductive bind_auth : Type :=
| AuthSimple (cred : option berval)
| AuthSasl (mechanism : string) (cred : option berval).

(** The BindRequest handed to [ldap_send_initial_request]. *)
Record bind_request : Type := mkRequest {
  rq_msgid : Z;
  rq_version : Z;
  rq_dn : string;
  rq_auth : bind_auth
}.

(** Outcomes of the liblber and request-layer calls [ldap_sasl_bind]
    makes: [ldap_alloc_ber_with_options], the first [ber_printf],
    [ldap_int_put_controls] (with the [ld_errno] it leaves on failure),
    the closing [ber_printf], and [ldap_send_initial_request] (message id,
    and the [ld_errno] it leaves when that is negative). *)
Record wire : Type := mkWire {
  w_alloc_ber : bool;
  w_printf : Z;
  w_put_controls : option Z;
  w_printf_close : Z;
  w_send : Z * Z
}.

(** [ldap_sasl_bind (ld, dn, mechanism, cred, sctrls, cctrls, msgidp)].
    [mechanism] is [None] for [LDAP_SASL_SIMPLE]; [msgidp] is given by
    whether it is non-null.  The result is the value returned, [ld]
    afterwards, [*msgidp] if written and the request if one was sent. *)
Definition ldap_sasl_bind (ld : LDAP) (dn : option string)
    (mechanism : option string) (cred : option berval) (msgidp : bool)
    (w : wire) : Z * LDAP * option Z * option bind_request :=
  if negb msgidp then
    (LDAP_PARAM_ERROR, set_ld_errno ld LDAP_PARAM_ERROR, None, None)
  else
    let simple := match mechanism with None => true | Some _ => false end in
    if negb simple && (ld_version ld <? LDAP_VERSION3) then
      (LDAP_NOT_SUPPORTED, set_ld_errno ld LDAP_NOT_SUPPORTED, None, None)
    else
      let dn :=
        match mechanism, dn, cred with
        | None, None, Some _ => ld_defbinddn ld (* use default binddn *)
        | _, _, _ => dn
        end in
      let dn := match dn with None => EmptyString | Some d => d end in
      (* create a message to send *)
      if negb (w_alloc_ber w) then
        (LDAP_NO_MEMORY, set_ld_errno ld LDAP_NO_MEMORY, None, None)
      else
        let ld := next_msgid ld in
        let auth :=
          match mechanism with
          | None => AuthSimple cred
          | Some m => AuthSasl m cred
          end in
        if w_printf w =? -1 then
          (-1, set_ld_errno ld LDAP_ENCODING_ERROR, None, None)
        else
          match w_put_controls w with
          | Some e => (e, set_ld_errno ld e, None, None)
          | None =>
              if w_printf_close w =? -1 then
                (LDAP_ENCODING_ERROR, set_ld_errno ld LDAP_ENCODING_ERROR, None, None)
              else
                (* send the message *)
                let rq := mkRequest (ld_msgid ld) (ld_version ld) dn auth in
                let '(msgid, e) := w_send w in
                if msgid <? 0 then (e, set_ld_errno ld e, Some msgid, Some rq)
                else (LDAP_SUCCESS, ld, Some msgid, Some rq)
          end.

(** What the negotiation does to its collaborators, in order. *)
Inductive bind_event : Type :=
| EvDispose (conn : option nat)              (* sasl_dispose *)
| EvClientNew (host : string)                (* sasl_client_new *)
| EvSetProp (prop : string)                  (* sasl_setprop *)
| EvClientStart (mechs : string)             (* sasl_client_start *)
| EvBind (mech : string) (ccred : berval) (held : bool)  (* ldap_sasl_bind_s *)
| EvFreeCcred (blob : list byte)             (* LDAP_FREE (ccred.bv_val) *)
| EvClientStep (scred : option berval)       (* sasl_client_step *)
| EvFreeScred (scred : option berval)        (* ber_bvfree (scred) *)
| EvInstall (conn : option nat).             (* ldap_pvt_sasl_install *)

(** What one provider call hands back: status, the output blob (or null)
    and its length. *)
Record provider_reply : Type := mkReply {
  pr_rc : Z;
  pr_out : option (list byte);
  pr_outlen : Z
}.

(** What one [ldap_sasl_bind_s (ld, dn, mech, &ccred, sctrls, cctrls,
    &scred)] round trip hands back: the value returned, [ld_errno]
    afterwards and the server credentials stored in [scred]. *)
Record bind_reply : Type := mkBindReply {
  br_rc : Z;
  br_errno : Z;
  br_scred : option berval
}.

(** The collaborators of one [ldap_pvt_sasl_bind] call, as what each of
    their calls will answer. *)
Record bind_env : Type := mkEnv {
  e_sd_valid : bool;                 (* LBER_SB_OPT_GET_FD gave a valid descriptor *)
  e_open_defconn : Z * Z;            (* ldap_open_defconn: result, ld_errno *)
  e_host : option string;            (* ldap_host_connected_to *)
  e_client_new : Z * nat;            (* sasl_client_new: status, handle *)
  e_getpeername : bool;
  e_getsockname : bool;
  e_start : provider_reply * string; (* sasl_client_start: reply, mech *)
  e_steps : list provider_reply;     (* sasl_client_step, call by call *)
  e_binds : list bind_reply;         (* ldap_sasl_bind_s, call by call *)
  e_ssf : option Z                   (* sasl_getprop (SASL_SSF): value when SASL_OK and non-null *)
}.

(** The client credentials [ccred] of the loop: [bv_val] (or null) and
    [bv_len]. *)
Definition ccred_t : Type := (option (list byte) * Z)%type.

Definition ccred_berval (c : ccred_t) : berval :=
  mkBerval (snd c) (match fst c with Some b => b | None => [] end).

Definition ccred_held (c : ccred_t) : bool :=
  match fst c with Some _ => true | None => false end.

(** [if ( ccred.bv_val != NULL ) LDAP_FREE( ccred.bv_val );] *)
Definition free_ccred (c : ccred_t) : list bind_event :=
  match fst c with Some b => [EvFreeCcred b] | None => [] end.

Definition sasl_failed (saslrc : Z) : bool :=
  negb (saslrc =? SASL_OK) && negb (saslrc =? SASL_CONTINUE).

(** The [do ... while ( rc == LDAP_SASL_BIND_IN_PROGRESS )] loop of
    [ldap_pvt_sasl_bind].  Every iteration takes one answer of
    [ldap_sasl_bind_s]; [None] when the answers run out before the loop
    ends.  The result is [inl] for a [return] inside the loop and [inr]
    for leaving it. *)
Fixpoint bind_loop (binds : list bind_reply) (steps : list provider_reply)
    (mech : string) (ld : LDAP) (ccred : ccred_t) (tr : list bind_event)
  : option ((Z * LDAP * list bind_event) + (Z * LDAP * list bind_event)) :=
  match binds with
  | [] => None
  | r :: binds' =>
      let rc := br_rc r in
      let ld := set_ld_errno ld (br_errno r) in
      let tr := tr ++ [EvBind mech (ccred_berval ccred) (ccred_held ccred)] in
      let scred := br_scred r in
      if rc =? LDAP_SUCCESS then Some (inr (rc, ld, tr))
      else if negb (rc =? LDAP_SASL_BIND_IN_PROGRESS) then
        let tr := tr ++ free_ccred ccred ++ [EvDispose (ld_sasl_context ld)] in
        Some (inl (ld_errno ld, set_ld_context ld None, tr))
      else
        let tr := tr ++ free_ccred ccred in
        match steps with
        | [] => None
        | p :: steps' =>
            let tr := tr ++ [EvClientStep scred] in
            let ccred := (pr_out p, pr_outlen p) in
            let tr := tr ++ [EvFreeScred scred] in
            if sasl_failed (pr_rc p) then
              let ld := set_ld_errno ld (sasl_err2ldap (pr_rc p)) in
              let tr := tr ++ [EvDispose (ld_sasl_context ld)] in
              Some (inl (ld_errno ld, set_ld_context ld None, tr))
            else bind_loop binds' steps' mech ld ccred tr
        end
  end.

(** [ldap_pvt_sasl_bind (ld, dn, mechs, callbacks, sctrls, cctrls)]: the
    value returned, [ld] afterwards and the calls made. *)
Definition ldap_pvt_sasl_bind (ld : LDAP) (mechs : string) (env : bind_env)
  : option (Z * LDAP * list bind_event) :=
  (* do a quick !LDAPv3 check... ldap_sasl_bind will do the rest. *)
  if ld_version ld <? LDAP_VERSION3 then
    Some (LDAP_NOT_SUPPORTED, set_ld_errno ld LDAP_NOT_SUPPORTED, [])
  else
    let opened :=
      if e_sd_valid env then inr ld
      else
        (* not connected yet *)
        let '(rc, e) := e_open_defconn env in
        if rc <? 0 then inl (set_ld_errno ld e) else inr ld in
    match opened with
    | inl ld => Some (ld_errno ld, ld, [])
    | inr ld =>
        match e_host env with
        | None => Some (LDAP_UNAVAILABLE, set_ld_errno ld LDAP_UNAVAILABLE, [])
        | Some host =>
            let tr :=
              match ld_sasl_context ld with
              | Some c => [EvDispose (Some c)]
              | None => []
              end in
            let '(saslrc, conn) := e_client_new env in
            let tr := tr ++ [EvClientNew host] in
            let ld := set_ld_context ld (Some conn) in
            if sasl_failed saslrc then
              let ld := set_ld_errno ld (sasl_err2ldap saslrc) in
              Some (ld_errno ld, set_ld_context ld None,
                    tr ++ [EvDispose (Some conn)])
            else if negb (e_getpeername env) then
              Some (LDAP_OPERATIONS_ERROR, set_ld_errno ld LDAP_OPERATIONS_ERROR, tr)
            else
              let tr := tr ++ [EvSetProp "SASL_IP_REMOTE"] in
              if negb (e_getsockname env) then
                Some (LDAP_OPERATIONS_ERROR, set_ld_errno ld LDAP_OPERATIONS_ERROR, tr)
              else
                let tr := tr ++ [EvSetProp "SASL_IP_LOCAL"; EvSetProp "SASL_SEC_PROPS"] in
                let '(p, mech) := e_start env in
                let tr := tr ++ [EvClientStart mechs] in
                let ccred := (pr_out p, pr_outlen p) in
                if sasl_failed (pr_rc p) then
                  let ld := set_ld_errno ld (sasl_err2ldap (pr_rc p)) in
                  Some (ld_errno ld, set_ld_context ld None,
                        tr ++ [EvDispose (Some conn)])
                else
                  match bind_loop (e_binds env) (e_steps env) mech ld ccred tr with
                  | None => None
                  | Some (inl r) => Some r
                  | Some (inr (rc, ld, tr)) =>
                      let tr :=
                        match e_ssf env with
                        | Some ssf =>
                            if negb (ssf =? 0)
                            then tr ++ [EvInstall (ld_sasl_context ld)]
                            else tr
                        | None => tr
                        end in
                      Some (rc, ld, tr)
                  end
        end
    end.

(** The calls that ask the provider for the next negotiation step. *)
Definition is_provider_step (e : bind_event) : bool :=
  match e with
  | EvClientStart _ | EvClientStep _ => true
  | _ => false
  end.

Definition is_client_step (e : bind_event) : bool :=
  match e with EvClientStep _ => true | _ => false end.

Definition is_bind (e : bind_event) : bool :=
  match e with EvBind _ _ _ => true | _ => false end.

Definition is_client_new (e : bind_event) : bool :=
  match e with EvClientNew _ => true | _ => false end.

(** ** A Sockbuf as its stack of layers *)

(** Modelled from the spec: liblber's [Sockbuf] with [ber_sockbuf_ctrl]
    and [ber_sockbuf_add_io] (sockbuf.c) is not part of this file.  "the
    act of wrapping a raw byte stream with the Streaming I/O Adapter":
    the stream is the stack of the layers wrapped around it, each with
    the I/O descriptor it was installed from, its level and the argument
    it was set up with.  Used to run [ldap_pvt_sasl_install] on a
    concrete stream. *)
Record io_layer : Type := mkLayer {
  layer_io : string;
  layer_level : Z;
  layer_arg : nat
}.

Definition stack_has_io (io : string) (sb : list io_layer) : bool :=
  existsb (fun l => String.eqb (layer_io l) io) sb.

Fixpoint stack_insert (l : io_layer) (sb : list io_layer) : list io_layer :=
  match sb with
  | [] => [l]
  | p :: sb' =>
      if layer_level l <? layer_level p then p :: stack_insert l sb'
      else l :: sb
  end.

Definition stack_add_io (io : string) (level : Z) (sb : list io_layer)
    (arg : nat) : Z * list io_layer :=
  (0, stack_insert (mkLayer io level arg) sb).

Definition LBER_SBIOD_LEVEL_APPLICATION : Z := 30.

(** ** Sample collaborators *)

(** A server that would accept the bind, used to run the drivers. *)
Definition sample_env : bind_env :=
  mkEnv true (0, 0) (Some "ldap.example.org"%string) (SASL_OK, 1%nat) true true
        (mkReply SASL_CONTINUE (Some [x01]) 1, "DIGEST-MD5"%string)
        [mkReply SASL_CONTINUE (Some [x02; x03]) 2; mkReply SASL_OK None 0]
        [mkBindReply LDAP_SASL_BIND_IN_PROGRESS LDAP_SASL_BIND_IN_PROGRESS
                     (Some (mkBerval 1 [x0a]));
         mkBindReply LDAP_SASL_BIND_IN_PROGRESS LDAP_SASL_BIND_IN_PROGRESS
                     (Some (mkBerval 1 [x0b]));
         mkBindReply LDAP_SUCCESS LDAP_SUCCESS None]
        (Some 56).

Definition sample_wire : wire := mkWire true 0 None 0 (1, 0).

Definition sample_ld : LDAP := mkLDAP LDAP_VERSION3 LDAP_SUCCESS 0 None None.

(** [ldap_pvt_sasl_install] on a stack of layers. *)
Definition sasl_io : string := "ldap_pvt_sockbuf_io_sasl".

Definition stack_install (sb : list io_layer) (ctx_arg : nat) : Z * list io_layer :=
  ldap_pvt_sasl_install (stack_has_io sasl_io)
    (stack_add_io sasl_io LBER_SBIOD_LEVEL_APPLICATION) sb ctx_arg.

(** A context whose encode and decode are the identity, and a layer with
    eight bytes of a ten-byte packet pending in [buf_out] over a next
    layer that accepts three bytes. *)
Definition sample_encode (c : unit) (data : list byte) : Z * list byte * unit :=
  (SASL_OK, data, c).

Definition sample_packet : list byte :=
  [x00; x00; x00; x06; x01; x02; x03; x04; x05; x06].

Definition sample_pending : Sockbuf_IO_Desc unit (list Z) :=
  mkIod (mkData tt (mkBuf (repeat x00 4096) 0 0 4096) ber_pvt_sb_buf_init
                (mkBuf sample_packet 2 10 10))
        [] [3] 0 [].

(** Two decoders: one rejects every packet, one accepts every packet
    and hands back what follows the four header bytes. *)
Definition reject_all (c : unit) (pkt : list byte) : Z * list byte * unit :=
  (SASL_FAIL, [], c).

Definition accept_all (c : unit) (pkt : list byte) : Z * list byte * unit :=
  (SASL_OK, skipn 4 pkt, c).

(** A header that announces 10,000,000 bytes, and sixteen bytes to
    follow it. *)
Definition huge_header : list byte := [x00; x98; x96; x80].

Definition sixteen_bytes : list byte :=
  [x01; x02; x03; x04; x05; x06; x07; x08; x09; x0a; x0b; x0c; x0d; x0e; x0f; x10].

(** The layer as [sb_sasl_setup] leaves it, over a next layer [t]. *)
Definition fresh_layer (t : transport) : option (Sockbuf_IO_Desc unit (list Z)) :=
  match sb_sasl_setup (fun n => Some n) true tt with
  | Some p => Some (mkIod p t [] 0 [])
  | None => None
  end.

Definition sample_reader (t : transport) : Sockbuf_IO_Desc unit (list Z) :=
  mkIod (mkData tt (mkBuf (repeat x00 4096) 0 0 4096)
                ber_pvt_sb_buf_init ber_pvt_sb_buf_init)
        t [] 0 [].

(** [sb_sasl_read] on the fresh layer: the value returned, the bytes
    handed to the caller, [errno], the calls made and the capacity of the
    staging buffer afterwards. *)
Definition run_read (decode : unit -> list byte -> Z * list byte * unit)
    (t : transport) (len : Z)
  : option (Z * list byte * Z * list call * Z) :=
  match fresh_layer t with
  | Some s =>
      match sb_sasl_read decode (fun n => Some n) s len with
      | Some (ret, out, s') =>
          Some (ret, out, errno s', calls s', buf_size (sec s'))
      | None => None
      end
  | None => None
  end.

(** * The remaining functions of sasl.c *)

(** ** Joining the mechanism names *)

(** The first loop of [array2str]: [len += strlen( *v ) + 1] over the
    array (the array is the list of its strings up to the null entry). *)
Fixpoint array2str_len (a : list string) : Z :=
  match a with
  | [] => 0
  | v :: a' => Z.of_nat (String.length v) + 1 + array2str_len a'
  end.

(** The second loop of [array2str].  [s] holds the characters stored so
    far (so [p] is [s] plus their number); [at_start] is [v == a]. *)
Fixpoint array2str_copy (a : list string) (at_start : bool) (s : string) : string :=
  match a with
  | [] => s
  | v :: a' =>
      let s := if at_start then s else (s ++ " ")%string in
      array2str_copy a' false (s ++ v)%string
  end.

(** [array2str (a)]: the string built (without its terminator), or
    [None] for a null result.  [malloc_ok] is the outcome of
    [LDAP_MALLOC ( len )]. *)
Definition array2str (malloc_ok : bool) (a : list string) : option string :=
  let len := array2str_len a in
  if len =? 0 then None
  else if negb malloc_ok then None
  else Some (array2str_copy a true EmptyString).

(** ** Asking the server for its mechanisms *)

(** What the directory calls of [ldap_pvt_sasl_getmechs] answer:
    [ldap_search_s] (its result and the [ld_errno] it leaves), whether
    [ldap_first_entry] found an entry, the values [ldap_get_values]
    returned (or null), and the outcome of the allocation in
    [array2str]. *)
Record mech_search : Type := mkSearch {
  ms_search : Z * Z;
  ms_entry : bool;
  ms_values : option (list string);
  ms_malloc : bool
}.

(** [ldap_pvt_sasl_getmechs (ld, pmechlist)]: the value returned, [ld]
    afterwards and [*pmechlist] if it was written. *)
Definition ldap_pvt_sasl_getmechs (ld : LDAP) (o : mech_search)
  : Z * LDAP * option string :=
  let '(rc, e) := ms_search o in
  let ld := set_ld_errno ld e in
  if negb (rc =? LDAP_SUCCESS) then (ld_errno ld, ld, None)
  else if negb (ms_entry o) then
    let ld :=
      if ld_errno ld =? LDAP_SUCCESS then set_ld_errno ld LDAP_UNAVAILABLE else ld in
    (ld_errno ld, ld, None)
  else
    match ms_values o with
    | None =>
        (LDAP_NO_SUCH_ATTRIBUTE, set_ld_errno ld LDAP_NO_SUCH_ATTRIBUTE, None)
    | Some values =>
        match array2str (ms_malloc o) values with
        | None => (LDAP_NO_MEMORY, set_ld_errno ld LDAP_NO_MEMORY, None)
        | Some mechlist => (LDAP_SUCCESS, ld, Some mechlist)
        end
    end.

(** ** SASL options *)

(** The option codes [ldap_pvt_sasl_get_option] and
    [ldap_pvt_sasl_set_option] switch on; [LDAP_OPT_OTHER] stands for
    any other code. *)
Inductive sasl_option : Type :=
| LDAP_OPT_X_SASL_MINSSF
| LDAP_OPT_X_SASL_MAXSSF
| LDAP_OPT_X_SASL_ACTSSF
| LDAP_OPT_OTHER (n : Z).

(** The fields of [LDAP] the option functions use: the two bounds of
    [ld_options], and [ld_sasl_context] given by what [sasl_getprop
    (SASL_SSF)] answers on it ([None] for no context; else the strength
    factor, or [None] when the call does not return [SASL_OK]). *)
Record LDAP_sasl : Type := mkSaslOpts {
  ldo_sasl_minssf : Z;
  ldo_sasl_maxssf : Z;
  ld_context_ssf : option (option Z)
}.

(** [ldap_pvt_sasl_get_option (ld, option, arg)]; [ld] is [None] for a
    null pointer.  The result is the value returned and the value stored
    through [arg], if any. *)
Definition ldap_pvt_sasl_get_option (ld : option LDAP_sasl) (opt : sasl_option)
  : Z * option Z :=
  match ld with
  | None => (-1, None)
  | Some ld =>
      match opt with
      | LDAP_OPT_X_SASL_MINSSF => (0, Some (ldo_sasl_minssf ld))
      | LDAP_OPT_X_SASL_MAXSSF => (0, Some (ldo_sasl_maxssf ld))
      | LDAP_OPT_X_SASL_ACTSSF =>
          match ld_context_ssf ld with
          | None => (0, Some (-1))
          | Some None => (-1, None)
          | Some (Some ssf) => (0, Some ssf)
          end
      | LDAP_OPT_OTHER _ => (-1, None)
      end
  end.

(** [ldap_pvt_sasl_set_option (ld, option, arg)] with [arg] pointing to
    [v]: the value returned and [ld] afterwards. *)
Definition ldap_pvt_sasl_set_option (ld : option LDAP_sasl) (opt : sasl_option)
    (v : Z) : Z * option LDAP_sasl :=
  match ld with
  | None => (-1, None)
  | Some l =>
      match opt with
      | LDAP_OPT_X_SASL_MINSSF =>
          (0, Some (mkSaslOpts v (ldo_sasl_maxssf l) (ld_context_ssf l)))
      | LDAP_OPT_X_SASL_MAXSSF =>
          (0, Some (mkSaslOpts (ldo_sasl_minssf l) v (ld_context_ssf l)))
      | LDAP_OPT_X_SASL_ACTSSF => (-1, ld) (* This option is read-only *)
      | LDAP_OPT_OTHER _ => (-1, ld)
      end
  end.

(** ** The callback table of [ldap_negotiated_sasl_bind_s] *)

(** The function a callback entry points to. *)
Inductive sasl_proc : Type :=
| proc_getsimple
| proc_getsecret
| proc_null.

(** The [context] of a callback entry: the string or the passphrase it
    was given (either may be null), or null for the terminator. *)
Inductive cb_context : Type :=
| ContextString (s : option string)
| ContextSecret (p : option berval)
| ContextNull.

(** [sasl_callback_t]. *)
Record sasl_callback_t : Type := mkCallback {
  cb_id : Z;
  cb_proc : sasl_proc;
  cb_context_of : cb_context
}.

(** The array [callbacks] as [ldap_negotiated_sasl_bind_s] fills it,
    entry by entry, with the final value of [n]. *)
Definition negotiated_callbacks (authenticationId authorizationId : option string)
    (passPhrase : option berval) : list sasl_callback_t * Z :=
  (* SASL Authentication Identity *)
  let n := 0 in
  let cbs := [mkCallback SASL_CB_AUTHNAME proc_getsimple (ContextString authenticationId)] in
  (* SASL Authorization Identity (userid) *)
  let '(cbs, n) :=
    match authorizationId with
    | Some _ =>
        (cbs ++ [mkCallback SASL_CB_USER proc_getsimple (ContextString authorizationId)],
         n + 1)
    | None => (cbs, n)
    end in
  let '(cbs, n) :=
    (cbs ++ [mkCallback SASL_CB_PASS proc_getsecret (ContextSecret passPhrase)], n + 1) in
  let '(cbs, n) :=
    (cbs ++ [mkCallback SASL_CB_LIST_END proc_null ContextNull], n + 1) in
  (cbs, n).

(** The provider calling the entry [cb] for the field [id], with valid
    output pointers and a valid connection: the status, and for an
    identity entry the string stored in [*result]. *)
Definition invoke_callback (cb : sasl_callback_t) (id : Z) (malloc_ok : bool)
  : outcome (Z * option (option string) * option sasl_secret_t) :=
  match cb_proc cb, cb_context_of cb with
  | proc_getsimple, ContextString s =>
      let '(rc, o) := ldap_pvt_sasl_getsimple s id true true in
      Done (rc, out_result o, None)
  | proc_getsecret, ContextSecret p =>
      match ldap_pvt_sasl_getsecret true p id true malloc_ok with
      | Fault => Fault
      | Done (rc, sec) => Done (rc, None, sec)
      end
  | _, _ => Fault
  end.

(** [ldap_negotiated_sasl_bind_s (ld, dn, authenticationId,
    authorizationId, saslMechanism, passPhrase, serverControls,
    clientControls)]: the value returned, [ld] afterwards, the calls of
    the negotiation and the callback table handed to it (if it was
    reached).  A null or empty [saslMechanism] is looked up with
    [ldap_pvt_sasl_getmechs]; [Fault] is the use of [mechs] when the
    lookup reported success without storing a list.  [Done None] only
    when the answers of [env] run out. *)
Definition ldap_negotiated_sasl_bind_s (ld : LDAP)
    (authenticationId authorizationId saslMechanism : option string)
    (passPhrase : option berval) (o : mech_search) (env : bind_env)
  : outcome (option (Z * LDAP * list bind_event * option (list sasl_callback_t))) :=
  let lookup :=
    match saslMechanism with
    | Some (String c m) => Done (inr (ld, String c m))
    | _ =>
        let '(rc, ld, mechs) := ldap_pvt_sasl_getmechs ld o in
        if negb (rc =? LDAP_SUCCESS) then Done (inl (rc, ld))
        else match mechs with
             | Some m => Done (inr (ld, m))
             | None => Fault
             end
    end in
  match lookup with
  | Fault => Fault
  | Done (inl (rc, ld)) => Done (Some (rc, ld, [], None))
  | Done (inr (ld, mechs)) =>
      let '(cbs, n) := negotiated_callbacks authenticationId authorizationId passPhrase in
      match ldap_pvt_sasl_bind ld mechs env with
      | Some (rc, ld, tr) => Done (Some (rc, ld, tr, Some cbs))
      | None => Done None
      end
  end.

(** ** Initialising the provider library *)

(** [ldap_pvt_sasl_init ()]: [initialized] is the static flag,
    [client_init_ok] whether [sasl_client_init] would return [SASL_OK].
    The result is the value returned, the flag afterwards and whether
    [sasl_client_init] was called. *)
Definition ldap_pvt_sasl_init (initialized : bool) (client_init_ok : bool)
  : Z * bool * bool :=
  if initialized then (0, true, false)
  else if client_init_ok then (0, true, true)
  else (-1, false, true).

(** Successive calls of [ldap_pvt_sasl_init], one per answer
    [sasl_client_init] would give: the values returned, the flag at the
    end and the number of calls of [sasl_client_init]. *)
Fixpoint sasl_init_calls (initialized : bool) (answers : list bool)
  : list Z * bool * nat :=
  match answers with
  | [] => ([], initialized, O)
  | a :: answers' =>
      let '(ret, flag, called) := ldap_pvt_sasl_init initialized a in
      let '(rets, final, n) := sasl_init_calls flag answers' in
      (ret :: rets, final, ((if called then 1 else 0) + n)%nat)
  end.

(** ** Parsing a bind response *)

(** What the BER calls of [ldap_parse_sasl_bind_result] answer: whether
    the message is a bind response, whether [ber_dup] succeeded, the
    result code read by the first [ber_scanf] ([None] for
    [LBER_ERROR]), and for protocol version 2 and later: whether a
    referral follows (and whether skipping it succeeded) and whether
    server credentials follow (and what scanning them gave, [None] for
    [LBER_ERROR]). *)
Record parse_oracle : Type := mkParse {
  po_is_bind : bool;
  po_dup : bool;
  po_errcode : option Z;
  po_referral : option bool;
  po_creds : option (option berval)
}.

(** The outcome of [ldap_parse_sasl_bind_result]: the value returned,
    [ld] afterwards, what was stored in [*servercredp] (if anything),
    the credentials handed to [ber_bvfree] (if any) and whether the
    message was freed. *)
Record parse_result : Type := mkParsed {
  pa_rc : Z;
  pa_ld : LDAP;
  pa_servercred : option (option berval);
  pa_freed : option berval;
  pa_msgfree : bool
}.

(** The scanning part of [ldap_parse_sasl_bind_result]: the result code
    and the credentials scanned, or [None] for a decoding error. *)
Definition parse_bind_response (ld : LDAP) (o : parse_oracle)
  : option (Z * option berval) :=
  if ld_version ld <? LDAP_VERSION2 then
    match po_errcode o with
    | None => None
    | Some errcode => Some (errcode, None)
    end
  else
    match po_errcode o with
    | None => None
    | Some errcode =>
        match po_referral o with
        | Some false => None
        | _ =>
            match po_creds o with
            | None => Some (errcode, None)
            | Some None => None
            | Some (Some scred) => Some (errcode, Some scred)
            end
        end
    end.

(** [ldap_parse_sasl_bind_result (ld, res, servercredp, freeit)] for
    non-null [ld] and [res]; [servercredp] is given by whether it is
    non-null. *)
Definition ldap_parse_sasl_bind_result (ld : LDAP) (servercredp freeit : bool)
    (o : parse_oracle) : parse_result :=
  if servercredp && (ld_version ld <? LDAP_VERSION2) then
    mkParsed LDAP_NOT_SUPPORTED ld None None false
  else
    let stored := if servercredp then Some None else None in
    if negb (po_is_bind o) then
      mkParsed LDAP_PARAM_ERROR (set_ld_errno ld LDAP_PARAM_ERROR) stored None false
    else if negb (po_dup o) then
      mkParsed LDAP_NO_MEMORY (set_ld_errno ld LDAP_NO_MEMORY) stored None false
    else
      match parse_bind_response ld o with
      | None =>
          mkParsed LDAP_DECODING_ERROR (set_ld_errno ld LDAP_DECODING_ERROR)
                   stored None false
      | Some (errcode, scred) =>
          mkParsed errcode (set_ld_errno ld errcode)
                   (if servercredp then Some scred else None)
                   (if servercredp then None else scred)
                   freeit
      end.

(** ** The synchronous bind *)

(** What the calls of [ldap_sasl_bind_s] answer: those of
    [ldap_sasl_bind], [ldap_result] ([Some e] when it returns -1 and
    leaves [e] in [ld_errno]), those of [ldap_parse_sasl_bind_result],
    and [ldap_result2error]. *)
Record bind_s_env : Type := mkBindS {
  bs_wire : wire;
  bs_result : option Z;
  bs_parse : parse_oracle;
  bs_result2error : Z
}.

(** The outcome of [ldap_sasl_bind_s]: the value returned, [ld]
    afterwards, what [*servercredp] holds (if it was written), the
    credentials handed to [ber_bvfree], the credentials parsed, and the
    request sent. *)
Record bind_s_result : Type := mkBound {
  bo_rc : Z;
  bo_ld : LDAP;
  bo_servercred : option (option berval);
  bo_freed : option berval;
  bo_parsed : option berval;
  bo_request : option bind_request
}.

Definition bind_done (rc : Z) : bool :=
  (rc =? LDAP_SUCCESS) || (rc =? LDAP_SASL_BIND_IN_PROGRESS).

(** [ldap_sasl_bind_s (ld, dn, mechanism, cred, sctrls, cctrls,
    servercredp)]. *)
Definition ldap_sasl_bind_s (ld : LDAP) (dn mechanism : option string)
    (cred : option berval) (servercredp : bool) (env : bind_s_env)
  : bind_s_result :=
  (* do a quick !LDAPv3 check... ldap_sasl_bind will do the rest. *)
  if servercredp && (ld_version ld <? LDAP_VERSION3) then
    mkBound LDAP_NOT_SUPPORTED (set_ld_errno ld LDAP_NOT_SUPPORTED) None None None None
  else
    let stored := if servercredp then Some None else None in
    let '(rc, ld, msgid, rq) := ldap_sasl_bind ld dn mechanism cred true (bs_wire env) in
    if negb (rc =? LDAP_SUCCESS) then mkBound rc ld stored None None rq
    else
      match bs_result env with
      | Some e => mkBound e (set_ld_errno ld e) stored None None rq
      | None =>
          (* parse the results *)
          let '(rc, ld, scredp) :=
            if servercredp then
              let r := ldap_parse_sasl_bind_result ld true false (bs_parse env) in
              (pa_rc r, pa_ld r,
               match pa_servercred r with Some v => v | None => None end)
            else (rc, ld, None) in
          if negb (bind_done rc) then mkBound rc ld stored None scredp rq
          else
            let rc := bs_result2error env in
            let ld := set_ld_errno ld rc in
            if bind_done rc && servercredp then
              mkBound rc ld (Some scredp) None scredp rq
            else
              mkBound rc ld stored scredp scredp rq
      end.

(** ** Control requests on the layer *)

(** The option codes [sb_sasl_ctrl] distinguishes. *)
Inductive sb_opt : Type :=
| LBER_SB_OPT_DATA_READY
| LBER_SB_OPT_OTHER (n : Z).

(** [sb_sasl_ctrl (sbiod, opt, arg)]; [next] is what
    [LBER_SBIOD_CTRL_NEXT] answers. *)
Definition sb_sasl_ctrl {Ctx Wr : Type} (s : Sockbuf_IO_Desc Ctx Wr)
    (opt : sb_opt) (next : Z) : Z :=
  match opt with
  | LBER_SB_OPT_DATA_READY =>
      if negb (buf_ptr (buf_in (sbiod_pvt s)) =? buf_end (buf_in (sbiod_pvt s)))
      then 1 else next
  | LBER_SB_OPT_OTHER _ => next
  end.

(** ** Byte streams *)

(** The next [n] bytes of a transport whose reads deliver data, and the
    transport after them; [None] when an end of file, an error or the
    end of the script comes first. *)
Fixpoint take_bytes (t : transport) (n : nat) : option (list byte * transport) :=
  match n with
  | O => Some ([], t)
  | S _ =>
      match t with
      | RdData (b :: bs) :: t' =>
          if (length (b :: bs) <=? n)%nat then
            match take_bytes t' (n - length (b :: bs)) with
            | Some (rest, t'') => Some ((b :: bs) ++ rest, t'')
            | None => None
            end
          else Some (firstn n (b :: bs), RdData (skipn n (b :: bs)) :: t')
      | _ => None
      end
  end.

(** ** The shape of a negotiation *)

(** [LDAP_FREE( ccred.bv_val )] for the credentials [c] a bind was sent
    with, when a blob was held. *)
Definition frees_of (c : berval) (held : bool) : list bind_event :=
  if held then [EvFreeCcred (bv_val c)] else [].

(** The calls of the rounds of a negotiation, after [sasl_client_start].
    A round sends a bind; an in-progress answer is followed by the free
    of the blob that was sent (if one was held), a provider step fed
    with the server credentials of that answer, and the free of those
    credentials.  The rounds end with a bind that the server accepts
    ([true]), or with the disposal of the context after a bind the
    server refuses or a step the provider fails ([false]). *)
Inductive rounds : bool -> list bind_event -> Prop :=
| rounds_accepted (m : string) (c : berval) (h : bool) :
    rounds true [EvBind m c h]
| rounds_refused (m : string) (c : berval) (h : bool) (conn : option nat) :
    rounds false (EvBind m c h :: frees_of c h ++ [EvDispose conn])
| rounds_step_failed (m : string) (c : berval) (h : bool) (s : option berval)
    (conn : option nat) :
    rounds false (EvBind m c h :: frees_of c h ++
                  [EvClientStep s; EvFreeScred s; EvDispose conn])
| rounds_next (ok : bool) (m : string) (c : berval) (h : bool) (s : option berval)
    (tr : list bind_event) :
    rounds ok tr ->
    rounds ok (EvBind m c h :: frees_of c h ++ EvClientStep s :: EvFreeScred s :: tr).

Definition is_install (e : bind_event) : bool :=
  match e with EvInstall _ => true | _ => false end.

Definition is_dispose (e : bind_event) : bool :=
  match e with EvDispose _ => true | _ => false end.

(** The install step that ends a successful [ldap_pvt_sasl_bind]. *)
Definition install_of (ssf : option Z) (conn : option nat) : list bind_event :=
  match ssf with
  | Some v => if negb (v =? 0) then [EvInstall conn] else []
  | None => []
  end.

(** The calls [ldap_pvt_sasl_bind] makes before the negotiation starts:
    none of them is a provider step, a bind, a free of a blob or an
    install. *)
Definition is_setup (e : bind_event) : bool :=
  match e with
  | EvDispose _ | EvClientNew _ | EvSetProp _ => true
  | _ => false
  end.

(** ** Reads of the next layer that end [sb_sasl_read] *)

(** The event the next call of the next layer meets; an exhausted script
    reads as end of file. *)
Definition next_event (t : transport) : rd_event :=
  match t with
  | [] => RdEof
  | ev :: _ => ev
  end.

(** End of file, or an error other than an interrupt. *)
Definition rd_fails (ev : rd_event) : bool :=
  match ev with
  | RdData _ => false
  | RdEof => true
  | RdFail _ e => negb (e =? EINTR)
  end.

(** What [LBER_SBIOD_READ_NEXT] returns on such an event, and [errno]
    after it. *)
Definition rd_result (ev : rd_event) (errno : Z) : Z * Z :=
  match ev with
  | RdData bs => (Z.of_nat (length bs), errno)
  | RdEof => (0, errno)
  | RdFail r e => (Z.neg r, e)
  end.

(** The bytes staged in [sec_buf_in] when the header loop of
    [sb_sasl_read] is passed, and the stream behind them, for the two
    ways a packet is entered: the header is staged already (a packet is
    resumed), or the buffer is idle and the first read delivers the four
    bytes of the header. *)
Definition header_stage {Ctx Wr : Type} (s : Sockbuf_IO_Desc Ctx Wr)
  : option (list byte * transport) :=
  if 4 <=? buf_ptr (sec s) then
    Some (firstn (Z.to_nat (buf_ptr (sec s))) (buf_base (sec s)), next_rd s)
  else if buf_ptr (sec s) =? 0 then
    match next_rd s with
    | RdData (b0 :: b1 :: b2 :: b3 :: more) :: t =>
        Some ([b0; b1; b2; b3],
              match more with [] => t | _ :: _ => RdData more :: t end)
    | _ => None
    end
  else None.

(** * Properties *)

Set Default Proof Using "Type".

(** ** Machine arithmetic *)

Lemma byte_val_range (b : byte) : 0 <= byte_val b < 256.
Proof.
  unfold byte_val.
  pose proof (Byte.to_N_bounded b) as H.
  lia.
Qed.

Lemma to_len_small (x : Z) : 0 <= x < 2 ^ 32 -> to_len x = x.
Proof. intros H. unfold to_len, LONG_BITS. apply Z.mod_small. exact H. Qed.

Lemma to_slen_small (x : Z) : 0 <= x < 2 ^ 31 -> to_slen x = x.
Proof.
  intros H. unfold to_slen. rewrite to_len_small by lia.
  unfold LONG_BITS. simpl Z.sub.
  destruct (Z.ltb_spec x (2 ^ 31)); lia.
Qed.

(** Bits shifted above position [n] do not meet a value below [2^n]. *)
Lemma lor_shiftl_add (hi lo n : Z) :
  0 <= n -> 0 <= lo < 2 ^ n ->
  Z.lor (Z.shiftl hi n) lo = hi * 2 ^ n + lo.
Proof.
  intros Hn Hlo.
  rewrite <- Z.lxor_lor, <- Z.add_nocarry_lxor, Z.shiftl_mul_pow2; auto.
  all: apply Z.bits_inj'; intros i Hi; rewrite Z.land_spec, Z.bits_0.
  all: destruct (Z.lt_ge_cases i n) as [Hlt | Hge].
  all: try (rewrite Z.shiftl_spec_low by assumption; reflexivity).
  all: replace (Z.testbit lo i) with false; [apply andb_false_r |].
  all: symmetry; destruct (Z.eq_dec lo 0) as [-> | Hnz]; [apply Z.bits_0 |].
  all: apply Z.bits_above_log2; [lia |].
  all: assert (2 ^ n <= 2 ^ i) by (apply Z.pow_le_mono_r; lia).
  all: apply Z.log2_lt_pow2; lia.
Qed.

Lemma ntohl_be_value (b0 b1 b2 b3 : byte) :
  ntohl b0 b1 b2 b3 = be_value [b0; b1; b2; b3].
Proof.
  unfold ntohl, be_value; cbn [fold_left].
  pose proof (byte_val_range b0). pose proof (byte_val_range b1).
  pose proof (byte_val_range b2). pose proof (byte_val_range b3).
  rewrite (lor_shiftl_add (byte_val b2) (byte_val b3) 8) by lia.
  rewrite (lor_shiftl_add (byte_val b1) _ 16) by lia.
  rewrite (lor_shiftl_add (byte_val b0) _ 24) by lia.
  lia.
Qed.

Lemma be_value_range (b0 b1 b2 b3 : byte) :
  0 <= be_value [b0; b1; b2; b3] < 2 ^ 32.
Proof.
  unfold be_value; cbn [fold_left].
  pose proof (byte_val_range b0). pose proof (byte_val_range b1).
  pose proof (byte_val_range b2). pose proof (byte_val_range b3).
  lia.
Qed.

(** ** C1: the packet length *)

(** C1.  For every four header bytes (followed by anything), the packet
    length is the big-endian 32-bit value of the header plus 4 when that
    value is at most 65536, and 16 + 4 = 20 when it exceeds 65536.  The
    function is total and its result is a plain length: there is no error
    result. *)
Theorem sb_sasl_pkt_length_spec (b0 b1 b2 b3 : byte) (rest : list byte) :
  sb_sasl_pkt_length (b0 :: b1 :: b2 :: b3 :: rest) =
  if be_value [b0; b1; b2; b3] <=? 65536
  then be_value [b0; b1; b2; b3] + 4
  else 20.
Proof.
  unfold sb_sasl_pkt_length. cbn [nth].
  rewrite ntohl_be_value.
  pose proof (be_value_range b0 b1 b2 b3) as Hr.
  unfold MAX_BUFF_SIZE.
  destruct (Z.ltb_spec 65536 (be_value [b0; b1; b2; b3]));
    destruct (Z.leb_spec (be_value [b0; b1; b2; b3]) 65536); try lia.
  - reflexivity.
  - apply to_len_small. lia.
Qed.

Lemma sb_sasl_pkt_length_bounds (buf : list byte) :
  4 <= sb_sasl_pkt_length buf <= 65540.
Proof.
  unfold sb_sasl_pkt_length.
  rewrite ntohl_be_value.
  pose proof (be_value_range (nth 0 buf x00) (nth 1 buf x00) (nth 2 buf x00) (nth 3 buf x00)).
  unfold MAX_BUFF_SIZE.
  destruct (Z.ltb_spec 65536 (be_value [nth 0 buf x00; nth 1 buf x00; nth 2 buf x00; nth 3 buf x00])).
  - rewrite to_len_small by lia. lia.
  - rewrite to_len_small by lia. lia.
Qed.

(** ** C3: dropping a decoded packet *)

Lemma sb_sasl_pkt_length_firstn (n : nat) (l : list byte) :
  (4 <= n)%nat -> sb_sasl_pkt_length (firstn n l) = sb_sasl_pkt_length l.
Proof.
  intros Hn. unfold sb_sasl_pkt_length.
  rewrite !nth_firstn.
  destruct n as [| [| [| [| n]]]]; try lia.
  reflexivity.
Qed.

Lemma memmove_to_start (base : list byte) (src n : nat) :
  (src + n <= length base)%nat ->
  firstn n (memmove base 0 src n) = firstn n (skipn src base) /\
  length (memmove base 0 src n) = length base.
Proof.
  intros H. unfold memmove. cbn [firstn app Nat.add].
  assert (Hl : length (firstn n (skipn src base)) = n).
  { rewrite length_firstn, length_skipn. lia. }
  split.
  - rewrite firstn_app, Hl, Nat.sub_diag. cbn [firstn].
    rewrite app_nil_r. apply firstn_all2. lia.
  - rewrite length_app, Hl, length_skipn. lia.
Qed.

(** C3 (as amended).  For a staging buffer whose cursor is at or past the
    end of the decoded packet (and inside the block), dropping the packet
    moves the bytes beyond it to the start of the block, sets the cursor
    to their number, and sets the frame end from the header now at the
    start when at least four bytes are left, to 0 otherwise.  The buffer
    is empty exactly when nothing was left; otherwise it holds exactly
    the leftover bytes, which are an incomplete next packet exactly when
    they are fewer than four or fewer than the frame their header
    announces. *)
Theorem sb_sasl_drop_packet_spec (b : Sockbuf_Buf) :
  0 <= buf_end b <= buf_ptr b ->
  buf_ptr b <= Z.of_nat (length (buf_base b)) ->
  buf_ptr b < 2 ^ 31 ->
  let len := buf_ptr b - buf_end b in
  let left := mem_range (buf_base b) (buf_end b) (buf_ptr b) in
  let b' := sb_sasl_drop_packet b in
  buf_ptr b' = len /\
  firstn (Z.to_nat len) (buf_base b') = left /\
  length (buf_base b') = length (buf_base b) /\
  buf_size b' = buf_size b /\
  buf_end b' = (if 4 <=? len then sb_sasl_pkt_length left else 0) /\
  (staged_empty b' = true <-> len = 0) /\
  (staged_incomplete b' = true <->
   0 < len < 4 \/ (4 <= len /\ len < sb_sasl_pkt_length left)).
Proof.
  intros He Hp Hs len left b'.
  assert (Hlen : to_slen (buf_ptr b - buf_end b) = len)
    by (apply to_slen_small; subst len; lia).
  assert (Hmv : 0 < len ->
            firstn (Z.to_nat len) (buf_base b') = left /\
            length (buf_base b') = length (buf_base b)).
  { intros Hpos. subst b'. unfold sb_sasl_drop_packet. rewrite Hlen.
    cbn [buf_base].
    destruct (Z.ltb_spec 0 len); [| lia].
    apply memmove_to_start. lia. }
  assert (Hbase : firstn (Z.to_nat len) (buf_base b') = left /\
                  length (buf_base b') = length (buf_base b)).
  { destruct (Z.lt_ge_cases 0 len) as [Hpos | Hz]; [auto |].
    assert (len = 0) by (subst len; lia).
    subst b' left. unfold sb_sasl_drop_packet, mem_range. rewrite Hlen.
    fold len. replace len with 0 by lia. split; reflexivity. }
  assert (Hend : buf_end b' =
                 (if 4 <=? len then sb_sasl_pkt_length left else 0)).
  { destruct Hbase as [Hleft _]. rewrite <- Hleft.
    destruct (Z.leb_spec 4 len) as [H4 | H4].
    - rewrite sb_sasl_pkt_length_firstn by lia.
      subst b'. unfold sb_sasl_drop_packet. rewrite Hlen. cbn [buf_end buf_base].
      destruct (Z.leb_spec 4 len); [reflexivity | lia].
    - subst b'. unfold sb_sasl_drop_packet. rewrite Hlen. cbn [buf_end].
      destruct (Z.leb_spec 4 len); [lia | reflexivity]. }
  assert (Hptr : buf_ptr b' = len).
  { subst b'. unfold sb_sasl_drop_packet. rewrite Hlen. cbn [buf_ptr].
    apply to_len_small. subst len. lia. }
  pose proof (sb_sasl_pkt_length_bounds left) as Hb.
  repeat split; try tauto.
  - unfold staged_empty. rewrite Hptr, Hend. intros H.
    apply andb_true_iff in H. destruct H as [H _]. lia.
  - unfold staged_empty. rewrite Hptr, Hend. intros ->. reflexivity.
  - unfold staged_incomplete. rewrite Hptr, Hend. intros H.
    apply andb_true_iff in H. destruct H as [H1 H2].
    apply orb_true_iff in H2.
    destruct (Z.leb_spec 4 len); lia.
  - unfold staged_incomplete. rewrite Hptr, Hend. intros H.
    apply andb_true_iff. split; [lia |]. apply orb_true_iff.
    destruct (Z.leb_spec 4 len); lia.
Qed.

(** A call of [sb_sasl_drop_packet_spec]: two header bytes of the next
    packet lie beyond a consumed five-byte packet. *)
Lemma sb_sasl_drop_packet_spec_witness :
  let b := mkBuf [x00; x00; x00; x01; x07; x00; x00; x09] 7 5 8 in
  (0 <= buf_end b <= buf_ptr b /\
   buf_ptr b <= Z.of_nat (length (buf_base b)) /\
   buf_ptr b < 2 ^ 31) /\
  buf_ptr (sb_sasl_drop_packet b) = buf_ptr b - buf_end b /\
  staged_incomplete (sb_sasl_drop_packet b) = true.
Proof.
  intros b.
  assert (H1 : 0 <= buf_end b <= buf_ptr b) by (cbn; lia).
  assert (H2 : buf_ptr b <= Z.of_nat (length (buf_base b))) by (cbn; lia).
  assert (H3 : buf_ptr b < 2 ^ 31) by (cbn; lia).
  pose proof (sb_sasl_drop_packet_spec b H1 H2 H3) as H.
  cbv zeta in H.
  split; [tauto |].
  split; [apply H |].
  apply H. left. cbn. lia.
Defined.

(** C3 (as stated, refuted).  When the bytes beyond the consumed packet
    already hold a whole next packet, the buffer after the drop is
    neither empty nor an incomplete packet: here a four-byte packet is
    followed by another four-byte packet (header 0), and the drop leaves
    cursor 4 and frame end 4. *)
Lemma sb_sasl_drop_packet_whole_leftover :
  let b := mkBuf [x00; x00; x00; x00; x00; x00; x00; x00] 8 4 8 in
  0 <= buf_end b <= buf_ptr b /\
  buf_ptr b <= Z.of_nat (length (buf_base b)) /\
  sb_sasl_drop_packet b = mkBuf [x00; x00; x00; x00; x00; x00; x00; x00] 4 4 8 /\
  staged_empty (sb_sasl_drop_packet b) = false /\
  staged_incomplete (sb_sasl_drop_packet b) = false.
Proof.
  cbv zeta. repeat split; try (cbn; lia); reflexivity.
Qed.

(** ** C8: mapping provider status to LDAP result codes *)

Ltac split_eqb :=
  repeat match goal with
         | |- context [Z.eqb ?a ?b] => destruct (Z.eqb_spec a b)
         end.

(** C8 (as amended).  Continue maps to "more results to return", success
    to success, allocation failure to no-memory, unsupported
    authorization identity to parameter error; unknown mechanism, bad
    authentication, too weak and encryption needed map to
    authentication-unknown; generic failure and every status that is not
    listed map to local error.  Every result satisfies the function's
    closing assertion (success or a client-library error code) and is
    one of six constants, whatever the input. *)
Theorem sasl_err2ldap_spec :
  sasl_err2ldap SASL_CONTINUE = LDAP_MORE_RESULTS_TO_RETURN /\
  sasl_err2ldap SASL_OK = LDAP_SUCCESS /\
  sasl_err2ldap SASL_NOMEM = LDAP_NO_MEMORY /\
  sasl_err2ldap SASL_NOAUTHZ = LDAP_PARAM_ERROR /\
  sasl_err2ldap SASL_NOMECH = LDAP_AUTH_UNKNOWN /\
  sasl_err2ldap SASL_BADAUTH = LDAP_AUTH_UNKNOWN /\
  sasl_err2ldap SASL_TOOWEAK = LDAP_AUTH_UNKNOWN /\
  sasl_err2ldap SASL_ENCRYPT = LDAP_AUTH_UNKNOWN /\
  sasl_err2ldap SASL_FAIL = LDAP_LOCAL_ERROR /\
  (forall saslerr : Z,
      ~ In saslerr [SASL_CONTINUE; SASL_OK; SASL_FAIL; SASL_NOMEM; SASL_NOMECH;
                    SASL_BADAUTH; SASL_NOAUTHZ; SASL_TOOWEAK; SASL_ENCRYPT] ->
      sasl_err2ldap saslerr = LDAP_LOCAL_ERROR) /\
  (forall saslerr : Z, sasl_err2ldap_assert (sasl_err2ldap saslerr) = true) /\
  (forall saslerr : Z,
      In (sasl_err2ldap saslerr)
         [LDAP_MORE_RESULTS_TO_RETURN; LDAP_SUCCESS; LDAP_LOCAL_ERROR;
          LDAP_NO_MEMORY; LDAP_AUTH_UNKNOWN; LDAP_PARAM_ERROR]).
Proof.
  repeat split; try reflexivity.
  - intros n Hn. unfold sasl_err2ldap.
    split_eqb; subst; cbn [orb]; try reflexivity; exfalso; apply Hn; cbn; tauto.
  - intros n. unfold sasl_err2ldap. split_eqb; reflexivity.
  - intros n. unfold sasl_err2ldap. split_eqb; cbn; tauto.
Qed.

(** C8 (as stated, refuted).  Generic failure is not mapped to the
    authentication-failed code the other three are mapped to. *)
Lemma sasl_err2ldap_fail_is_local_error :
  sasl_err2ldap SASL_FAIL = LDAP_LOCAL_ERROR /\
  sasl_err2ldap SASL_BADAUTH = LDAP_AUTH_UNKNOWN /\
  sasl_err2ldap SASL_FAIL <> sasl_err2ldap SASL_BADAUTH.
Proof. repeat split. discriminate. Qed.

(** ** C9: the credential callbacks *)

(** The identity callback: user and authentication-name requests store
    the supplied string and its length (null and 0 when absent), a
    language request stores null and 0, any other id is refused with
    [SASL_BADPARAM], as is a null [result]. *)
Lemma ldap_pvt_sasl_getsimple_spec (context : option string) (id : Z) (len : bool) :
  (id = SASL_CB_USER \/ id = SASL_CB_AUTHNAME ->
   ldap_pvt_sasl_getsimple context id true len =
   (SASL_OK,
    mkSimple (Some context)
      (if len
       then Some (match context with
                  | Some v => Z.of_nat (String.length v)
                  | None => 0
                  end)
       else None))) /\
  (id = SASL_CB_LANGUAGE ->
   ldap_pvt_sasl_getsimple context id true len =
   (SASL_OK, mkSimple (Some None) (if len then Some 0 else None))) /\
  (id <> SASL_CB_USER -> id <> SASL_CB_AUTHNAME -> id <> SASL_CB_LANGUAGE ->
   ldap_pvt_sasl_getsimple context id true len =
   (SASL_BADPARAM, mkSimple None None)) /\
  ldap_pvt_sasl_getsimple context id false len =
  (SASL_BADPARAM, mkSimple None None).
Proof.
  repeat split.
  - intros [-> | ->]; reflexivity.
  - intros ->; reflexivity.
  - intros H1 H2 H3. unfold ldap_pvt_sasl_getsimple. cbn [negb].
    split_eqb; try contradiction. reflexivity.
Qed.

(** The secret callback with a passphrase present: parameter error on a
    null connection, a null output pointer or an id other than
    [SASL_CB_PASS]; no-memory when the allocation fails; otherwise a
    secret sized to the passphrase length holding its bytes. *)
Lemma ldap_pvt_sasl_getsecret_present (conn psecret malloc_ok : bool)
    (p : berval) (id : Z) :
  ldap_pvt_sasl_getsecret conn (Some p) id psecret malloc_ok =
  if negb conn || negb psecret || negb (id =? SASL_CB_PASS)
  then Done (SASL_BADPARAM, None)
  else if malloc_ok
       then Done (SASL_OK,
                  Some (mkSecret (bv_len p)
                                 (firstn (Z.to_nat (bv_len p)) (bv_val p))
                                 (bv_len p)))
       else Done (SASL_NOMEM, None).
Proof.
  unfold ldap_pvt_sasl_getsecret.
  destruct conn, psecret, malloc_ok; cbn [negb orb]; split_eqb; reflexivity.
Qed.

(** C9 (the failing input).  A secret request with a null passphrase, a
    valid connection and output pointer and a successful allocation
    reads [bv_len] through the null passphrase: the callback does not
    return. *)
Theorem ldap_pvt_sasl_getsecret_null_passphrase :
  ldap_pvt_sasl_getsecret true None SASL_CB_PASS true true = Fault.
Proof. reflexivity. Qed.

(** ** C7: protocol versions below 3 *)

(** C7.  On a connection whose protocol version is below 3,
    [ldap_pvt_sasl_bind] returns [LDAP_NOT_SUPPORTED] (also left in
    [ld_errno]) before any collaborator is called: no security context
    is created and the handle held by [ld] is what it was.  A SASL
    [ldap_sasl_bind] on such a connection returns the same code and
    sends no request. *)
Theorem sasl_bind_below_v3_not_supported (ld : LDAP) (mechs : string)
    (env : bind_env) (dn : option string) (mechanism : string)
    (cred : option berval) (w : wire) :
  ld_version ld < LDAP_VERSION3 ->
  (exists ld',
      ldap_pvt_sasl_bind ld mechs env = Some (LDAP_NOT_SUPPORTED, ld', []) /\
      ld_errno ld' = LDAP_NOT_SUPPORTED /\
      ld_sasl_context ld' = ld_sasl_context ld) /\
  (exists ld',
      ldap_sasl_bind ld dn (Some mechanism) cred true w =
      (LDAP_NOT_SUPPORTED, ld', None, None) /\
      ld_errno ld' = LDAP_NOT_SUPPORTED /\
      ld_msgid ld' = ld_msgid ld /\
      ld_sasl_context ld' = ld_sasl_context ld).
Proof.
  intros Hv.
  assert (Hb : (ld_version ld <? LDAP_VERSION3) = true) by (apply Z.ltb_lt; exact Hv).
  split.
  - exists (set_ld_errno ld LDAP_NOT_SUPPORTED).
    unfold ldap_pvt_sasl_bind. rewrite Hb. repeat split.
  - exists (set_ld_errno ld LDAP_NOT_SUPPORTED).
    unfold ldap_sasl_bind. cbn [negb andb]. rewrite Hb. repeat split.
Qed.

(** [sasl_bind_below_v3_not_supported] on an LDAPv2 connection. *)
Lemma sasl_bind_below_v3_witness :
  let ld := mkLDAP LDAP_VERSION2 LDAP_SUCCESS 0 None None in
  ld_version ld < LDAP_VERSION3 /\
  (exists ld',
      ldap_pvt_sasl_bind ld "DIGEST-MD5"%string sample_env =
      Some (LDAP_NOT_SUPPORTED, ld', []) /\
      ld_errno ld' = LDAP_NOT_SUPPORTED /\
      ld_sasl_context ld' = ld_sasl_context ld) /\
  (exists ld',
      ldap_sasl_bind ld None (Some "DIGEST-MD5"%string) None true sample_wire =
      (LDAP_NOT_SUPPORTED, ld', None, None) /\
      ld_errno ld' = LDAP_NOT_SUPPORTED /\
      ld_msgid ld' = ld_msgid ld /\
      ld_sasl_context ld' = ld_sasl_context ld).
Proof.
  intros ld.
  assert (Hv : ld_version ld < LDAP_VERSION3) by (cbn; unfold LDAP_VERSION2, LDAP_VERSION3; lia).
  split; [exact Hv |].
  exact (sasl_bind_below_v3_not_supported ld "DIGEST-MD5"%string sample_env
           None "DIGEST-MD5"%string None sample_wire Hv).
Defined.

(** The same server on an LDAPv3 connection: the bind goes through. *)
Example ldap_pvt_sasl_bind_v3_runs :
  exists ld' tr,
    ldap_pvt_sasl_bind (mkLDAP LDAP_VERSION3 LDAP_SUCCESS 0 None None)
                       "DIGEST-MD5"%string sample_env =
    Some (LDAP_SUCCESS, ld', tr) /\
    ld_sasl_context ld' = Some 1%nat /\
    filter is_client_new tr = [EvClientNew "ldap.example.org"%string].
Proof. eexists. eexists. repeat split. Qed.

(** ** C6: a three-round negotiation *)

Lemma filter_none {A : Type} (f : A -> bool) (l : list A) :
  (forall e, In e l -> f e = false) -> filter f l = [].
Proof.
  induction l as [| a l IH]; intros H; [reflexivity |].
  cbn [filter]. rewrite (H a (or_introl eq_refl)).
  apply IH. intros e He. apply H. now right.
Qed.

(** C6.  The provider answers continue to [sasl_client_start] and to
    the first [sasl_client_step] and success to the second; the server
    answers in-progress to the first two binds and success to the
    third.  Then the bind succeeds after exactly three provider
    interactions (the start and two steps) and three bind round trips,
    and in each of the two rounds that ask the provider for a new blob
    the blob held so far is freed before [sasl_client_step] is called.
    The calls before and after this exchange contain no provider step,
    bind or free. *)
Theorem ldap_pvt_sasl_bind_three_rounds (ld : LDAP) (mechs mech host : string)
    (conn : nat) (newrc : Z) (b0 b1 : list byte) (l0 l1 l2 : Z)
    (o2 : option (list byte)) (e1 e2 e3 : Z) (s1 s2 s3 : option berval)
    (more_steps : list provider_reply) (more_binds : list bind_reply)
    (ssf : option Z) :
  LDAP_VERSION3 <= ld_version ld ->
  sasl_failed newrc = false ->
  let env :=
    mkEnv true (0, 0) (Some host) (newrc, conn) true true
          (mkReply SASL_CONTINUE (Some b0) l0, mech)
          (mkReply SASL_CONTINUE (Some b1) l1 :: mkReply SASL_OK o2 l2 :: more_steps)
          (mkBindReply LDAP_SASL_BIND_IN_PROGRESS e1 s1
           :: mkBindReply LDAP_SASL_BIND_IN_PROGRESS e2 s2
           :: mkBindReply LDAP_SUCCESS e3 s3 :: more_binds)
          ssf in
  exists ld' tr pre post,
    ldap_pvt_sasl_bind ld mechs env = Some (LDAP_SUCCESS, ld', tr) /\
    tr = pre ++
         [EvClientStart mechs;
          EvBind mech (mkBerval l0 b0) true;
          EvFreeCcred b0; EvClientStep s1; EvFreeScred s1;
          EvBind mech (mkBerval l1 b1) true;
          EvFreeCcred b1; EvClientStep s2; EvFreeScred s2;
          EvBind mech (ccred_berval (o2, l2)) (ccred_held (o2, l2))] ++
         post /\
    ld_sasl_context ld' = Some conn /\
    (forall e, In e (pre ++ post) ->
               is_provider_step e = false /\ is_bind e = false /\
               (forall b, e <> EvFreeCcred b)) /\
    length (filter is_provider_step tr) = 3%nat /\
    length (filter is_client_step tr) = 2%nat /\
    length (filter is_bind tr) = 3%nat.
Proof.
  intros Hv Hnew env.
  assert (Hb : (ld_version ld <? LDAP_VERSION3) = false) by (apply Z.ltb_ge; exact Hv).
  set (pre := (match ld_sasl_context ld with
               | Some c => [EvDispose (Some c)]
               | None => []
               end ++ [EvClientNew host]) ++
              [EvSetProp "SASL_IP_REMOTE"] ++
              [EvSetProp "SASL_IP_LOCAL"; EvSetProp "SASL_SEC_PROPS"]).
  set (post := match ssf with
               | Some v => if negb (v =? 0) then [EvInstall (Some conn)] else []
               | None => []
               end).
  assert (Hrun : ldap_pvt_sasl_bind ld mechs env =
    Some (LDAP_SUCCESS,
          set_ld_errno (set_ld_errno (set_ld_errno (set_ld_context ld (Some conn)) e1) e2) e3,
          pre ++
          [EvClientStart mechs;
           EvBind mech (mkBerval l0 b0) true;
           EvFreeCcred b0; EvClientStep s1; EvFreeScred s1;
           EvBind mech (mkBerval l1 b1) true;
           EvFreeCcred b1; EvClientStep s2; EvFreeScred s2;
           EvBind mech (ccred_berval (o2, l2)) (ccred_held (o2, l2))] ++
          post)).
  { unfold ldap_pvt_sasl_bind. rewrite Hb. subst env. cbn [e_sd_valid e_host e_client_new].
    rewrite Hnew.
    cbn -[set_ld_errno set_ld_context ccred_berval ccred_held app].
    subst pre post.
    destruct ssf as [v |]; [destruct (v =? 0) |]; cbn [negb];
      repeat rewrite <- app_assoc; cbn [app]; rewrite ?app_nil_r; reflexivity. }
  assert (Hpp : forall e, In e (pre ++ post) ->
               is_provider_step e = false /\ is_bind e = false /\
               (forall b, e <> EvFreeCcred b)).
  { intros e He. apply in_app_or in He. destruct He as [He | He].
    - subst pre. destruct (ld_sasl_context ld); cbn in He;
        repeat (destruct He as [<- | He]; [repeat split; discriminate |]);
        contradiction.
    - subst post. destruct ssf as [v |]; [destruct (v =? 0) |]; cbn in He;
        repeat (destruct He as [<- | He]; [repeat split; discriminate |]);
        contradiction. }
  eexists. eexists. exists pre, post. split; [exact Hrun |].
  split; [reflexivity |]. split; [reflexivity |]. split; [exact Hpp |].
  assert (Hf : forall f,
             (forall e, In e (pre ++ post) -> f e = false) ->
             filter f pre = [] /\ filter f post = []).
  { intros f Hfalse. split.
    - apply filter_none.
      intros e He. apply Hfalse. apply in_or_app. now left.
    - apply filter_none.
      intros e He. apply Hfalse. apply in_or_app. now right. }
  destruct (Hf is_provider_step (fun e He => proj1 (Hpp e He))) as [P1 P2].
  destruct (Hf is_bind (fun e He => proj1 (proj2 (Hpp e He)))) as [B1 B2].
  assert (Hcs : forall e, In e (pre ++ post) -> is_client_step e = false).
  { intros e He. destruct (Hpp e He) as [Hp _]. destruct e; try reflexivity; discriminate. }
  destruct (Hf is_client_step Hcs) as [C1 C2].
  rewrite !filter_app, P1, P2, B1, B2, C1, C2. repeat split.
Qed.

(** [ldap_pvt_sasl_bind_three_rounds] on the sample server. *)
Lemma ldap_pvt_sasl_bind_three_rounds_witness :
  LDAP_VERSION3 <= ld_version sample_ld /\
  sasl_failed SASL_OK = false /\
  exists ld' tr,
    ldap_pvt_sasl_bind sample_ld "DIGEST-MD5"%string sample_env =
    Some (LDAP_SUCCESS, ld', tr) /\
    length (filter is_provider_step tr) = 3%nat /\
    length (filter is_client_step tr) = 2%nat /\
    length (filter is_bind tr) = 3%nat.
Proof.
  assert (H1 : LDAP_VERSION3 <= ld_version sample_ld) by (cbn; lia).
  assert (H2 : sasl_failed SASL_OK = false) by reflexivity.
  split; [exact H1 |]. split; [exact H2 |].
  destruct (ldap_pvt_sasl_bind_three_rounds sample_ld
              "DIGEST-MD5"%string "DIGEST-MD5"%string "ldap.example.org"%string
              1%nat SASL_OK [x01] [x02; x03] 1 2 0 None
              LDAP_SASL_BIND_IN_PROGRESS LDAP_SASL_BIND_IN_PROGRESS LDAP_SUCCESS
              (Some (mkBerval 1 [x0a])) (Some (mkBerval 1 [x0b])) None
              [] [] (Some 56) H1 H2)
    as (ld' & tr & pre & post & Hrun & _ & _ & _ & Hcount).
  exists ld', tr. split; [exact Hrun | exact Hcount].
Defined.

(** ** C10: installing the layer twice *)

(** C10.  When the SASL layer is already present on the Sockbuf,
    [ldap_pvt_sasl_install] adds nothing and leaves the Sockbuf as it
    is, whatever context argument it is given; and the call returns
    [LDAP_SUCCESS] in every case, whatever [ber_sockbuf_add_io] did. *)
Theorem ldap_pvt_sasl_install_idempotent (Ctx Sockbuf : Type)
    (has_io : Sockbuf -> bool) (add_io : Sockbuf -> Ctx -> Z * Sockbuf)
    (sb : Sockbuf) (ctx_arg : Ctx) :
  has_io sb = true ->
  ldap_pvt_sasl_install has_io add_io sb ctx_arg = (LDAP_SUCCESS, sb) /\
  (forall sb' ctx', fst (ldap_pvt_sasl_install has_io add_io sb' ctx') = LDAP_SUCCESS).
Proof.
  intros H. split.
  - unfold ldap_pvt_sasl_install. rewrite H. reflexivity.
  - intros sb' ctx'. reflexivity.
Qed.

Lemma stack_has_io_insert (io : string) (level : Z) (arg : nat) (sb : list io_layer) :
  stack_has_io io (stack_insert (mkLayer io level arg) sb) = true.
Proof.
  induction sb as [| p sb IH]; cbn [stack_insert layer_level].
  - unfold stack_has_io. cbn. rewrite String.eqb_refl. reflexivity.
  - destruct (level <? layer_level p).
    + unfold stack_has_io in *. cbn [existsb]. rewrite IH. apply orb_true_r.
    + unfold stack_has_io. cbn [existsb layer_io]. rewrite String.eqb_refl. reflexivity.
Qed.

(** On a stack of layers: after one install the layer is present, so a
    second install with another context argument changes nothing; the
    stack still holds the layer set up with the first argument, once. *)
Lemma stack_install_twice (sb : list io_layer) (c1 c2 : nat) :
  stack_has_io sasl_io (snd (stack_install sb c1)) = true /\
  stack_install (snd (stack_install sb c1)) c2 =
  (LDAP_SUCCESS, snd (stack_install sb c1)).
Proof.
  assert (H : stack_has_io sasl_io (snd (stack_install sb c1)) = true).
  { unfold stack_install, ldap_pvt_sasl_install. cbn [snd].
    destruct (stack_has_io sasl_io sb) eqn:E; cbn [negb]; [exact E |].
    unfold stack_add_io. cbn [snd]. apply stack_has_io_insert. }
  split; [exact H |].
  unfold stack_install at 1. unfold ldap_pvt_sasl_install. rewrite H. reflexivity.
Qed.

(** [ldap_pvt_sasl_install_idempotent] on a stream that carries a
    transport layer and the SASL layer set up with context 1: an install
    with context 2 leaves it as it is. *)
Lemma ldap_pvt_sasl_install_idempotent_witness :
  let sb := [mkLayer sasl_io LBER_SBIOD_LEVEL_APPLICATION 1%nat;
             mkLayer "tcp"%string 10 0%nat] in
  stack_has_io sasl_io sb = true /\
  stack_install sb 2%nat = (LDAP_SUCCESS, sb).
Proof.
  intros sb.
  assert (H : stack_has_io sasl_io sb = true) by reflexivity.
  split; [exact H |].
  exact (proj1 (ldap_pvt_sasl_install_idempotent nat (list io_layer)
                  (stack_has_io sasl_io)
                  (stack_add_io sasl_io LBER_SBIOD_LEVEL_APPLICATION)
                  sb 2%nat H)).
Defined.

(** ** The SASL layer: writing *)

Section Write.

Context {Ctx Wr : Type}.
Variable sasl_encode : Ctx -> list byte -> Z * list byte * Ctx.
Variable do_write : Wr -> Sockbuf_Buf -> Z * Sockbuf_Buf * Wr.



End Write.


(** The same layer once the next layer accepts all eight pending bytes:
    the old packet is flushed first, then the new data is encoded and
    written, and the caller's length is returned. *)
Example sb_sasl_write_after_flush :
  let s := mkIod (sbiod_pvt sample_pending) [] [8; 2] 0 [] in
  let res := sb_sasl_write sample_encode sb_do_write_model s [x41; x42] 2 in
  fst res = 2 /\
  calls (snd res) = [DoWrite 8 8; Encode [x41; x42] SASL_OK; DoWrite 2 2].
Proof. split; reflexivity. Qed.

(** ** The SASL layer: reading *)

Lemma LBER_SBIOD_READ_NEXT_spec (t : transport) (e : Z) (l : Z) :
  let r := LBER_SBIOD_READ_NEXT t e l in
  let ret := fst (fst (fst r)) in
  (ret <> 0 -> (transport_cost (snd r) < transport_cost t)%nat) /\
  (0 <= l -> ret <= l) /\
  (0 <= ret -> ret = Z.of_nat (length (snd (fst (fst r)))) /\ snd (fst r) = e).
Proof.
  destruct t as [| [bs | | r0 e0] t']; cbn [LBER_SBIOD_READ_NEXT fst snd].
  - repeat split; cbn [length transport_cost]; lia.
  - assert (Hl : length (firstn (Z.to_nat l) bs) = Nat.min (Z.to_nat l) (length bs))
      by apply length_firstn.
    repeat split.
    + intros Hne.
      pose proof (firstn_skipn (Z.to_nat l) bs) as Hfs.
      apply (f_equal (@length byte)) in Hfs. rewrite length_app in Hfs.
      destruct (skipn (Z.to_nat l) bs) as [| x rest] eqn:Es; cbn [transport_cost length] in *; lia.
    + intros Hl0. lia.
  - repeat split; cbn [length transport_cost]; lia.
  - repeat split; cbn [length transport_cost]; lia.
Qed.

Section Read.

Context {Ctx Wr : Type}.
Variable sasl_decode : Ctx -> list byte -> Z * list byte * Ctx.
Variable realloc : Z -> option Z.

Local Abbreviation state := (Sockbuf_IO_Desc Ctx Wr).

Lemma same_frame_refl (s : state) : same_frame s s.
Proof. repeat split. Qed.

Lemma same_frame_trans (s1 s2 s3 : state) :
  same_frame s1 s2 -> same_frame s2 s3 -> same_frame s1 s3.
Proof.
  unfold same_frame. intros (A1 & A2 & A3 & A4 & A5 & A6) (B1 & B2 & B3 & B4 & B5 & B6).
  repeat split; congruence.
Qed.

Lemma read_next_into_spec (s : state) (off l : Z) :
  let ret := fst (read_next_into s off l) in
  let s1 := snd (read_next_into s off l) in
  calls s1 = calls s ++ [ReadNext l ret (errno s1)] /\
  same_frame s s1 /\
  buf_ptr (sec s1) = buf_ptr (sec s) /\
  (ret <> 0 -> (transport_cost (next_rd s1) < transport_cost (next_rd s))%nat) /\
  (0 <= l -> ret <= l).
Proof.
  unfold read_next_into.
  pose proof (LBER_SBIOD_READ_NEXT_spec (next_rd s) (errno s) l) as H.
  destruct (LBER_SBIOD_READ_NEXT (next_rd s) (errno s) l) as [[[ret data] e] t].
  cbn [fst snd] in *. cbv zeta in H. destruct H as (H1 & H2 & _).
  repeat split; assumption.
Qed.

Lemma advance_sec_spec (s : state) (n : Z) :
  calls (advance_sec s n) = calls s /\
  same_frame s (advance_sec s n) /\
  next_rd (advance_sec s n) = next_rd s /\
  errno (advance_sec s n) = errno s /\
  buf_ptr (sec (advance_sec s n)) = to_len (buf_ptr (sec s) + n).
Proof. repeat split. Qed.

(** How a loop result for the state after one passing read extends to
    the state before it. *)
Lemma loop_post_step (s s1 s2 : state) (l ret : Z) (r : flow state) :
  calls s1 = calls s ++ [ReadNext l ret (errno s1)] ->
  passes (ReadNext l ret (errno s1)) = true ->
  same_frame s s1 ->
  calls s2 = calls s1 -> same_frame s1 s2 ->
  loop_post s2 r -> loop_post s r.
Proof.
  intros Hc Hp Hf Hc2 Hf2 Hr.
  destruct r as [ret' s' | s' |]; cbn [loop_post] in *; [| | exact Hr].
  - destruct Hr as (rds & l' & Hcs & Hps & Hle & Hnp & Hfr).
    exists (ReadNext l ret (errno s1) :: rds), l'.
    rewrite Hcs, Hc2, Hc, <- app_assoc. cbn [app forallb].
    rewrite Hp, Hps.
    assert (Hfin : same_frame s s').
    { eapply same_frame_trans; [exact Hf |].
      eapply same_frame_trans; [exact Hf2 | exact Hfr]. }
    split; [reflexivity |]. split; [reflexivity |].
    split; [exact Hle |]. split; [exact Hnp | exact Hfin].
  - destruct Hr as (rds & Hcs & Hps & Hfr).
    exists (ReadNext l ret (errno s1) :: rds).
    rewrite Hcs, Hc2, Hc, <- app_assoc. cbn [app forallb].
    rewrite Hp, Hps.
    assert (Hfin : same_frame s s').
    { eapply same_frame_trans; [exact Hf |].
      eapply same_frame_trans; [exact Hf2 | exact Hfr]. }
    split; [reflexivity |]. split; [reflexivity |]. exact Hfin.
Qed.

Lemma loop_post_return (s s1 : state) (l ret : Z) :
  calls s1 = calls s ++ [ReadNext l ret (errno s1)] ->
  ((ret <? 0) && (errno s1 =? EINTR)) = false ->
  ret <= 0 ->
  same_frame s s1 ->
  loop_post s (Return ret s1).
Proof.
  intros Hc Hi Hle Hf. cbn [loop_post].
  exists [], l. cbn [app forallb passes]. rewrite Hi.
  split; [exact Hc |]. split; [reflexivity |]. split; [exact Hle |].
  split; [| exact Hf].
  destruct (Z.ltb_spec 0 ret); [lia | reflexivity].
Qed.

Lemma read_pkt_header_spec (fuel : nat) :
  forall s : state,
    (transport_cost (next_rd s) < fuel)%nat ->
    loop_post s (read_pkt_header fuel s).
Proof.
  induction fuel as [| fuel IH]; intros s Hcost; [lia |].
  cbn [read_pkt_header].
  destruct (buf_ptr (sec s) <? 4) eqn:E.
  2: { exists []. rewrite app_nil_r.
       split; [reflexivity |]. split; [reflexivity |]. apply same_frame_refl. }
  pose proof (read_next_into_spec s 0 (4 - buf_ptr (sec s))) as H.
  destruct (read_next_into s 0 (4 - buf_ptr (sec s))) as [ret s1].
  cbn [fst snd] in H. cbv zeta in H.
  destruct H as (Hc & Hf & Hp & Hdec & Hle).
  destruct ((ret <? 0) && (errno s1 =? EINTR)) eqn:Ei.
  - apply (loop_post_step s s1 s1 (4 - buf_ptr (sec s)) ret); auto.
    + cbn [passes]. rewrite Ei. apply orb_true_r.
    + apply same_frame_refl.
    + apply IH. apply andb_true_iff in Ei. destruct Ei as [Ei _].
      apply Z.ltb_lt in Ei. assert (ret <> 0) by lia. specialize (Hdec H). lia.
  - destruct (Z.leb_spec ret 0) as [Hr | Hr].
    + apply (loop_post_return s s1 (4 - buf_ptr (sec s))); assumption.
    + destruct (advance_sec_spec s1 ret) as (A1 & A2 & A3 & A4 & A5).
      apply (loop_post_step s s1 (advance_sec s1 ret) (4 - buf_ptr (sec s)) ret); auto.
      * cbn [passes]. destruct (Z.ltb_spec 0 ret); [reflexivity | lia].
      * apply IH. rewrite A3. assert (ret <> 0) by lia. specialize (Hdec H). lia.
Qed.

Lemma read_pkt_body_spec (fuel : nat) :
  forall s : state,
    (transport_cost (next_rd s) < fuel)%nat ->
    loop_post s (read_pkt_body fuel s).
Proof.
  induction fuel as [| fuel IH]; intros s Hcost; [lia |].
  cbn [read_pkt_body].
  destruct (buf_ptr (sec s) <? buf_end (sec s)) eqn:E.
  2: { exists []. rewrite app_nil_r.
       split; [reflexivity |]. split; [reflexivity |]. apply same_frame_refl. }
  set (n := to_slen (buf_end (sec s) - buf_ptr (sec s))).
  pose proof (read_next_into_spec s (buf_ptr (sec s)) n) as H.
  destruct (read_next_into s (buf_ptr (sec s)) n) as [ret s1].
  cbn [fst snd] in H. cbv zeta in H.
  destruct H as (Hc & Hf & Hp & Hdec & Hle).
  destruct ((ret <? 0) && (errno s1 =? EINTR)) eqn:Ei.
  - apply (loop_post_step s s1 s1 n ret); auto.
    + cbn [passes]. rewrite Ei. apply orb_true_r.
    + apply same_frame_refl.
    + apply IH. apply andb_true_iff in Ei. destruct Ei as [Ei _].
      apply Z.ltb_lt in Ei. assert (ret <> 0) by lia. specialize (Hdec H). lia.
  - destruct (Z.leb_spec ret 0) as [Hr | Hr].
    + apply (loop_post_return s s1 n); assumption.
    + destruct (advance_sec_spec s1 ret) as (A1 & A2 & A3 & A4 & A5).
      apply (loop_post_step s s1 (advance_sec s1 ret) n ret); auto.
      * cbn [passes]. destruct (Z.ltb_spec 0 ret); [reflexivity | lia].
      * apply IH. rewrite A3. assert (ret <> 0) by lia. specialize (Hdec H). lia.
Qed.

Lemma passes_quiet (rds : list call) :
  forallb passes rds = true -> forallb quiet rds = true.
Proof.
  induction rds as [| c rds IH]; [reflexivity |].
  cbn [forallb]. intros H. apply andb_true_iff in H. destruct H as [H1 H2].
  rewrite (IH H2), andb_true_r.
  destruct c; try discriminate. exact H1.
Qed.

Lemma read_pkt_body_exit (fuel : nat) :
  forall s s' : state,
    read_pkt_body fuel s = Continue s' ->
    buf_end (sec s') <= buf_ptr (sec s').
Proof.
  induction fuel as [| fuel IH]; intros s s'; cbn [read_pkt_body];
    destruct (Z.ltb_spec (buf_ptr (sec s)) (buf_end (sec s))) as [Hlt | Hge];
    try discriminate.
  - intros H. injection H as <-. exact Hge.
  - destruct (read_next_into s (buf_ptr (sec s))
                (to_slen (buf_end (sec s) - buf_ptr (sec s)))) as [ret s1].
    destruct ((ret <? 0) && (errno s1 =? EINTR)); [apply IH |].
    destruct (ret <=? 0); [discriminate | apply IH].
  - intros H. injection H as <-. exact Hge.
Qed.

Lemma sb_sasl_read_decode_spec (s : state) (out : list byte) (bufptr len : Z) :
  let res := sb_sasl_read_decode sasl_decode s out bufptr len in
  let pkt := firstn (Z.to_nat (buf_end (sec s))) (buf_base (sec s)) in
  let r := sasl_decode (sasl_context (sbiod_pvt s)) pkt in
  calls (snd res) = calls s ++ [Decode pkt (fst (fst r))] /\
  sec (snd res) = sb_sasl_drop_packet (sec s) /\
  sasl_context (sbiod_pvt (snd res)) = snd r /\
  next_wr (snd res) = next_wr s /\
  buf_out (sbiod_pvt (snd res)) = buf_out (sbiod_pvt s) /\
  ((fst (fst r) <> SASL_OK /\ fst (fst res) = -1 /\ errno (snd res) = EIO) \/
   fst (fst r) = SASL_OK).
Proof.
  cbv zeta. unfold sb_sasl_read_decode.
  destruct (sasl_decode (sasl_context (sbiod_pvt s))
              (firstn (Z.to_nat (buf_end (sec s))) (buf_base (sec s))))
    as [[rc plain] ctx].
  cbn [fst snd].
  destruct (Z.eqb_spec rc SASL_OK) as [Hok | Hno]; cbn [negb].
  - destruct (ber_pvt_sb_copy_out _ len) as [[n out2] bin].
    cbn. repeat split. now right.
  - cbn. repeat split. left. repeat split. exact Hno.
Qed.

Lemma sb_sasl_read_body_cases (s : state) (out : list byte) (bufptr len : Z) :
  exists ret out' s',
    sb_sasl_read_body sasl_decode s out bufptr len = Some (ret, out', s') /\
    ((exists rds l,
         calls s' = calls s ++ rds ++ [ReadNext l ret (errno s')] /\
         forallb quiet rds = true /\
         ret <= 0 /\
         passes (ReadNext l ret (errno s')) = false) \/
     (exists rds b,
         let pkt := firstn (Z.to_nat (buf_end b)) (buf_base b) in
         let r := sasl_decode (sasl_context (sbiod_pvt s)) pkt in
         calls s' = calls s ++ rds ++ [Decode pkt (fst (fst r))] /\
         forallb quiet rds = true /\
         buf_end b <= buf_ptr b /\
         sec s' = sb_sasl_drop_packet b /\
         sasl_context (sbiod_pvt s') = snd r /\
         next_wr s' = next_wr s /\
         buf_out (sbiod_pvt s') = buf_out (sbiod_pvt s) /\
         ((fst (fst r) <> SASL_OK /\ ret = -1 /\ errno s' = EIO) \/
          fst (fst r) = SASL_OK))).
Proof.
  unfold sb_sasl_read_body.
  pose proof (read_pkt_body_spec (S (transport_cost (next_rd s))) s
                (Nat.lt_succ_diag_r _)) as Hb.
  pose proof (read_pkt_body_exit (S (transport_cost (next_rd s))) s) as Hx.
  destruct (read_pkt_body (S (transport_cost (next_rd s))) s) as [r1 s1 | s1 |];
    cbn [loop_post] in Hb; [| | contradiction].
  - destruct Hb as (rds & l & Hc & Hp & Hle & Hnp & Hf).
    exists r1, out, s1. split; [reflexivity |]. left.
    exists rds, l. auto using passes_quiet.
  - destruct Hb as (rds & Hc & Hp & Hf).
    specialize (Hx s1 eq_refl).
    pose proof (sb_sasl_read_decode_spec s1 out bufptr len) as Hd.
    cbv zeta in Hd.
    destruct (sb_sasl_read_decode sasl_decode s1 out bufptr len) as [[r2 out2] s2].
    cbn [fst snd] in Hd.
    destruct Hd as (D1 & D2 & D3 & D4 & D5 & D6).
    destruct Hf as (F1 & F2 & F3 & F4 & F5 & F6).
    exists r2, out2, s2. split; [reflexivity |]. right.
    exists rds, (sec s1). cbv zeta. rewrite <- F1.
    rewrite D1, Hc, <- app_assoc.
    repeat split; try assumption; try congruence.
    apply passes_quiet; assumption.
Qed.

(** Every call of [sb_sasl_read] returns, in one of the ways of
    [read_post]. *)
Lemma sb_sasl_read_cases (s : state) (len : Z) :
  exists ret out s' evs,
    sb_sasl_read sasl_decode realloc s len = Some (ret, out, s') /\
    calls s' = calls s ++ evs /\
    read_post sasl_decode s ret s' evs.
Proof.
  unfold sb_sasl_read.
  destruct (ber_pvt_sb_copy_out (buf_in (sbiod_pvt s)) len) as [[ret0 out] bin] eqn:Eco.
  assert (H0 : 0 <= ret0).
  { unfold ber_pvt_sb_copy_out in Eco. injection Eco as <- _ _. lia. }
  destruct (to_len (len - ret0) =? 0).
  { exists ret0, out, (set_in s bin), []. split; [reflexivity |].
    split; [cbn; now rewrite app_nil_r |]. left. split; [reflexivity | exact H0]. }
  set (s0 := set_in s (ber_pvt_sb_buf_destroy bin)).
  pose proof (read_pkt_header_spec (S (transport_cost (next_rd s0))) s0
                (Nat.lt_succ_diag_r _)) as Hh.
  destruct (read_pkt_header (S (transport_cost (next_rd s0))) s0) as [r1 s1 | s1 |];
    cbn [loop_post] in Hh; [| | contradiction].
  { destruct Hh as (rds & l & Hc & Hp & Hle & Hnp & Hf).
    exists r1, out, s1, (rds ++ [ReadNext l r1 (errno s1)]).
    split; [reflexivity |]. split; [exact Hc |].
    right; left. exists rds, l. auto using passes_quiet. }
  destruct Hh as (rds & Hc & Hp & Hf).
  destruct Hf as (F1 & F2 & F3 & F4 & F5 & F6).
  change (calls s0) with (calls s) in Hc.
  change (sasl_context (sbiod_pvt s0)) with (sasl_context (sbiod_pvt s)) in F1.
  change (next_wr s0) with (next_wr s) in F4.
  change (buf_out (sbiod_pvt s0)) with (buf_out (sbiod_pvt s)) in F3.
  set (ret := to_slen (sb_sasl_pkt_length (buf_base (sec s1)))).
  assert (Htail : forall (s2 : state) (g : list call) (b3 : Sockbuf_Buf),
             calls s2 = calls s1 ++ g ->
             forallb quiet g = true ->
             sasl_context (sbiod_pvt s2) = sasl_context (sbiod_pvt s1) ->
             next_wr s2 = next_wr s1 ->
             buf_out (sbiod_pvt s2) = buf_out (sbiod_pvt s1) ->
             exists ret' out' s' evs,
               sb_sasl_read_body sasl_decode (set_sec s2 b3) out ret0
                                 (to_len (len - ret0)) = Some (ret', out', s') /\
               calls s' = calls s ++ evs /\
               read_post sasl_decode s ret' s' evs).
  { intros s2 g b3 G1 G2 G3 G4 G5.
    destruct (sb_sasl_read_body_cases (set_sec s2 b3) out ret0 (to_len (len - ret0)))
      as (ret' & out' & s' & Hrun & Hcase).
    change (calls (set_sec s2 b3)) with (calls s2) in Hcase.
    change (sasl_context (sbiod_pvt (set_sec s2 b3)))
      with (sasl_context (sbiod_pvt s2)) in Hcase.
    change (next_wr (set_sec s2 b3)) with (next_wr s2) in Hcase.
    change (buf_out (sbiod_pvt (set_sec s2 b3)))
      with (buf_out (sbiod_pvt s2)) in Hcase.
    rewrite G1, Hc, G3, G4, G5, F1, F3, F4 in Hcase.
    assert (Hq : forall rds2, forallb quiet rds2 = true ->
                              forallb quiet (rds ++ g ++ rds2) = true).
    { intros rds2 Hq2. rewrite !forallb_app, G2, Hq2, (passes_quiet rds Hp). reflexivity. }
    destruct Hcase as [(rds2 & l & C1 & C2 & C3 & C4) | (rds2 & b & Hcase)].
    - exists ret', out', s', ((rds ++ g ++ rds2) ++ [ReadNext l ret' (errno s')]).
      split; [exact Hrun |].
      split; [rewrite C1; now rewrite <- !app_assoc |].
      right; left. exists (rds ++ g ++ rds2), l. auto.
    - cbv zeta in Hcase.
      destruct Hcase as (C1 & C2 & C3 & C4 & C5 & C6 & C7 & C8).
      eexists ret', out', s', ((rds ++ g ++ rds2) ++ [_]).
      split; [exact Hrun |].
      split; [rewrite C1; now rewrite <- !app_assoc |].
      right; right; right. exists (rds ++ g ++ rds2), b. cbv zeta.
      repeat split; auto. }
  destruct (buf_size (sec s1) <? ret).
  - destruct (ber_pvt_sb_grow_buffer realloc (sec s1) ret) as [b |].
    + apply (Htail (log (set_sec s1 b) (Grow ret true)) [Grow ret true]); reflexivity.
    + exists (-1), out, (set_errno (log s1 (Grow ret false)) ENOMEM),
        (rds ++ [Grow ret false]).
      split; [reflexivity |].
      split; [cbn [calls set_errno log]; rewrite Hc; now rewrite <- app_assoc |].
      right; right; left. exists rds, ret.
      split; [reflexivity |]. split; [apply passes_quiet; exact Hp |].
      split; reflexivity.
  - apply (Htail s1 []); try reflexivity. now rewrite app_nil_r.
Qed.

(** [sb_sasl_read] always returns. *)
Lemma sb_sasl_read_total (s : state) (len : Z) :
  exists r, sb_sasl_read sasl_decode realloc s len = Some r.
Proof.
  destruct (sb_sasl_read_cases s len) as (ret & out & s' & evs & H & _).
  eauto.
Qed.

(** A call that is not [quiet] can only be the last one. *)
Lemma not_quiet_is_last (rds : list call) (y x : call) :
  forall pre post,
    forallb quiet rds = true -> quiet x = false ->
    rds ++ [y] = pre ++ x :: post ->
    post = [] /\ x = y /\ pre = rds.
Proof.
  induction rds as [| a rds IH]; intros pre post Hq Hx Heq.
  - destruct pre as [| p pre]; cbn in Heq.
    + injection Heq as -> <-. auto.
    + injection Heq as _ Heq. destruct pre; discriminate.
  - cbn [forallb] in Hq. apply andb_true_iff in Hq. destruct Hq as [Ha Hq].
    destruct pre as [| p pre]; cbn in Heq.
    + injection Heq as -> _. congruence.
    + injection Heq as -> Heq.
      destruct (IH pre post Hq Hx Heq) as (-> & -> & ->). auto.
Qed.

Lemma quiet_no_decode (rds : list call) :
  forallb quiet rds = true -> filter is_decode rds = [].
Proof.
  intros Hq. apply filter_none. intros c Hc.
  rewrite forallb_forall in Hq. specialize (Hq c Hc).
  destruct c; try reflexivity. discriminate.
Qed.

(** The calls of a failing read.  Every call of [sb_sasl_read]
    returns.  If the decoder was
    handed a packet and rejected it, that decode is the last call the
    read made and the only decode (nothing is retried), the result is -1
    with [errno] set to [EIO], and the staging buffer is what
    [sb_sasl_drop_packet] made of the buffer that held the packet.  If a
    transport read reported end of file or an error other than an
    interrupt, that read is the last call, the result and [errno] are
    the ones the transport reported, and no packet was handed to the
    decoder: the layer sets [EIO] only after a failed decode. *)
Lemma sb_sasl_read_failure_traces (s : state) (len : Z) :
  exists ret out s' evs,
    sb_sasl_read sasl_decode realloc s len = Some (ret, out, s') /\
    calls s' = calls s ++ evs /\
    (forall pkt rc,
        In (Decode pkt rc) evs -> rc <> SASL_OK ->
        ret = -1 /\ errno s' = EIO /\
        exists rds b,
          evs = rds ++ [Decode pkt rc] /\
          filter is_decode rds = [] /\
          rc = fst (fst (sasl_decode (sasl_context (sbiod_pvt s)) pkt)) /\
          pkt = firstn (Z.to_nat (buf_end b)) (buf_base b) /\
          buf_end b <= buf_ptr b /\
          sec s' = sb_sasl_drop_packet b) /\
    (forall pre l r e post,
        evs = pre ++ ReadNext l r e :: post ->
        r <= 0 -> ~ (r < 0 /\ e = EINTR) ->
        post = [] /\ ret = r /\ errno s' = e /\ filter is_decode evs = []).
Proof.
  destruct (sb_sasl_read_cases s len) as (ret & out & s' & evs & Hrun & Hc & Hpost).
  exists ret, out, s', evs. split; [exact Hrun |]. split; [exact Hc |].
  assert (Hnq : forall l r e, r <= 0 -> ~ (r < 0 /\ e = EINTR) ->
                              quiet (ReadNext l r e) = false).
  { intros l r e Hr Hi. cbn [quiet passes].
    destruct (Z.ltb_spec 0 r); [lia |]. cbn [orb].
    destruct (Z.ltb_spec r 0); [| reflexivity].
    destruct (Z.eqb_spec e EINTR); [| reflexivity]. exfalso. apply Hi. auto. }
  split.
  - intros pkt rc Hin Hrc.
    apply in_split in Hin. destruct Hin as (pre & post & Heq).
    destruct Hpost as [[-> _] | [(rds & l & E & Hq & _) | [(rds & m & E & Hq & _) |
                       (rds & b & Hd)]]].
    + destruct pre; discriminate.
    + rewrite E in Heq.
      destruct (not_quiet_is_last rds _ (Decode pkt rc) pre post Hq eq_refl Heq)
        as (_ & Hx & _). discriminate.
    + rewrite E in Heq.
      destruct (not_quiet_is_last rds _ (Decode pkt rc) pre post Hq eq_refl Heq)
        as (_ & Hx & _). discriminate.
    + cbv zeta in Hd. destruct Hd as (E & Hq & D1 & D2 & D3 & D4 & D5 & D6).
      rewrite E in Heq.
      destruct (not_quiet_is_last rds _ (Decode pkt rc) pre post Hq eq_refl Heq)
        as (_ & Hx & _).
      injection Hx as Hpkt Hrceq.
      destruct D6 as [(N1 & N2 & N3) | Hok]; [| congruence].
      split; [exact N2 |]. split; [exact N3 |].
      subst pkt rc. exists rds, b.
      repeat split; auto using quiet_no_decode.
  - intros pre l r e post Heq Hr Hi.
    specialize (Hnq l r e Hr Hi).
    destruct Hpost as [[-> _] | [(rds & l' & E & Hq & _) | [(rds & m & E & Hq & _) |
                       (rds & b & Hd)]]].
    + destruct pre; discriminate.
    + rewrite E in Heq.
      destruct (not_quiet_is_last rds _ _ pre post Hq Hnq Heq) as (-> & Hx & ->).
      injection Hx as -> -> ->.
      repeat split. rewrite E, filter_app, (quiet_no_decode rds Hq). reflexivity.
    + rewrite E in Heq.
      destruct (not_quiet_is_last rds _ _ pre post Hq Hnq Heq) as (_ & Hx & _).
      discriminate.
    + cbv zeta in Hd. destruct Hd as (E & Hq & _).
      rewrite E in Heq.
      destruct (not_quiet_is_last rds _ _ pre post Hq Hnq Heq) as (_ & Hx & _).
      discriminate.
Qed.

End Read.

(** ** C2: a header that announces more than the ceiling *)

(** Runs of [sb_sasl_read] on a stream whose header announces
    10,000,000 bytes. *)
Example read_huge_rejected :
  run_read reject_all [RdData (huge_header ++ sixteen_bytes)] 100 =
  Some (-1, [], EIO,
        [ReadNext 4 4 0; ReadNext 16 16 0;
         Decode (huge_header ++ sixteen_bytes) SASL_FAIL], 4096).
Proof. vm_compute. reflexivity. Qed.

Example fresh_layer_is_sample (t : transport) :
  fresh_layer t = Some (sample_reader t).
Proof. reflexivity. Qed.


(** The header loop stores every piece at offset 0: a header that
    arrives in two reads is not the header the length is computed
    from.  Here 00 01 00 01 (65537, above the ceiling) arrives as two
    pairs; the staging block then starts 00 01 00 00, and the layer asks
    the transport for a frame of 65540 bytes. *)
Example read_split_header :
  run_read reject_all [RdData [x00; x01]; RdData [x00; x01]; RdEof] 100 =
  Some (0, [], 0, [ReadNext 4 2 0; ReadNext 2 2 0; Grow 65540 true;
                   ReadNext 65536 0 0], 65540).
Proof. vm_compute. reflexivity. Qed.


Lemma sb_sasl_drop_packet_exact (b : Sockbuf_Buf) :
  buf_ptr b = buf_end b ->
  sb_sasl_drop_packet b = mkBuf (buf_base b) 0 0 (buf_size b).
Proof.
  intros H. unfold sb_sasl_drop_packet. rewrite H, Z.sub_diag. reflexivity.
Qed.


Section ReadBounded.

Context {Ctx Wr : Type}.
Variable sasl_decode : Ctx -> list byte -> Z * list byte * Ctx.
Variable realloc : Z -> option Z.

Local Abbreviation state := (Sockbuf_IO_Desc Ctx Wr).

Lemma read_pkt_header_done (fuel : nat) (s : state) :
  4 <= buf_ptr (sec s) -> read_pkt_header fuel s = Continue s.
Proof.
  intros H. destruct fuel; cbn [read_pkt_header];
    destruct (Z.ltb_spec (buf_ptr (sec s)) 4); try lia; reflexivity.
Qed.





End ReadBounded.


(** Runs of [sb_sasl_read] on the fresh layer.  A six-byte packet that
    the decoder rejects: -1 with [EIO], one decode, nothing after it.  A
    transport error after the header: the transport's -1 and its
    [errno] (104), no decode.  An interrupted read is issued again. *)
Example read_rejected_packet :
  run_read reject_all [RdData [x00; x00; x00; x02; x0a; x0b]] 100 =
  Some (-1, [], EIO,
        [ReadNext 4 4 0; ReadNext 2 2 0;
         Decode [x00; x00; x00; x02; x0a; x0b] SASL_FAIL], 4096).
Proof. vm_compute. reflexivity. Qed.

Example read_transport_error :
  run_read reject_all [RdData [x00; x00; x00; x02]; RdFail 1 104] 100 =
  Some (-1, [], 104, [ReadNext 4 4 0; ReadNext 2 (-1) 104], 4096).
Proof. vm_compute. reflexivity. Qed.

Example read_interrupted_then_served :
  run_read accept_all
           [RdFail 1 EINTR; RdData [x00; x00; x00; x02]; RdFail 1 EINTR;
            RdData [x0a; x0b]] 100 =
  Some (2, [x0a; x0b], EINTR,
        [ReadNext 4 (-1) EINTR; ReadNext 4 4 EINTR; ReadNext 2 (-1) EINTR;
         ReadNext 2 2 EINTR; Decode [x00; x00; x00; x02; x0a; x0b] SASL_OK], 4096).
Proof. vm_compute. reflexivity. Qed.

(** * Properties of the remaining functions *)

(** ** [array2str] *)

Lemma string_append_assoc (a b c : string) :
  ((a ++ b) ++ c = a ++ (b ++ c))%string.
Proof. induction a as [| x a IH]; cbn; [reflexivity | now rewrite IH]. Qed.

Lemma string_append_nil_r (a : string) : (a ++ "" = a)%string.
Proof. induction a as [| x a IH]; cbn; [reflexivity | now rewrite IH]. Qed.

Lemma string_length_append (a b : string) :
  String.length (a ++ b) = (String.length a + String.length b)%nat.
Proof. induction a as [| x a IH]; cbn; [reflexivity | now rewrite IH]. Qed.

Lemma array2str_copy_acc (a : list string) :
  forall (at_start : bool) (s : string),
    array2str_copy a at_start s = (s ++ array2str_copy a at_start "")%string.
Proof.
  induction a as [| v a IH]; intros at_start s; cbn [array2str_copy].
  - now rewrite string_append_nil_r.
  - rewrite IH. rewrite (IH false ((if at_start then "" else "" ++ " ") ++ v)%string).
    destruct at_start; rewrite ?string_append_assoc; reflexivity.
Qed.

Lemma array2str_copy_rest (a : list string) :
  a <> [] ->
  array2str_copy a false "" = (" " ++ String.concat " " a)%string.
Proof.
  induction a as [| v a IH]; intros Hne; [contradiction |].
  cbn [array2str_copy]. rewrite array2str_copy_acc.
  destruct a as [| w a].
  - cbn. now rewrite string_append_nil_r.
  - rewrite IH by discriminate.
    change (String.concat " " (v :: w :: a))
      with (v ++ " " ++ String.concat " " (w :: a))%string.
    cbn [String.append]. reflexivity.
Qed.

Lemma array2str_copy_join (a : list string) :
  array2str_copy a true "" = String.concat " " a.
Proof.
  destruct a as [| v a]; [reflexivity |].
  cbn [array2str_copy]. rewrite array2str_copy_acc.
  destruct a as [| w a].
  - cbn. now rewrite string_append_nil_r.
  - rewrite array2str_copy_rest by discriminate. reflexivity.
Qed.

Lemma array2str_copy_length (a : list string) :
  forall s : string,
    Z.of_nat (String.length (array2str_copy a false s)) =
    Z.of_nat (String.length s) + array2str_len a.
Proof.
  induction a as [| v a IH]; intros s; cbn [array2str_copy array2str_len]; [lia |].
  rewrite IH, !string_length_append. cbn [String.length]. lia.
Qed.

Lemma array2str_len_pos (a : list string) : a <> [] -> 0 < array2str_len a.
Proof.
  destruct a as [| v a]; [contradiction |]. intros _. cbn [array2str_len].
  assert (0 <= array2str_len a) by (induction a; cbn [array2str_len]; lia).
  lia.
Qed.

(** X1.  [array2str] returns null exactly for an empty array or a failed
    allocation; otherwise the string it builds is the entries joined by
    single spaces, and with its terminator it fills the [len] bytes that
    were allocated exactly: the copy loop never writes past the block. *)
Theorem array2str_joins (malloc_ok : bool) (a : list string) :
  array2str malloc_ok a =
  (if malloc_ok
   then match a with [] => None | _ :: _ => Some (String.concat " " a) end
   else None) /\
  (forall s, array2str malloc_ok a = Some s ->
             Z.of_nat (String.length s) + 1 = array2str_len a).
Proof.
  unfold array2str.
  destruct a as [| v a].
  - cbn. destruct malloc_ok; split; try reflexivity; discriminate.
  - pose proof (array2str_len_pos (v :: a) ltac:(discriminate)) as Hpos.
    destruct (Z.eqb_spec (array2str_len (v :: a)) 0) as [H0 | _]; [lia |].
    destruct malloc_ok; cbn [negb]; split; try reflexivity; try discriminate.
    + now rewrite array2str_copy_join.
    + intros s Hs. injection Hs as <-.
      cbn [array2str_copy array2str_len].
      rewrite array2str_copy_length. cbn [String.append]. lia.
Qed.

(** ** [ldap_pvt_sasl_getmechs] *)

(** X2.  Whenever [ldap_pvt_sasl_getmechs] stores a mechanism list, it
    returns [LDAP_SUCCESS], the search succeeded and found an entry, the
    attribute had at least one value, and the list is those values
    joined by single spaces; [ld_errno] is what the search left. *)
Theorem ldap_pvt_sasl_getmechs_list (ld : LDAP) (o : mech_search) (mechlist : string) :
  snd (ldap_pvt_sasl_getmechs ld o) = Some mechlist ->
  fst (fst (ldap_pvt_sasl_getmechs ld o)) = LDAP_SUCCESS /\
  fst (ms_search o) = LDAP_SUCCESS /\
  ms_entry o = true /\
  ld_errno (snd (fst (ldap_pvt_sasl_getmechs ld o))) = snd (ms_search o) /\
  exists values,
    ms_values o = Some values /\ values <> [] /\
    mechlist = String.concat " " values.
Proof.
  unfold ldap_pvt_sasl_getmechs.
  destruct (ms_search o) as [rc e]. cbn [fst snd].
  destruct (Z.eqb_spec rc LDAP_SUCCESS) as [Hrc | Hrc]; cbn [negb]; [| discriminate].
  destruct (ms_entry o); cbn [negb]; [| discriminate].
  destruct (ms_values o) as [values |]; [| discriminate].
  destruct (array2str (ms_malloc o) values) as [m |] eqn:E; [| discriminate].
  cbn [fst snd]. intros H. injection H as <-.
  repeat split; try assumption.
  exists values. split; [reflexivity |].
  unfold array2str in E.
  destruct (Z.eqb_spec (array2str_len values) 0) as [Hz | Hz]; [discriminate |].
  destruct (ms_malloc o); cbn [negb] in E; [| discriminate].
  injection E as <-.
  split; [intros ->; apply Hz; reflexivity |].
  apply array2str_copy_join.
Qed.

(** [ldap_pvt_sasl_getmechs_list] on a server that offers two
    mechanisms. *)
Lemma ldap_pvt_sasl_getmechs_list_witness :
  let o := mkSearch (LDAP_SUCCESS, LDAP_SUCCESS) true
                    (Some ["GSSAPI"%string; "DIGEST-MD5"%string]) true in
  snd (ldap_pvt_sasl_getmechs sample_ld o) = Some "GSSAPI DIGEST-MD5"%string /\
  fst (fst (ldap_pvt_sasl_getmechs sample_ld o)) = LDAP_SUCCESS.
Proof.
  intros o.
  assert (H : snd (ldap_pvt_sasl_getmechs sample_ld o) = Some "GSSAPI DIGEST-MD5"%string)
    by reflexivity.
  split; [exact H |].
  exact (proj1 (ldap_pvt_sasl_getmechs_list sample_ld o _ H)).
Defined.

(** X3.  When the search succeeds and finds an entry,
    [ldap_pvt_sasl_getmechs] reports [LDAP_NO_MEMORY] exactly when the
    mechanism attribute is present and either the allocation of the
    list fails or the attribute has no value: [array2str] answers an
    empty array with null, which is taken for a failed allocation even
    when memory is available.  A list is stored exactly when the code
    returned is [LDAP_SUCCESS]. *)
Theorem ldap_pvt_sasl_getmechs_no_values (ld : LDAP) (o : mech_search) :
  fst (ms_search o) = LDAP_SUCCESS ->
  ms_entry o = true ->
  let r := ldap_pvt_sasl_getmechs ld o in
  (fst (fst r) = LDAP_NO_MEMORY <->
   exists values, ms_values o = Some values /\ (values = [] \/ ms_malloc o = false)) /\
  (fst (fst r) = LDAP_NO_MEMORY -> ld_errno (snd (fst r)) = LDAP_NO_MEMORY) /\
  (snd r = None <-> fst (fst r) <> LDAP_SUCCESS).
Proof.
  intros Hs He. unfold ldap_pvt_sasl_getmechs.
  destruct (ms_search o) as [rc e]. cbn [fst] in Hs. subst rc.
  change (negb (LDAP_SUCCESS =? LDAP_SUCCESS)) with false. cbv iota.
  rewrite He. cbn [negb].
  destruct (ms_values o) as [values |].
  - unfold array2str.
    destruct (Z.eqb_spec (array2str_len values) 0) as [Hz | Hz].
    + cbn [fst snd set_ld_errno ld_errno].
      split; [| split].
      * split; [intros _ | reflexivity].
        exists values. split; [reflexivity |]. left.
        destruct values as [| v values]; [reflexivity |].
        pose proof (array2str_len_pos (v :: values) ltac:(discriminate)). lia.
      * reflexivity.
      * split; [discriminate | reflexivity].
    + destruct (ms_malloc o); cbn [negb fst snd set_ld_errno ld_errno].
      * split; [| split].
        -- split; [discriminate |].
           intros (vs & Hv & [-> | Hm]); [| discriminate Hm].
           injection Hv as ->. contradiction Hz. reflexivity.
        -- discriminate.
        -- split; [discriminate | intros H; contradiction H; reflexivity].
      * split; [| split].
        -- split; [intros _; exists values; auto | reflexivity].
        -- reflexivity.
        -- split; [discriminate | reflexivity].
  - cbn [fst snd set_ld_errno ld_errno].
    split; [| split].
    + split; [discriminate | intros (vs & Hv & _); discriminate Hv].
    + discriminate.
    + split; [discriminate | reflexivity].
Qed.

(** [ldap_pvt_sasl_getmechs_no_values] on an entry whose attribute has
    no value, with memory available. *)
Lemma ldap_pvt_sasl_getmechs_no_values_witness :
  let o := mkSearch (LDAP_SUCCESS, LDAP_SUCCESS) true (Some []) true in
  fst (fst (ldap_pvt_sasl_getmechs sample_ld o)) = LDAP_NO_MEMORY /\
  snd (ldap_pvt_sasl_getmechs sample_ld o) = None.
Proof.
  cbv zeta.
  destruct (ldap_pvt_sasl_getmechs_no_values sample_ld
              (mkSearch (LDAP_SUCCESS, LDAP_SUCCESS) true (Some []) true)
              eq_refl eq_refl) as (Hmem & _ & Hnone).
  assert (H : fst (fst (ldap_pvt_sasl_getmechs sample_ld
                          (mkSearch (LDAP_SUCCESS, LDAP_SUCCESS) true (Some []) true))) =
              LDAP_NO_MEMORY).
  { apply Hmem. exists []. split; [reflexivity | left; reflexivity]. }
  split; [exact H |].
  apply Hnone. rewrite H. discriminate.
Defined.

(** ** The SASL options *)

(** X4.  Setting then getting an option.  When
    [ldap_pvt_sasl_set_option] returns 0, the option was one of the two
    bounds, a get of the same option returns the value just set, and a
    get of any other option returns what it returned before.  When it
    returns -1 (null handle, the read-only actual strength, an unknown
    option) the handle is left as it was. *)
Theorem ldap_pvt_sasl_set_then_get (ld : option LDAP_sasl) (opt : sasl_option) (v : Z) :
  let r := ldap_pvt_sasl_set_option ld opt v in
  (fst r = 0 /\
   (opt = LDAP_OPT_X_SASL_MINSSF \/ opt = LDAP_OPT_X_SASL_MAXSSF) /\
   ldap_pvt_sasl_get_option (snd r) opt = (0, Some v) /\
   (forall other, other <> opt ->
                  ldap_pvt_sasl_get_option (snd r) other =
                  ldap_pvt_sasl_get_option ld other)) \/
  (fst r = -1 /\ snd r = ld).
Proof.
  cbv zeta. destruct ld as [l |]; [| right; split; reflexivity].
  destruct opt; cbn [ldap_pvt_sasl_set_option fst snd].
  - left. repeat split; auto.
    intros other Hne. destruct other; try reflexivity. contradiction.
  - left. repeat split; auto.
    intros other Hne. destruct other; try reflexivity. contradiction.
  - right. split; reflexivity.
  - right. split; reflexivity.
Qed.

(** ** The callback table *)

(** X5.  The callback table [ldap_negotiated_sasl_bind_s] builds always
    fits its four-entry array ([n] is at most 3, so the closing
    assertion holds), has [n + 1] entries, ends with the
    [SASL_CB_LIST_END] entry and has no terminator before it; its ids
    are pairwise different; it starts with the authentication-name
    entry, and it carries a user (authorization) entry exactly when an
    authorization identity was given. *)
Theorem negotiated_callbacks_table (authenticationId authorizationId : option string)
    (passPhrase : option berval) :
  let cbs := fst (negotiated_callbacks authenticationId authorizationId passPhrase) in
  let n := snd (negotiated_callbacks authenticationId authorizationId passPhrase) in
  Z.of_nat (length cbs) = n + 1 /\
  n < 4 /\
  (exists front,
      cbs = front ++ [mkCallback SASL_CB_LIST_END proc_null ContextNull] /\
      forall cb, In cb front -> cb_id cb <> SASL_CB_LIST_END /\ cb_proc cb <> proc_null) /\
  NoDup (map cb_id cbs) /\
  hd_error cbs =
    Some (mkCallback SASL_CB_AUTHNAME proc_getsimple (ContextString authenticationId)) /\
  (In SASL_CB_USER (map cb_id cbs) <-> authorizationId <> None).
Proof.
  cbv zeta. unfold negotiated_callbacks.
  destruct authorizationId as [z |]; cbn [fst snd app length map hd_error].
  - split; [reflexivity |]. split; [reflexivity |]. split.
    { eexists [_; _; _]. split; [reflexivity |].
      intros cb [<- | [<- | [<- | []]]]; split; discriminate. }
    split.
    { repeat constructor; cbn; intuition discriminate. }
    split; [reflexivity |].
    split; [discriminate | intros _; cbn; auto].
  - split; [reflexivity |]. split; [reflexivity |]. split.
    { eexists [_; _]. split; [reflexivity |].
      intros cb [<- | [<- | []]]; split; discriminate. }
    split.
    { repeat constructor; cbn; intuition discriminate. }
    split; [reflexivity |].
    split; [| intros H; now contradiction H].
    cbn. intuition discriminate.
Qed.

(** X6.  Every entry of the table answers the request it is registered
    for.  Called with its own id, the authentication-name entry returns
    [SASL_OK] with the authentication identity, the user entry
    [SASL_OK] with the authorization identity, and (for a passphrase
    that is present and an allocation that succeeds) the passphrase
    entry [SASL_OK] with a secret holding the passphrase bytes. *)
Theorem negotiated_callbacks_answer (authenticationId authorizationId : option string)
    (p : berval) (cb : sasl_callback_t) :
  In cb (fst (negotiated_callbacks authenticationId authorizationId (Some p))) ->
  cb_id cb <> SASL_CB_LIST_END ->
  (cb_id cb = SASL_CB_AUTHNAME /\
   invoke_callback cb (cb_id cb) true = Done (SASL_OK, Some authenticationId, None)) \/
  (cb_id cb = SASL_CB_USER /\ authorizationId <> None /\
   invoke_callback cb (cb_id cb) true = Done (SASL_OK, Some authorizationId, None)) \/
  (cb_id cb = SASL_CB_PASS /\
   invoke_callback cb (cb_id cb) true =
   Done (SASL_OK, None,
         Some (mkSecret (bv_len p) (firstn (Z.to_nat (bv_len p)) (bv_val p)) (bv_len p)))).
Proof.
  unfold negotiated_callbacks.
  destruct authorizationId as [z |]; cbn [fst snd app];
    intros Hin Hend.
  - destruct Hin as [<- | [<- | [<- | [<- | []]]]].
    + left. split; reflexivity.
    + right; left. split; [reflexivity |]. split; [discriminate | reflexivity].
    + right; right. split; reflexivity.
    + contradiction Hend. reflexivity.
  - destruct Hin as [<- | [<- | [<- | []]]].
    + left. split; reflexivity.
    + right; right. split; reflexivity.
    + contradiction Hend. reflexivity.
Qed.

(** [negotiated_callbacks_answer] on the user entry of a table built
    with an authorization identity. *)
Lemma negotiated_callbacks_answer_witness :
  let cb := mkCallback SASL_CB_USER proc_getsimple (ContextString (Some "dn:cn=user"%string)) in
  In cb (fst (negotiated_callbacks (Some "manager"%string) (Some "dn:cn=user"%string)
                                   (Some (mkBerval 6 [x73; x65; x63; x72; x65; x74])))) /\
  invoke_callback cb (cb_id cb) true =
  Done (SASL_OK, Some (Some "dn:cn=user"%string), None).
Proof.
  intros cb.
  assert (Hin : In cb (fst (negotiated_callbacks (Some "manager"%string)
                              (Some "dn:cn=user"%string)
                              (Some (mkBerval 6 [x73; x65; x63; x72; x65; x74])))))
    by (cbn; auto).
  assert (Hid : cb_id cb <> SASL_CB_LIST_END) by discriminate.
  split; [exact Hin |].
  destruct (negotiated_callbacks_answer _ _ _ cb Hin Hid)
    as [[H _] | [(_ & _ & H) | [H _]]]; [discriminate | exact H | discriminate].
Defined.

(** ** [ldap_pvt_sasl_init] *)

Lemma sasl_init_calls_initialized (answers : list bool) :
  sasl_init_calls true answers = (repeat 0 (length answers), true, O).
Proof.
  induction answers as [| a answers IH]; [reflexivity |].
  cbn [sasl_init_calls ldap_pvt_sasl_init]. rewrite IH. reflexivity.
Qed.

(** X7.  Over any sequence of calls of [ldap_pvt_sasl_init], the
    provider's [sasl_client_init] is called once per call until it
    first succeeds and never again: every call up to that point
    returns -1, that call and all later ones return 0.  If it never
    succeeds, every call tries again and returns -1. *)
Theorem ldap_pvt_sasl_init_once (k : nat) (later : list bool) :
  sasl_init_calls false (repeat false k ++ true :: later) =
  (repeat (-1) k ++ repeat 0 (S (length later)), true, S k) /\
  sasl_init_calls false (repeat false k) = (repeat (-1) k, false, k).
Proof.
  induction k as [| k [IH1 IH2]].
  - cbn [repeat app sasl_init_calls ldap_pvt_sasl_init].
    rewrite sasl_init_calls_initialized. split; reflexivity.
  - cbn [repeat app sasl_init_calls ldap_pvt_sasl_init].
    rewrite IH1, IH2. split; reflexivity.
Qed.

(** ** The negotiation driver *)

(** X8.  A provider status that the callers treat as a failure (neither
    [SASL_OK] nor [SASL_CONTINUE]) is mapped by [sasl_err2ldap] to one
    of four client-library error codes, never to [LDAP_SUCCESS] and
    never to "more results to return". *)
Theorem sasl_err2ldap_failed (saslrc : Z) :
  sasl_failed saslrc = true ->
  In (sasl_err2ldap saslrc)
     [LDAP_LOCAL_ERROR; LDAP_NO_MEMORY; LDAP_AUTH_UNKNOWN; LDAP_PARAM_ERROR] /\
  sasl_err2ldap saslrc <> LDAP_SUCCESS /\
  sasl_err2ldap saslrc <> LDAP_MORE_RESULTS_TO_RETURN /\
  LDAP_API_ERROR (sasl_err2ldap saslrc) = true.
Proof.
  unfold sasl_failed, sasl_err2ldap. intros H.
  apply andb_true_iff in H. destruct H as [H1 H2].
  apply negb_true_iff in H1. apply negb_true_iff in H2.
  rewrite H1, H2.
  split_eqb; cbn [orb]; repeat split; cbn; try discriminate; tauto.
Qed.

(** [sasl_err2ldap_failed] on [SASL_BADAUTH]. *)
Lemma sasl_err2ldap_failed_witness :
  sasl_failed SASL_BADAUTH = true /\
  sasl_err2ldap SASL_BADAUTH <> LDAP_SUCCESS /\
  LDAP_API_ERROR (sasl_err2ldap SASL_BADAUTH) = true.
Proof.
  assert (H : sasl_failed SASL_BADAUTH = true) by reflexivity.
  split; [exact H |].
  destruct (sasl_err2ldap_failed SASL_BADAUTH H) as (_ & H1 & _ & H2).
  split; assumption.
Defined.

Lemma frees_of_ccred (c : ccred_t) :
  free_ccred c = frees_of (ccred_berval c) (ccred_held c).
Proof. destruct c as [[b |] l]; reflexivity. Qed.

(** The loop of [ldap_pvt_sasl_bind]: what it adds to the calls is a
    sequence of rounds; leaving the loop means the last bind was
    accepted, a [return] inside it means the context was disposed. *)
Lemma bind_loop_rounds (binds : list bind_reply) :
  forall (steps : list provider_reply) (mech : string) (ld : LDAP)
         (ccred : ccred_t) (tr : list bind_event) r,
    bind_loop binds steps mech ld ccred tr = Some r ->
    match r with
    | inr (rc, ld', tr') =>
        rc = LDAP_SUCCESS /\
        ld_sasl_context ld' = ld_sasl_context ld /\
        exists rs, tr' = tr ++ rs /\ rounds true rs
    | inl (rc, ld', tr') =>
        rc = ld_errno ld' /\
        ld_sasl_context ld' = None /\
        exists rs, tr' = tr ++ rs /\ rounds false rs
    end.
Proof.
  induction binds as [| b binds IH]; intros steps mech ld ccred tr r Hrun;
    cbn [bind_loop] in Hrun; [discriminate |].
  destruct (Z.eqb_spec (br_rc b) LDAP_SUCCESS) as [Hs | Hs].
  { injection Hrun as <-. split; [exact Hs |]. split; [reflexivity |].
    eexists. split; [reflexivity |]. constructor. }
  destruct (br_rc b =? LDAP_SASL_BIND_IN_PROGRESS); cbn [negb] in Hrun.
  2: { injection Hrun as <-. split; [reflexivity |]. split; [reflexivity |].
       eexists. split; [rewrite <- app_assoc; reflexivity |].
       rewrite frees_of_ccred. cbn [app]. constructor. }
  destruct steps as [| p steps]; [discriminate |].
  destruct (sasl_failed (pr_rc p)).
  { injection Hrun as <-. split; [reflexivity |]. split; [reflexivity |].
    eexists. split; [rewrite <- !app_assoc; reflexivity |].
    rewrite frees_of_ccred. cbn [app]. constructor. }
  specialize (IH _ _ _ _ _ _ Hrun).
  destruct r as [[[rc ld'] tr'] | [[rc ld'] tr']].
  - destruct IH as (H1 & H2 & rs & H3 & H4).
    split; [exact H1 |]. split; [exact H2 |].
    eexists. split; [rewrite H3, <- !app_assoc; reflexivity |].
    rewrite frees_of_ccred. cbn [app]. constructor. exact H4.
  - destruct IH as (H1 & H2 & rs & H3 & H4).
    split; [exact H1 |]. split; [exact H2 |].
    eexists. split; [rewrite H3, <- !app_assoc; reflexivity |].
    rewrite frees_of_ccred. cbn [app]. constructor. exact H4.
Qed.

(** The ways [ldap_pvt_sasl_bind] ends: before the negotiation, with a
    failed [sasl_client_start], with rounds that end in a disposal, or
    with rounds that end in an accepted bind followed by the install
    step. *)
Lemma ldap_pvt_sasl_bind_shape (ld : LDAP) (mechs : string) (env : bind_env)
    (rc : Z) (ld' : LDAP) (tr : list bind_event) :
  ldap_pvt_sasl_bind ld mechs env = Some (rc, ld', tr) ->
  forallb is_setup tr = true \/
  (exists pre conn,
      tr = pre ++ [EvClientStart mechs; EvDispose (Some conn)] /\
      forallb is_setup pre = true /\
      ld_sasl_context ld' = None /\
      rc = sasl_err2ldap (pr_rc (fst (e_start env))) /\
      sasl_failed (pr_rc (fst (e_start env))) = true) \/
  (exists pre rs,
      tr = pre ++ EvClientStart mechs :: rs /\
      forallb is_setup pre = true /\
      rounds false rs /\
      ld_sasl_context ld' = None /\
      rc = ld_errno ld') \/
  (exists pre rs conn,
      tr = pre ++ EvClientStart mechs :: rs ++ install_of (e_ssf env) (Some conn) /\
      forallb is_setup pre = true /\
      rounds true rs /\
      ld_sasl_context ld' = Some conn /\
      rc = LDAP_SUCCESS).
Proof.
  unfold ldap_pvt_sasl_bind.
  destruct (ld_version ld <? LDAP_VERSION3).
  { intros H. injection H as <- <- <-. now left. }
  set (opened := if e_sd_valid env then _ else _).
  assert (Hopen : match opened with
                  | inl _ => True
                  | inr l => ld_sasl_context l = ld_sasl_context ld
                  end).
  { subst opened. destruct (e_sd_valid env); [reflexivity |].
    destruct (e_open_defconn env) as [r e]. destruct (r <? 0); [exact I | reflexivity]. }
  destruct opened as [l | l].
  { intros H. injection H as <- <- <-. now left. }
  destruct (e_host env) as [host |].
  2: { intros H. injection H as <- <- <-. now left. }
  destruct (e_client_new env) as [saslrc conn].
  set (pre0 := match ld_sasl_context l with
               | Some c => [EvDispose (Some c)]
               | None => []
               end ++ [EvClientNew host]).
  assert (Hpre0 : forallb is_setup pre0 = true)
    by (subst pre0; destruct (ld_sasl_context l); reflexivity).
  destruct (sasl_failed saslrc).
  { intros H. injection H as <- <- <-. left.
    rewrite forallb_app, Hpre0. reflexivity. }
  destruct (e_getpeername env); cbn [negb].
  2: { intros H. injection H as <- <- <-. now left. }
  destruct (e_getsockname env); cbn [negb].
  2: { intros H. injection H as <- <- <-. left.
       rewrite forallb_app, Hpre0. reflexivity. }
  destruct (e_start env) as [p mech]. cbn [fst].
  set (pre := (pre0 ++ [EvSetProp "SASL_IP_REMOTE"]) ++
              [EvSetProp "SASL_IP_LOCAL"; EvSetProp "SASL_SEC_PROPS"]).
  assert (Hpre : forallb is_setup pre = true)
    by (subst pre; rewrite !forallb_app, Hpre0; reflexivity).
  destruct (sasl_failed (pr_rc p)) eqn:Ef.
  { intros H. injection H as <- <- <-. right; left.
    exists pre, conn. rewrite <- app_assoc. repeat split. exact Hpre. }
  destruct (bind_loop (e_binds env) (e_steps env) mech
              (set_ld_context l (Some conn)) (pr_out p, pr_outlen p)
              (pre ++ [EvClientStart mechs])) as [r |] eqn:El; [| discriminate].
  pose proof (bind_loop_rounds _ _ _ _ _ _ _ El) as Hr.
  destruct r as [[[rc0 ld0] tr0] | [[rc0 ld0] tr0]].
  - intros H. injection H as <- <- <-.
    destruct Hr as (H1 & H2 & rs & H3 & H4).
    right; right; left. exists pre, rs.
    rewrite H3, <- app_assoc. repeat split; assumption.
  - intros H. injection H as <- <- <-.
    destruct Hr as (H1 & H2 & rs & H3 & H4).
    right; right; right. exists pre, rs, conn.
    split.
    { rewrite H3, H2. cbn [set_ld_context ld_sasl_context]. unfold install_of.
      destruct (e_ssf env) as [v |]; [destruct (v =? 0) |]; cbn [negb];
        rewrite <- ?app_assoc, ?app_nil_r; reflexivity. }
    repeat split; assumption.
Qed.

Lemma rounds_events (ok : bool) (rs : list bind_event) :
  rounds ok rs ->
  forall e, In e rs ->
            is_install e = false /\
            (forall m, e <> EvClientStart m) /\
            (is_dispose e = true -> ok = false).
Proof.
  assert (Hf : forall c h e, In e (frees_of c h) ->
                             is_install e = false /\
                             (forall m, e <> EvClientStart m) /\ is_dispose e = false).
  { intros c [|] e He; cbn in He; [| contradiction].
    destruct He as [<- | []]. repeat split. discriminate. }
  induction 1 as [m c h | m c h conn | m c h s conn | ok m c h s tr Hr IH];
    intros e He.
  - destruct He as [<- | []]. repeat split; discriminate.
  - destruct He as [<- | He]; [repeat split; discriminate |].
    apply in_app_or in He. destruct He as [He | [<- | []]].
    + destruct (Hf _ _ _ He) as (A & B & C). repeat split; auto.
    + repeat split. discriminate.
  - destruct He as [<- | He]; [repeat split; discriminate |].
    apply in_app_or in He.
    destruct He as [He | [<- | [<- | [<- | []]]]];
      try (repeat split; discriminate).
    destruct (Hf _ _ _ He) as (A & B & C). repeat split; auto.
  - destruct He as [<- | He]; [repeat split; discriminate |].
    apply in_app_or in He.
    destruct He as [He | [<- | [<- | He]]];
      try (repeat split; discriminate).
    + destruct (Hf _ _ _ He) as (A & B & C). repeat split; auto.
      rewrite C. discriminate.
    + apply IH. exact He.
Qed.

Lemma rounds_false_last (rs : list bind_event) :
  rounds false rs -> exists rs0 conn, rs = rs0 ++ [EvDispose conn].
Proof.
  remember false as ok eqn:Hok. induction 1 as [m c h | m c h conn | m c h s conn | ok m c h s tr Hr IH].
  - discriminate.
  - exists (EvBind m c h :: frees_of c h), conn. reflexivity.
  - exists (EvBind m c h :: frees_of c h ++ [EvClientStep s; EvFreeScred s]), conn.
    cbn [app]. rewrite <- app_assoc. reflexivity.
  - destruct (IH Hok) as (rs0 & conn & ->).
    exists (EvBind m c h :: frees_of c h ++ EvClientStep s :: EvFreeScred s :: rs0), conn.
    cbn [app]. rewrite <- app_assoc. reflexivity.
Qed.

Lemma setup_events (pre : list bind_event) :
  forallb is_setup pre = true ->
  forall e, In e pre -> is_install e = false /\ (forall m, e <> EvClientStart m).
Proof.
  intros H e He. rewrite forallb_forall in H. specialize (H e He).
  destruct e; try discriminate; repeat split; discriminate.
Qed.

(** X9.  Once [ldap_pvt_sasl_bind] has called [sasl_client_start], what
    follows is either the disposal of the context (the start failed) or
    a sequence of rounds, each made of one bind, the free of the blob
    that bind was sent with (exactly when a blob was held), one provider
    step fed with the server credentials of that round, and the free of
    those credentials; the rounds end with an accepted bind, after which
    only the install step may follow, or with the disposal of the
    context.  Before the start there are only set-up calls. *)
Theorem ldap_pvt_sasl_bind_rounds (ld : LDAP) (mechs : string) (env : bind_env)
    (rc : Z) (ld' : LDAP) (tr : list bind_event) :
  ldap_pvt_sasl_bind ld mechs env = Some (rc, ld', tr) ->
  forallb is_setup tr = true \/
  exists pre rest,
    tr = pre ++ EvClientStart mechs :: rest /\
    forallb is_setup pre = true /\
    ((exists conn, rest = [EvDispose conn]) \/
     (rounds false rest) \/
     (exists rs inst,
         rest = rs ++ inst /\ rounds true rs /\
         (inst = [] \/ exists conn, inst = [EvInstall conn]))).
Proof.
  intros Hrun.
  destruct (ldap_pvt_sasl_bind_shape _ _ _ _ _ _ Hrun)
    as [H | [(pre & conn & H1 & H2 & _) | [(pre & rs & H1 & H2 & H3 & _) |
        (pre & rs & conn & H1 & H2 & H3 & _)]]].
  - now left.
  - right. exists pre, [EvDispose (Some conn)]. repeat split; eauto.
  - right. exists pre, rs. auto.
  - right. eexists pre, _. split; [exact H1 |]. split; [exact H2 |].
    right; right. exists rs, (install_of (e_ssf env) (Some conn)).
    split; [reflexivity |]. split; [exact H3 |].
    unfold install_of. destruct (e_ssf env) as [v |]; [destruct (v =? 0) |];
      cbn [negb]; eauto.
Qed.

(** [ldap_pvt_sasl_bind_rounds] on the sample server. *)
Lemma ldap_pvt_sasl_bind_rounds_witness :
  exists rc ld' tr pre rest,
    ldap_pvt_sasl_bind sample_ld "DIGEST-MD5"%string sample_env = Some (rc, ld', tr) /\
    tr = pre ++ EvClientStart "DIGEST-MD5"%string :: rest /\
    forallb is_setup pre = true.
Proof.
  assert (H : ldap_pvt_sasl_bind sample_ld "DIGEST-MD5"%string sample_env =
              Some (fst (fst (match ldap_pvt_sasl_bind sample_ld "DIGEST-MD5"%string sample_env with
                              | Some r => r | None => (0, sample_ld, []) end)),
                    snd (fst (match ldap_pvt_sasl_bind sample_ld "DIGEST-MD5"%string sample_env with
                              | Some r => r | None => (0, sample_ld, []) end)),
                    snd (match ldap_pvt_sasl_bind sample_ld "DIGEST-MD5"%string sample_env with
                         | Some r => r | None => (0, sample_ld, []) end)))
    by reflexivity.
  destruct (ldap_pvt_sasl_bind_rounds _ _ _ _ _ _ H) as [Hs | (pre & rest & H1 & H2 & _)].
  - discriminate Hs.
  - do 3 eexists. exists pre, rest. split; [exact H |]. split; assumption.
Defined.

(** X10.  The security layer is installed only by a bind that returns
    [LDAP_SUCCESS] after a negotiated strength factor other than zero
    was reported, with the context the handle still holds, as the last
    call and at most once; when the strength factor is zero or cannot
    be read, nothing is installed. *)
Theorem ldap_pvt_sasl_bind_install (ld : LDAP) (mechs : string) (env : bind_env)
    (rc : Z) (ld' : LDAP) (tr : list bind_event) :
  ldap_pvt_sasl_bind ld mechs env = Some (rc, ld', tr) ->
  (forall c, In (EvInstall c) tr ->
             rc = LDAP_SUCCESS /\ c = ld_sasl_context ld' /\ c <> None /\
             (exists ssf, e_ssf env = Some ssf /\ ssf <> 0) /\
             exists tr0, tr = tr0 ++ [EvInstall c] /\ filter is_install tr0 = []) /\
  (e_ssf env = None \/ e_ssf env = Some 0 -> filter is_install tr = []).
Proof.
  intros Hrun.
  assert (Hnone : forall l, (forall e, In e l -> is_install e = false) ->
                            filter is_install l = [])
    by (intros l; apply filter_none).
  destruct (ldap_pvt_sasl_bind_shape _ _ _ _ _ _ Hrun)
    as [H | [(pre & conn & H1 & H2 & _) | [(pre & rs & H1 & H2 & H3 & _) |
        (pre & rs & conn & H1 & H2 & H3 & H4 & H5)]]].
  - assert (Hf : filter is_install tr = [])
      by (apply Hnone; intros e He; apply (setup_events tr H e He)).
    split; [| auto]. intros c Hc.
    assert (Hin : In (EvInstall c) (filter is_install tr)) by (apply filter_In; auto).
    rewrite Hf in Hin. contradiction.
  - assert (Hf : filter is_install tr = []).
    { rewrite H1, filter_app, (Hnone pre); [reflexivity |].
      intros e He. apply (setup_events pre H2 e He). }
    split; [| auto]. intros c Hc.
    assert (Hin : In (EvInstall c) (filter is_install tr)) by (apply filter_In; auto).
    rewrite Hf in Hin. contradiction.
  - assert (Hf : filter is_install tr = []).
    { rewrite H1, filter_app, (Hnone pre).
      - cbn [filter is_install app]. apply Hnone.
        intros e He. apply (rounds_events _ _ H3 e He).
      - intros e He. apply (setup_events pre H2 e He). }
    split; [| auto]. intros c Hc.
    assert (Hin : In (EvInstall c) (filter is_install tr)) by (apply filter_In; auto).
    rewrite Hf in Hin. contradiction.
  - assert (Hf0 : filter is_install (pre ++ EvClientStart mechs :: rs) = []).
    { rewrite filter_app, (Hnone pre).
      - cbn [filter is_install app]. apply Hnone.
        intros e He. apply (rounds_events _ _ H3 e He).
      - intros e He. apply (setup_events pre H2 e He). }
    assert (Htr : tr = (pre ++ EvClientStart mechs :: rs) ++ install_of (e_ssf env) (Some conn))
      by (rewrite H1, <- app_assoc; reflexivity).
    split.
    + intros c Hc. rewrite Htr in Hc. apply in_app_or in Hc.
      destruct Hc as [Hc | Hc].
      { assert (Hin : In (EvInstall c) (filter is_install (pre ++ EvClientStart mechs :: rs)))
          by (apply filter_In; auto).
        rewrite Hf0 in Hin. contradiction. }
      unfold install_of in Hc, Htr.
      destruct (e_ssf env) as [v |]; [| contradiction].
      destruct (Z.eqb_spec v 0) as [Hz | Hz]; cbn [negb] in Hc, Htr; [contradiction |].
      destruct Hc as [Hc | []]. injection Hc as <-.
      split; [exact H5 |]. split; [now rewrite H4 |]. split; [discriminate |].
      split; [exists v; auto |].
      eexists. split; [exact Htr | exact Hf0].
    + intros Hz. rewrite Htr, filter_app, Hf0. unfold install_of.
      destruct Hz as [-> | ->]; reflexivity.
Qed.

(** [ldap_pvt_sasl_bind_install] on the sample server, which reports a
    strength factor of 56. *)
Lemma ldap_pvt_sasl_bind_install_witness :
  exists ld' tr,
    ldap_pvt_sasl_bind sample_ld "DIGEST-MD5"%string sample_env =
    Some (LDAP_SUCCESS, ld', tr) /\
    In (EvInstall (Some 1%nat)) tr /\
    ld_sasl_context ld' = Some 1%nat.
Proof.
  eexists. eexists.
  assert (H : ldap_pvt_sasl_bind sample_ld "DIGEST-MD5"%string sample_env =
              Some (LDAP_SUCCESS, _, _)) by reflexivity.
  split; [exact H |].
  assert (Hin : In (EvInstall (Some 1%nat))
                   (snd (match ldap_pvt_sasl_bind sample_ld "DIGEST-MD5"%string sample_env with
                         | Some r => r | None => (0, sample_ld, []) end)))
    by (cbn; tauto).
  split; [exact Hin |].
  destruct (proj1 (ldap_pvt_sasl_bind_install _ _ _ _ _ _ H) _ Hin) as (_ & Hc & _).
  symmetry. exact Hc.
Defined.

(** X11.  Once [sasl_client_start] has been called, [ldap_pvt_sasl_bind]
    ends in one of two ways: it returns [LDAP_SUCCESS] and the handle
    keeps the context that was created, or its last call is the disposal
    of the context and the handle holds none.  It never returns another
    code with a live context. *)
Theorem ldap_pvt_sasl_bind_disposes (ld : LDAP) (mechs : string) (env : bind_env)
    (rc : Z) (ld' : LDAP) (tr : list bind_event) :
  ldap_pvt_sasl_bind ld mechs env = Some (rc, ld', tr) ->
  In (EvClientStart mechs) tr ->
  (rc = LDAP_SUCCESS /\ exists conn, ld_sasl_context ld' = Some conn) \/
  (ld_sasl_context ld' = None /\ exists tr0 conn, tr = tr0 ++ [EvDispose conn]).
Proof.
  intros Hrun Hin.
  destruct (ldap_pvt_sasl_bind_shape _ _ _ _ _ _ Hrun)
    as [H | [(pre & conn & H1 & H2 & H3 & _) | [(pre & rs & H1 & H2 & H3 & H4 & _) |
        (pre & rs & conn & H1 & H2 & H3 & H4 & H5)]]].
  - destruct (setup_events tr H _ Hin) as [_ Hne]. contradiction (Hne mechs). reflexivity.
  - right. split; [exact H3 |].
    exists (pre ++ [EvClientStart mechs]), (Some conn).
    rewrite H1, <- app_assoc. reflexivity.
  - right. split; [exact H4 |].
    destruct (rounds_false_last rs H3) as (rs0 & conn & ->).
    exists (pre ++ EvClientStart mechs :: rs0), conn.
    rewrite H1, <- app_assoc. reflexivity.
  - left. split; [exact H5 |]. exists conn. exact H4.
Qed.

(** [ldap_pvt_sasl_bind_disposes] on a server that refuses the first
    bind with "invalid credentials" (49). *)
Lemma ldap_pvt_sasl_bind_disposes_witness :
  let env := mkEnv true (0, 0) (Some "ldap.example.org"%string) (SASL_OK, 1%nat) true true
                   (mkReply SASL_CONTINUE (Some [x01]) 1, "DIGEST-MD5"%string)
                   [] [mkBindReply 49 49 None] (Some 56) in
  exists rc ld' tr,
    ldap_pvt_sasl_bind sample_ld "DIGEST-MD5"%string env = Some (rc, ld', tr) /\
    In (EvClientStart "DIGEST-MD5"%string) tr /\
    ld_sasl_context ld' = None.
Proof.
  intros env. do 3 eexists.
  assert (H : ldap_pvt_sasl_bind sample_ld "DIGEST-MD5"%string env = Some (_, _, _))
    by reflexivity.
  split; [exact H |].
  assert (Hin : In (EvClientStart "DIGEST-MD5"%string)
                   (snd (match ldap_pvt_sasl_bind sample_ld "DIGEST-MD5"%string env with
                         | Some r => r | None => (0, sample_ld, []) end)))
    by (cbn; tauto).
  split; [exact Hin |].
  destruct (ldap_pvt_sasl_bind_disposes _ _ _ _ _ _ H Hin) as [[Hrc _] | [Hc _]].
  - discriminate Hrc.
  - exact Hc.
Defined.

Lemma client_start_mechs (ld : LDAP) (mechs : string) (env : bind_env)
    (rc : Z) (ld' : LDAP) (tr : list bind_event) (m0 : string) :
  ldap_pvt_sasl_bind ld mechs env = Some (rc, ld', tr) ->
  In (EvClientStart m0) tr -> m0 = mechs.
Proof.
  intros Hrun Hin.
  assert (Hinst : forall m ssf conn, ~ In (EvClientStart m) (install_of ssf conn)).
  { intros m [v |] conn; cbn; [destruct (v =? 0); cbn |]; intuition discriminate. }
  assert (Hmid : forall pre rs,
             forallb is_setup pre = true ->
             In (EvClientStart m0) (pre ++ EvClientStart mechs :: rs) ->
             (forall e, In e rs -> forall m, e <> EvClientStart m) -> m0 = mechs).
  { intros pre rs Hp Hi Hrs. apply in_app_or in Hi. destruct Hi as [Hi | [Hi | Hi]].
    - destruct (setup_events pre Hp _ Hi) as [_ Hne]. contradiction (Hne m0). reflexivity.
    - now injection Hi.
    - contradiction (Hrs _ Hi m0). reflexivity. }
  destruct (ldap_pvt_sasl_bind_shape _ _ _ _ _ _ Hrun)
    as [H | [(pre & conn & H1 & H2 & _) | [(pre & rs & H1 & H2 & H3 & _) |
        (pre & rs & conn & H1 & H2 & H3 & _)]]].
  - destruct (setup_events tr H _ Hin) as [_ Hne]. contradiction (Hne m0). reflexivity.
  - rewrite H1 in Hin. apply (Hmid pre [EvDispose (Some conn)] H2).
    + exact Hin.
    + intros e [<- | []] m. discriminate.
  - rewrite H1 in Hin. apply (Hmid pre rs H2 Hin).
    intros e He. apply (rounds_events _ _ H3 e He).
  - rewrite H1 in Hin.
    apply (Hmid pre (rs ++ install_of (e_ssf env) (Some conn)) H2 Hin).
    intros e He m ->. apply in_app_or in He. destruct He as [He | He].
    + destruct (rounds_events _ _ H3 _ He) as (_ & Hne & _). contradiction (Hne m). reflexivity.
    + contradiction (Hinst _ _ _ He).
Qed.

Lemma ldap_pvt_sasl_getmechs_some (ld : LDAP) (o : mech_search) (rc : Z) (ld' : LDAP)
    (m : string) :
  ldap_pvt_sasl_getmechs ld o = (rc, ld', Some m) ->
  rc = LDAP_SUCCESS /\
  exists values, ms_values o = Some values /\ values <> [] /\
                 m = array2str_copy values true EmptyString.
Proof.
  unfold ldap_pvt_sasl_getmechs. destruct (ms_search o) as [r e].
  destruct (negb (r =? LDAP_SUCCESS)); [discriminate |].
  destruct (negb (ms_entry o)); [discriminate |].
  destruct (ms_values o) as [values |]; [| discriminate].
  unfold array2str.
  destruct (Z.eqb_spec (array2str_len values) 0) as [Hz | Hz]; [discriminate |].
  destruct (negb (ms_malloc o)); [discriminate |].
  intros H. injection H as <- _ <-. split; [reflexivity |].
  exists values. repeat split. intros ->. apply Hz. reflexivity.
Qed.

(** What a returning [ldap_negotiated_sasl_bind_s] offered to the
    provider, and where its callback table came from. *)
Lemma ldap_negotiated_sasl_bind_s_offers (ld : LDAP)
    (authenticationId authorizationId saslMechanism : option string)
    (passPhrase : option berval) (o : mech_search) (env : bind_env)
    (rc : Z) (ld' : LDAP) (tr : list bind_event)
    (cbs : option (list sasl_callback_t)) :
  ldap_negotiated_sasl_bind_s ld authenticationId authorizationId saslMechanism
                              passPhrase o env = Done (Some (rc, ld', tr, cbs)) ->
  (forall m0, In (EvClientStart m0) tr ->
              match saslMechanism with
              | Some (String c m) => m0 = String c m
              | _ => exists values, ms_values o = Some values /\ values <> [] /\
                                    m0 = array2str_copy values true EmptyString
              end) /\
  (cbs = None ->
   tr = [] /\ rc <> LDAP_SUCCESS /\
   (rc, ld') = fst (ldap_pvt_sasl_getmechs ld o) /\
   (saslMechanism = None \/ saslMechanism = Some EmptyString)) /\
  (forall l, cbs = Some l ->
             l = fst (negotiated_callbacks authenticationId authorizationId passPhrase)).
Proof.
  unfold ldap_negotiated_sasl_bind_s.
  assert (Hlook : forall rc0 ld0 mechs0,
             ldap_pvt_sasl_getmechs ld o = (rc0, ld0, mechs0) ->
             match
               (if negb (rc0 =? LDAP_SUCCESS) then Done (inl (rc0, ld0))
                else match mechs0 with
                     | Some m => Done (inr (ld0, m))
                     | None => Fault
                     end)
             with
             | Fault => Fault
             | Done (inl (rc1, ld1)) => Done (Some (rc1, ld1, [], None))
             | Done (inr (ld1, mechs)) =>
                 let '(cbs, _) :=
                   negotiated_callbacks authenticationId authorizationId passPhrase in
                 match ldap_pvt_sasl_bind ld1 mechs env with
                 | Some (rc1, ld2, tr1) => Done (Some (rc1, ld2, tr1, Some cbs))
                 | None => Done None
                 end
             end = Done (Some (rc, ld', tr, cbs)) ->
             (forall m0, In (EvClientStart m0) tr ->
                         exists values, ms_values o = Some values /\ values <> [] /\
                                        m0 = array2str_copy values true EmptyString) /\
             (cbs = None -> tr = [] /\ rc <> LDAP_SUCCESS /\ (rc, ld') = (rc0, ld0)) /\
             (forall l, cbs = Some l ->
                        l = fst (negotiated_callbacks authenticationId authorizationId
                                                      passPhrase))).
  { intros rc0 ld0 mechs0 Hg.
    destruct (Z.eqb_spec rc0 LDAP_SUCCESS) as [Hs | Hs]; cbn [negb].
    - destruct mechs0 as [m |]; [| discriminate].
      destruct (ldap_pvt_sasl_getmechs_some _ _ _ _ _ Hg) as (_ & values & Hv & Hne & Hm).
      destruct (negotiated_callbacks authenticationId authorizationId passPhrase)
        as [l n] eqn:Hcb.
      destruct (ldap_pvt_sasl_bind ld0 m env) as [[[rc1 ld2] tr1] |] eqn:Hb;
        [| discriminate].
      intros H. injection H as <- <- <- <-. repeat split.
      + intros m0 Hin. rewrite (client_start_mechs _ _ _ _ _ _ _ Hb Hin).
        exists values. auto.
      + discriminate.
      + discriminate.
      + discriminate.
      + intros l0 H. now injection H as <-.
    - intros H. injection H as <- <- <- <-. repeat split.
      + intros m0 [].
      + exact Hs.
      + discriminate. }
  destruct saslMechanism as [[| c m] |].
  - destruct (ldap_pvt_sasl_getmechs ld o) as [[rc0 ld0] mechs0] eqn:Hg.
    intros H. destruct (Hlook _ _ _ eq_refl H) as (A & B & C).
    split; [exact A |]. split; [| exact C].
    intros Hn. destruct (B Hn) as (B1 & B2 & B3). cbn [fst]. auto.
  - destruct (negotiated_callbacks authenticationId authorizationId passPhrase)
      as [l n] eqn:Hcb.
    destruct (ldap_pvt_sasl_bind ld (String c m) env) as [[[rc1 ld2] tr1] |] eqn:Hb;
      [| discriminate].
    intros H. injection H as <- <- <- <-. repeat split.
    + intros m0 Hin. apply (client_start_mechs _ _ _ _ _ _ _ Hb Hin).
    + discriminate.
    + discriminate.
    + discriminate.
    + discriminate.
    + intros l0 H. now injection H as <-.
  - destruct (ldap_pvt_sasl_getmechs ld o) as [[rc0 ld0] mechs0] eqn:Hg.
    intros H. destruct (Hlook _ _ _ eq_refl H) as (A & B & C).
    split; [exact A |]. split; [| exact C].
    intros Hn. destruct (B Hn) as (B1 & B2 & B3). cbn [fst]. auto.
Qed.

(** X12.  The mechanisms [ldap_negotiated_sasl_bind_s] offers to the
    provider are the caller's when the caller names any; otherwise they
    are the values of the server's [supportedSASLMechanisms] attribute
    joined in order.  With a mechanism named the call is the
    negotiation with that mechanism and the callback table, and no
    lookup is made.  With none named, a lookup that returns another
    code than [LDAP_SUCCESS] ends the call: that code is returned with
    the handle the lookup left, and neither the callback table nor the
    negotiation is reached; a lookup that succeeds is followed by the
    negotiation with the list it stored. *)
Theorem ldap_negotiated_sasl_bind_s_mechs (ld : LDAP)
    (authenticationId authorizationId saslMechanism : option string)
    (passPhrase : option berval) (o : mech_search) (env : bind_env) :
  let table := fst (negotiated_callbacks authenticationId authorizationId passPhrase) in
  let negotiate := fun (l : LDAP) (m : string) =>
    match ldap_pvt_sasl_bind l m env with
    | Some (rc, l', tr) => Done (Some (rc, l', tr, Some table))
    | None => Done None
    end in
  let result := ldap_negotiated_sasl_bind_s ld authenticationId authorizationId
                                            saslMechanism passPhrase o env in
  let lookup := ldap_pvt_sasl_getmechs ld o in
  (forall c m, saslMechanism = Some (String c m) ->
               result = negotiate ld (String c m)) /\
  (saslMechanism = None \/ saslMechanism = Some EmptyString ->
   (fst (fst lookup) <> LDAP_SUCCESS ->
    result = Done (Some (fst (fst lookup), snd (fst lookup), [], None))) /\
   (forall m, fst (fst lookup) = LDAP_SUCCESS -> snd lookup = Some m ->
              result = negotiate (snd (fst lookup)) m /\
              exists values, ms_values o = Some values /\ values <> [] /\
                             m = array2str_copy values true EmptyString)) /\
  (forall rc ld' tr cbs,
      result = Done (Some (rc, ld', tr, cbs)) ->
      (forall m0, In (EvClientStart m0) tr ->
                  match saslMechanism with
                  | Some (String c m) => m0 = String c m
                  | _ => exists values, ms_values o = Some values /\ values <> [] /\
                                        m0 = array2str_copy values true EmptyString
                  end) /\
      (cbs = None ->
       tr = [] /\ rc <> LDAP_SUCCESS /\ (rc, ld') = fst lookup /\
       (saslMechanism = None \/ saslMechanism = Some EmptyString)) /\
      (forall l, cbs = Some l -> l = table)).
Proof.
  intros table negotiate result lookup.
  assert (Hunnamed :
            saslMechanism = None \/ saslMechanism = Some EmptyString ->
            result =
            match
              (let '(rc, l, mechs) := lookup in
               if negb (rc =? LDAP_SUCCESS) then Done (inl (rc, l))
               else match mechs with
                    | Some m => Done (inr (l, m))
                    | None => @Fault (Z * LDAP + LDAP * string)
                    end)
            with
            | Fault => Fault
            | Done (inl (rc, l)) => Done (Some (rc, l, [], None))
            | Done (inr (l, m)) => negotiate l m
            end).
  { intros [-> | ->]; subst result negotiate table lookup;
      unfold ldap_negotiated_sasl_bind_s;
      destruct (ldap_pvt_sasl_getmechs ld o) as [[rc0 l0] m0];
      destruct (negb (rc0 =? LDAP_SUCCESS)); try reflexivity;
      destruct m0 as [m |]; try reflexivity;
      destruct (negotiated_callbacks authenticationId authorizationId passPhrase);
      reflexivity. }
  split; [| split].
  - intros c m ->. subst result negotiate table.
    unfold ldap_negotiated_sasl_bind_s.
    destruct (negotiated_callbacks authenticationId authorizationId passPhrase).
    reflexivity.
  - intros Hnone. rewrite (Hunnamed Hnone).
    destruct lookup as [[rc0 l0] m0] eqn:Hl. cbn [fst snd].
    split.
    + intros Hrc. destruct (Z.eqb_spec rc0 LDAP_SUCCESS) as [Heq | _]; [contradiction |].
      reflexivity.
    + intros m Hrc ->. destruct (Z.eqb_spec rc0 LDAP_SUCCESS) as [_ | Hne];
        [| contradiction].
      split; [reflexivity |].
      destruct (ldap_pvt_sasl_getmechs_some _ _ _ _ _ Hl) as (_ & values & Hv).
      exists values. exact Hv.
  - intros rc ld' tr cbs Hres.
    exact (ldap_negotiated_sasl_bind_s_offers _ _ _ _ _ _ _ _ _ _ _ Hres).
Qed.

(** [ldap_negotiated_sasl_bind_s_mechs] with no mechanism named: on a
    server that cannot be reached (the search leaves 0x51) the call
    returns that code and negotiates nothing; on a server that lists two
    mechanisms the provider is offered both, joined. *)
Lemma ldap_negotiated_sasl_bind_s_mechs_witness :
  let down := mkSearch (0x51, 0x51) false None true in
  let o := mkSearch (LDAP_SUCCESS, LDAP_SUCCESS) true
                    (Some ["DIGEST-MD5"; "GSSAPI"]%string) true in
  ldap_negotiated_sasl_bind_s sample_ld (Some "manager"%string) None None None
                              down sample_env =
  Done (Some (0x51, set_ld_errno sample_ld 0x51, [], None)) /\
  ldap_negotiated_sasl_bind_s sample_ld (Some "manager"%string) None None None
                              o sample_env =
  match ldap_pvt_sasl_bind sample_ld "DIGEST-MD5 GSSAPI"%string sample_env with
  | Some (rc, l', tr) =>
      Done (Some (rc, l', tr,
                  Some (fst (negotiated_callbacks (Some "manager"%string) None None))))
  | None => Done None
  end.
Proof.
  cbv zeta. split.
  - destruct (ldap_negotiated_sasl_bind_s_mechs sample_ld (Some "manager"%string) None
                None None (mkSearch (0x51, 0x51) false None true) sample_env)
      as (_ & Hnone & _).
    destruct (Hnone (or_introl eq_refl)) as [Hfail _].
    exact (Hfail ltac:(discriminate)).
  - destruct (ldap_negotiated_sasl_bind_s_mechs sample_ld (Some "manager"%string) None
                None None
                (mkSearch (LDAP_SUCCESS, LDAP_SUCCESS) true
                          (Some ["DIGEST-MD5"; "GSSAPI"]%string) true) sample_env)
      as (_ & Hnone & _).
    destruct (Hnone (or_introl eq_refl)) as [_ Hok].
    exact (proj1 (Hok "DIGEST-MD5 GSSAPI"%string eq_refl eq_refl)).
Defined.

(** X13.  [ldap_negotiated_sasl_bind_s] reads the pointer [mechs]
    without [ldap_pvt_sasl_getmechs] having stored one exactly when no
    mechanism is named, [ldap_search_s] fails and the [ld_errno] it
    leaves is [LDAP_SUCCESS]: the lookup then returns [ld_errno], which
    the caller takes for success. *)
Theorem ldap_negotiated_sasl_bind_s_unset_mechs (ld : LDAP)
    (authenticationId authorizationId saslMechanism : option string)
    (passPhrase : option berval) (o : mech_search) (env : bind_env) :
  ldap_negotiated_sasl_bind_s ld authenticationId authorizationId saslMechanism
                              passPhrase o env = Fault <->
  (saslMechanism = None \/ saslMechanism = Some EmptyString) /\
  fst (ms_search o) <> LDAP_SUCCESS /\ snd (ms_search o) = LDAP_SUCCESS.
Proof.
  assert (Hcb : forall ld0 m,
             (let '(cbs, _) :=
                negotiated_callbacks authenticationId authorizationId passPhrase in
              match ldap_pvt_sasl_bind ld0 m env with
              | Some (rc1, ld2, tr1) => Done (Some (rc1, ld2, tr1, Some cbs))
              | None => Done None
              end) <> Fault).
  { intros ld0 m.
    destruct (negotiated_callbacks authenticationId authorizationId passPhrase) as [l n].
    destruct (ldap_pvt_sasl_bind ld0 m env) as [[[rc1 ld2] tr1] |]; discriminate. }
  assert (Hlook :
            match
              (let '(rc, ld0, mechs) := ldap_pvt_sasl_getmechs ld o in
               if negb (rc =? LDAP_SUCCESS) then Done (inl (rc, ld0))
               else match mechs with
                    | Some m => Done (inr (ld0, m))
                    | None => @Fault (Z * LDAP + LDAP * string)
                    end)
            with
            | Fault => Fault
            | Done (inl (rc1, ld1)) => Done (Some (rc1, ld1, [], None))
            | Done (inr (ld1, mechs)) =>
                let '(cbs, _) :=
                  negotiated_callbacks authenticationId authorizationId passPhrase in
                match ldap_pvt_sasl_bind ld1 mechs env with
                | Some (rc1, ld2, tr1) => Done (Some (rc1, ld2, tr1, Some cbs))
                | None => Done None
                end
            end = Fault <->
            fst (ms_search o) <> LDAP_SUCCESS /\ snd (ms_search o) = LDAP_SUCCESS).
  { unfold ldap_pvt_sasl_getmechs. destruct (ms_search o) as [r e]. cbn [fst snd].
    destruct (Z.eqb_spec r LDAP_SUCCESS) as [Hr | Hr]; cbn [negb].
    - destruct (negb (ms_entry o)).
      + cbn [set_ld_errno ld_errno].
        destruct (Z.eqb_spec e LDAP_SUCCESS) as [He | He]; cbn [set_ld_errno ld_errno].
        * change (negb (LDAP_UNAVAILABLE =? LDAP_SUCCESS)) with true. cbv iota.
          split; [discriminate | intros [H _]; contradiction].
        * destruct (Z.eqb_spec e LDAP_SUCCESS) as [He' | He']; [contradiction |].
          cbn [negb]. split; [discriminate | intros [H _]; contradiction].
      + destruct (ms_values o) as [values |].
        * destruct (array2str (ms_malloc o) values) as [m |].
          -- change (negb (LDAP_SUCCESS =? LDAP_SUCCESS)) with false. cbv iota.
             split; [intros H; contradiction (Hcb _ _ H) | intros [H _]; contradiction].
          -- change (negb (LDAP_NO_MEMORY =? LDAP_SUCCESS)) with true. cbv iota.
             split; [discriminate | intros [H _]; contradiction].
        * change (negb (LDAP_NO_SUCH_ATTRIBUTE =? LDAP_SUCCESS)) with true. cbv iota.
          split; [discriminate | intros [H _]; contradiction].
    - cbn [set_ld_errno ld_errno].
      destruct (Z.eqb_spec e LDAP_SUCCESS) as [He | He]; cbn [negb].
      + split; [auto | reflexivity].
      + split; [discriminate | intros [_ H]; contradiction]. }
  unfold ldap_negotiated_sasl_bind_s.
  destruct saslMechanism as [[| c m] |].
  - rewrite Hlook. split; [intros H; split; auto | intros [_ H]; exact H].
  - split.
    + intros H. contradiction (Hcb _ _ H).
    + intros [[H | H] _]; discriminate.
  - rewrite Hlook. split; [intros H; split; auto | intros [_ H]; exact H].
Qed.

(** ** Parsing and the synchronous bind *)

(** X14.  The server credentials [ldap_parse_sasl_bind_result] scans
    have exactly one owner.  They are stored through [servercredp] only
    when that pointer was given, the handle speaks version 2 or later
    and the response carried them; the code returned is then the result
    code of the response, whatever it is.  They are handed to
    [ber_bvfree] only when no pointer was given.  Never both. *)
Theorem ldap_parse_sasl_bind_result_creds (ld : LDAP) (servercredp freeit : bool)
    (o : parse_oracle) :
  let r := ldap_parse_sasl_bind_result ld servercredp freeit o in
  (forall c, pa_servercred r = Some (Some c) ->
             servercredp = true /\ pa_freed r = None /\
             po_creds o = Some (Some c) /\ LDAP_VERSION2 <= ld_version ld /\
             po_errcode o = Some (pa_rc r)) /\
  (forall c, pa_freed r = Some c ->
             servercredp = false /\ pa_servercred r = None /\
             po_creds o = Some (Some c) /\ LDAP_VERSION2 <= ld_version ld) /\
  (servercredp = false -> pa_servercred r = None).
Proof.
  unfold ldap_parse_sasl_bind_result, parse_bind_response.
  destruct servercredp; cbn [andb];
    destruct (Z.ltb_spec (ld_version ld) LDAP_VERSION2) as [Hv | Hv];
    destruct (po_is_bind o); cbn [negb];
    destruct (po_dup o); cbn [negb];
    destruct (po_errcode o) as [e |];
    destruct (po_referral o) as [[|] |];
    destruct (po_creds o) as [[c0 |] |];
    cbn [pa_servercred pa_freed pa_rc];
    (split; [| split]);
    try (intros c H; discriminate H);
    try (intros H; discriminate H);
    try reflexivity;
    intros c H; injection H as <-; repeat split; assumption.
Qed.

(** X15.  [ldap_parse_sasl_bind_result] returns the [ld_errno] it
    leaves, with one exception: asked for server credentials on a handle
    below version 2 it returns [LDAP_NOT_SUPPORTED] and leaves the
    handle, [ld_errno] included, as it was.  The message is freed only
    when [freeit] is set and the response was decoded: no error return
    frees it. *)
Theorem ldap_parse_sasl_bind_result_errno (ld : LDAP) (servercredp freeit : bool)
    (o : parse_oracle) :
  let r := ldap_parse_sasl_bind_result ld servercredp freeit o in
  (pa_rc r = ld_errno (pa_ld r) \/
   (servercredp = true /\ ld_version ld < LDAP_VERSION2 /\
    pa_rc r = LDAP_NOT_SUPPORTED /\ pa_ld r = ld /\ pa_servercred r = None)) /\
  (pa_msgfree r = true ->
   freeit = true /\ po_is_bind o = true /\ po_dup o = true /\
   po_errcode o = Some (pa_rc r)).
Proof.
  unfold ldap_parse_sasl_bind_result, parse_bind_response.
  destruct servercredp; cbn [andb];
    destruct (Z.ltb_spec (ld_version ld) LDAP_VERSION2) as [Hv | Hv];
    destruct (po_is_bind o); cbn [negb];
    destruct (po_dup o); cbn [negb];
    destruct (po_errcode o) as [e |];
    destruct (po_referral o) as [[|] |];
    destruct (po_creds o) as [[c0 |] |];
    cbn [pa_rc pa_ld pa_msgfree pa_servercred set_ld_errno ld_errno];
    (split; [first [left; reflexivity | right; repeat split; assumption] |]);
    try (intros H; discriminate H);
    intros H; repeat split; try reflexivity; exact H.
Qed.

Lemma ldap_sasl_bind_code (ld : LDAP) (dn mechanism : option string)
    (cred : option berval) (msgidp : bool) (w : wire)
    (rc : Z) (ld' : LDAP) (m : option Z) (rq : option bind_request) :
  ldap_sasl_bind ld dn mechanism cred msgidp w = (rc, ld', m, rq) ->
  (rc = ld_errno ld' /\ (rq = None \/ exists id, m = Some id /\ id < 0)) \/
  (rc = -1 /\ ld_errno ld' = LDAP_ENCODING_ERROR /\ w_printf w = -1 /\ rq = None) \/
  (rc = LDAP_SUCCESS /\ ld_errno ld' = ld_errno ld /\
   exists r id, rq = Some r /\ m = Some id /\ 0 <= id).
Proof.
  unfold ldap_sasl_bind.
  destruct msgidp; cbn [negb].
  2:{ intros H. injection H as <- <- <- <-. left. split; [reflexivity | now left]. }
  destruct (negb match mechanism with None => true | Some _ => false end &&
            (ld_version ld <? LDAP_VERSION3)).
  { intros H. injection H as <- <- <- <-. left. split; [reflexivity | now left]. }
  destruct (w_alloc_ber w); cbn [negb].
  2:{ intros H. injection H as <- <- <- <-. left. split; [reflexivity | now left]. }
  destruct (Z.eqb_spec (w_printf w) (-1)) as [Hp | Hp].
  { intros H. injection H as <- <- <- <-. right; left. repeat split. exact Hp. }
  destruct (w_put_controls w) as [e |].
  { intros H. injection H as <- <- <- <-. left. split; [reflexivity | now left]. }
  destruct (w_printf_close w =? -1).
  { intros H. injection H as <- <- <- <-. left. split; [reflexivity | now left]. }
  destruct (w_send w) as [id e].
  destruct (Z.ltb_spec id 0) as [Hid | Hid].
  - intros H. injection H as <- <- <- <-. left. split; [reflexivity |].
    right. exists id. auto.
  - intros H. injection H as <- <- <- <-. right; right.
    split; [reflexivity |]. split; [reflexivity |]. eauto.
Qed.

(** X16.  Every return of [ldap_sasl_bind] gives the [ld_errno] it
    leaves, with two exceptions: when the first [ber_printf] fails it
    returns -1 while [ld_errno] is [LDAP_ENCODING_ERROR], and when the
    request is sent with a message id that is not negative it returns
    [LDAP_SUCCESS] and leaves [ld_errno] as it was. *)
Theorem ldap_sasl_bind_returns (ld : LDAP) (dn mechanism : option string)
    (cred : option berval) (msgidp : bool) (w : wire) :
  let r := ldap_sasl_bind ld dn mechanism cred msgidp w in
  let rc := fst (fst (fst r)) in
  let ld' := snd (fst (fst r)) in
  rc = ld_errno ld' \/
  (rc = -1 /\ ld_errno ld' = LDAP_ENCODING_ERROR /\ w_printf w = -1 /\ snd r = None) \/
  (rc = LDAP_SUCCESS /\ ld_errno ld' = ld_errno ld /\
   exists rq id, snd r = Some rq /\ snd (fst r) = Some id /\ 0 <= id).
Proof.
  destruct (ldap_sasl_bind ld dn mechanism cred msgidp w) as [[[rc ld'] m] rq] eqn:H.
  cbn [fst snd].
  destruct (ldap_sasl_bind_code _ _ _ _ _ _ _ _ _ _ H) as [[A _] | [A | A]]; auto.
Qed.

(** X17.  A request [ldap_sasl_bind] sends carries the message id that
    follows the handle's, which the handle then holds, the version of
    the handle, and a name that is never null: the caller's, else for a
    simple bind with credentials the default bind name of the handle,
    else the empty string.  A SASL request is sent only on version 3 or
    later, and names the caller's mechanism and credentials. *)
Theorem ldap_sasl_bind_request (ld : LDAP) (dn mechanism : option string)
    (cred : option berval) (msgidp : bool) (w : wire)
    (rc : Z) (ld' : LDAP) (m : option Z) (rq : bind_request) :
  ldap_sasl_bind ld dn mechanism cred msgidp w = (rc, ld', m, Some rq) ->
  rq_msgid rq = ld_msgid ld + 1 /\ ld_msgid ld' = ld_msgid ld + 1 /\
  rq_version rq = ld_version ld /\
  match mechanism with
  | Some mech =>
      LDAP_VERSION3 <= ld_version ld /\ rq_auth rq = AuthSasl mech cred /\
      rq_dn rq = match dn with Some d => d | None => EmptyString end
  | None =>
      rq_auth rq = AuthSimple cred /\
      rq_dn rq = match dn, cred, ld_defbinddn ld with
                 | Some d, _, _ => d
                 | None, Some _, Some d => d
                 | None, _, _ => EmptyString
                 end
  end.
Proof.
  unfold ldap_sasl_bind.
  destruct msgidp; cbn [negb]; [| discriminate].
  destruct mechanism as [mech |]; cbn [negb andb].
  - destruct (Z.ltb_spec (ld_version ld) LDAP_VERSION3) as [Hv | Hv]; [discriminate |].
    destruct (w_alloc_ber w); cbn [negb]; [| discriminate].
    destruct (w_printf w =? -1); [discriminate |].
    destruct (w_put_controls w); [discriminate |].
    destruct (w_printf_close w =? -1); [discriminate |].
    destruct (w_send w) as [id e].
    destruct (id <? 0); intros H; injection H as <- <- <- <-;
      cbn; repeat split; try assumption; destruct dn; reflexivity.
  - destruct (w_alloc_ber w); cbn [negb]; [| discriminate].
    destruct (w_printf w =? -1); [discriminate |].
    destruct (w_put_controls w); [discriminate |].
    destruct (w_printf_close w =? -1); [discriminate |].
    destruct (w_send w) as [id e].
    destruct (id <? 0); intros H; injection H as <- <- <- <-;
      cbn; repeat split;
      destruct dn, cred, (ld_defbinddn ld); reflexivity.
Qed.

(** [ldap_sasl_bind_request] for a simple bind with credentials and no
    name, on a handle whose default bind name is set. *)
Lemma ldap_sasl_bind_request_witness :
  let ld := mkLDAP LDAP_VERSION2 LDAP_SUCCESS 7 (Some "cn=manager"%string) None in
  exists rc ld' m rq,
    ldap_sasl_bind ld None None (Some (mkBerval 1 [x01])) true sample_wire =
    (rc, ld', m, Some rq) /\
    rq_msgid rq = 8 /\ rq_dn rq = "cn=manager"%string.
Proof.
  intros ld. do 4 eexists.
  assert (H : ldap_sasl_bind ld None None (Some (mkBerval 1 [x01])) true sample_wire =
              (_, _, _, Some _)) by reflexivity.
  split; [exact H |].
  destruct (ldap_sasl_bind_request _ _ _ _ _ _ _ _ _ _ H) as (A & _ & _ & _ & B).
  split; [exact A | exact B].
Defined.

Lemma ldap_parse_sasl_bind_result_creds_aux (ld : LDAP) (o : parse_oracle) :
  forall c, pa_servercred (ldap_parse_sasl_bind_result ld true false o) = Some (Some c) ->
            po_creds o = Some (Some c) /\
            po_errcode o = Some (pa_rc (ldap_parse_sasl_bind_result ld true false o)).
Proof.
  unfold ldap_parse_sasl_bind_result, parse_bind_response. cbn [andb].
  destruct (ld_version ld <? LDAP_VERSION2);
    destruct (po_is_bind o); cbn [negb];
    destruct (po_dup o); cbn [negb];
    destruct (po_errcode o) as [e |];
    destruct (po_referral o) as [[|] |];
    destruct (po_creds o) as [[c0 |] |];
    cbn [pa_servercred pa_rc];
    intros c H; try discriminate H;
    injection H as <-; split; reflexivity.
Qed.

(** X18.  The credentials [ldap_parse_sasl_bind_result] hands to
    [ldap_sasl_bind_s] end in one of three ways: stored through
    [servercredp], when the code returned is success or in-progress;
    handed to [ber_bvfree], when the parse reported success or
    in-progress but [ldap_result2error] gives another code; or neither,
    when the parse itself reports another code, which is then returned.
    Nothing is stored or freed that was not parsed. *)
Theorem ldap_sasl_bind_s_creds (ld : LDAP) (dn mechanism : option string)
    (cred : option berval) (servercredp : bool) (env : bind_s_env) :
  let r := ldap_sasl_bind_s ld dn mechanism cred servercredp env in
  (forall c, bo_parsed r = Some c ->
             servercredp = true /\ LDAP_VERSION3 <= ld_version ld /\
             po_creds (bs_parse env) = Some (Some c) /\
             ((bind_done (bo_rc r) = true /\ bo_servercred r = Some (Some c) /\
               bo_freed r = None) \/
              (bind_done (bo_rc r) = false /\ bo_servercred r = Some None /\
               bo_freed r = Some c /\ bo_rc r = bs_result2error env) \/
              (bind_done (bo_rc r) = false /\ bo_servercred r = Some None /\
               bo_freed r = None /\ po_errcode (bs_parse env) = Some (bo_rc r)))) /\
  (forall c, bo_servercred r = Some (Some c) -> bo_parsed r = Some c) /\
  (forall c, bo_freed r = Some c -> bo_parsed r = Some c).
Proof.
  unfold ldap_sasl_bind_s.
  assert (Hnone : forall rc0 ld0 st rq0,
             st = None \/ st = Some None ->
             (forall c, bo_parsed (mkBound rc0 ld0 st None None rq0) = Some c -> False) /\
             (forall c, bo_servercred (mkBound rc0 ld0 st None None rq0) = Some (Some c) ->
                        False) /\
             (forall c, bo_freed (mkBound rc0 ld0 st None None rq0) = Some c -> False)).
  { intros rc0 ld0 st rq0 [-> | ->]; cbn;
      (split; [| split]); intros c H; discriminate H. }
  assert (Hskip : forall rc0 ld0 st rq0,
             st = None \/ st = Some None ->
             let r := mkBound rc0 ld0 st None None rq0 in
             (forall c, bo_parsed r = Some c ->
                        servercredp = true /\ LDAP_VERSION3 <= ld_version ld /\
                        po_creds (bs_parse env) = Some (Some c) /\
                        ((bind_done (bo_rc r) = true /\ bo_servercred r = Some (Some c) /\
                          bo_freed r = None) \/
                         (bind_done (bo_rc r) = false /\ bo_servercred r = Some None /\
                          bo_freed r = Some c /\ bo_rc r = bs_result2error env) \/
                         (bind_done (bo_rc r) = false /\ bo_servercred r = Some None /\
                          bo_freed r = None /\
                          po_errcode (bs_parse env) = Some (bo_rc r)))) /\
             (forall c, bo_servercred r = Some (Some c) -> bo_parsed r = Some c) /\
             (forall c, bo_freed r = Some c -> bo_parsed r = Some c)).
  { intros rc0 ld0 st rq0 Hst r.
    destruct (Hnone rc0 ld0 st rq0 Hst) as (A & B & C).
    split; [| split]; intros c H; exfalso; eauto. }
  destruct servercredp; cbn [andb].
  - destruct (Z.ltb_spec (ld_version ld) LDAP_VERSION3) as [Hv | Hv].
    { apply Hskip. now left. }
    destruct (ldap_sasl_bind ld dn mechanism cred true (bs_wire env))
      as [[[rc ld1] m] rq] eqn:Hb.
    destruct (negb (rc =? LDAP_SUCCESS)).
    { apply Hskip. now right. }
    destruct (bs_result env) as [e |].
    { apply Hskip. now right. }
    pose proof (ldap_parse_sasl_bind_result_creds_aux ld1 (bs_parse env)) as Hp.
    destruct (ldap_parse_sasl_bind_result ld1 true false (bs_parse env))
      as [prc pld pcred pfreed pmsg]; cbn [pa_rc pa_ld pa_servercred] in *.
    assert (Hcred : forall c, match pcred with Some v => v | None => None end = Some c ->
                              po_creds (bs_parse env) = Some (Some c) /\
                              po_errcode (bs_parse env) = Some prc).
    { intros c H. destruct pcred as [[c0 |] |]; try discriminate H.
      injection H as <-. apply (Hp c0 eq_refl). }
    destruct (bind_done prc) eqn:Hd1; cbn [negb].
    + destruct (bind_done (bs_result2error env)) eqn:Hd2; cbn [andb];
        cbn [bo_parsed bo_rc bo_servercred bo_freed].
      * split; [| split].
        -- intros c H. destruct (Hcred c H) as [A B].
           split; [reflexivity |]. split; [lia |]. split; [exact A |].
           left. rewrite H. auto.
        -- intros c H. now injection H.
        -- intros c H. discriminate H.
      * split; [| split].
        -- intros c H. destruct (Hcred c H) as [A B].
           split; [reflexivity |]. split; [lia |]. split; [exact A |].
           right; left. rewrite H. auto.
        -- intros c H. discriminate H.
        -- intros c H. exact H.
    + cbn [bo_parsed bo_rc bo_servercred bo_freed]. split; [| split].
      * intros c H. destruct (Hcred c H) as [A B].
        split; [reflexivity |]. split; [lia |]. split; [exact A |].
        right; right. auto.
      * intros c H. discriminate H.
      * intros c H. discriminate H.
  - destruct (ldap_sasl_bind ld dn mechanism cred true (bs_wire env))
      as [[[rc ld1] m] rq] eqn:Hb.
    destruct (negb (rc =? LDAP_SUCCESS)).
    { apply Hskip. now left. }
    destruct (bs_result env) as [e |].
    { apply Hskip. now left. }
    destruct (bind_done rc); cbn [negb].
    + rewrite andb_false_r. apply Hskip. now left.
    + apply Hskip. now left.
Qed.

Lemma ldap_sasl_bind_handle (ld : LDAP) (dn mechanism : option string)
    (cred : option berval) (msgidp : bool) (w : wire) :
  let ld' := snd (fst (fst (ldap_sasl_bind ld dn mechanism cred msgidp w))) in
  ld_version ld' = ld_version ld /\ ld_defbinddn ld' = ld_defbinddn ld /\
  ld_sasl_context ld' = ld_sasl_context ld.
Proof.
  unfold ldap_sasl_bind.
  destruct (negb msgidp); [cbn; auto |].
  destruct (negb match mechanism with None => true | Some _ => false end &&
            (ld_version ld <? LDAP_VERSION3)); [cbn; auto |].
  destruct (negb (w_alloc_ber w)); [cbn; auto |].
  destruct (w_printf w =? -1); [cbn; auto |].
  destruct (w_put_controls w); [cbn; auto |].
  destruct (w_printf_close w =? -1); [cbn; auto |].
  destruct (w_send w) as [id e].
  destruct (id <? 0); cbn; auto.
Qed.

Lemma ldap_parse_sasl_bind_result_v2 (ld : LDAP) (freeit : bool) (o : parse_oracle) :
  LDAP_VERSION2 <= ld_version ld ->
  pa_rc (ldap_parse_sasl_bind_result ld true freeit o) =
  ld_errno (pa_ld (ldap_parse_sasl_bind_result ld true freeit o)).
Proof.
  intros Hv. unfold ldap_parse_sasl_bind_result, parse_bind_response. cbn [andb].
  destruct (Z.ltb_spec (ld_version ld) LDAP_VERSION2) as [Hlt | _]; [lia |].
  destruct (po_is_bind o); cbn [negb]; [| reflexivity].
  destruct (po_dup o); cbn [negb]; [| reflexivity].
  destruct (po_errcode o) as [e |]; [| reflexivity].
  destruct (po_referral o) as [[|] |];
    destruct (po_creds o) as [[c0 |] |]; reflexivity.
Qed.

(** X19.  [ldap_sasl_bind_s] returns the [ld_errno] it leaves on every
    path but one: when the first [ber_printf] of [ldap_sasl_bind] fails
    it passes on -1, which is no result code, while [ld_errno] is
    [LDAP_ENCODING_ERROR]; no request has been sent then. *)
Theorem ldap_sasl_bind_s_returns (ld : LDAP) (dn mechanism : option string)
    (cred : option berval) (servercredp : bool) (env : bind_s_env) :
  let r := ldap_sasl_bind_s ld dn mechanism cred servercredp env in
  bo_rc r = ld_errno (bo_ld r) \/
  (bo_rc r = -1 /\ ld_errno (bo_ld r) = LDAP_ENCODING_ERROR /\
   w_printf (bs_wire env) = -1 /\ bo_request r = None).
Proof.
  unfold ldap_sasl_bind_s.
  destruct (servercredp && (ld_version ld <? LDAP_VERSION3)) eqn:Hq.
  { left. reflexivity. }
  pose proof (ldap_sasl_bind_handle ld dn mechanism cred true (bs_wire env)) as Hh.
  destruct (ldap_sasl_bind ld dn mechanism cred true (bs_wire env))
    as [[[rc ld1] m] rq] eqn:Hb.
  cbn [fst snd] in Hh. destruct Hh as (Hver & _).
  destruct (Z.eqb_spec rc LDAP_SUCCESS) as [Hrc | Hrc]; cbn [negb].
  2:{ cbn [bo_rc bo_ld bo_request].
      destruct (ldap_sasl_bind_code _ _ _ _ _ _ _ _ _ _ Hb)
        as [[A _] | [(A & B & C & D) | (A & _)]].
      - now left.
      - right. auto.
      - contradiction. }
  destruct (bs_result env) as [e |].
  { left. reflexivity. }
  destruct servercredp.
  - cbn [andb] in Hq. apply Z.ltb_ge in Hq.
    assert (Hp := ldap_parse_sasl_bind_result_v2 ld1 false (bs_parse env)).
    rewrite Hver in Hp. specialize (Hp ltac:(unfold LDAP_VERSION2, LDAP_VERSION3 in *; lia)).
    destruct (ldap_parse_sasl_bind_result ld1 true false (bs_parse env))
      as [prc pld pcred pfreed pmsg]; cbn [pa_rc pa_ld pa_servercred] in *.
    destruct (bind_done prc); cbn [negb].
    + destruct (bind_done (bs_result2error env) && true); left; reflexivity.
    + left. exact Hp.
  - subst rc. change (bind_done LDAP_SUCCESS) with true. cbn [negb].
    rewrite andb_false_r. left. reflexivity.
Qed.

(** X20.  On a handle below version 3, [ldap_sasl_bind_s] asked for
    server credentials, or asked for a SASL mechanism, returns
    [LDAP_NOT_SUPPORTED], leaves it in [ld_errno], sends no request,
    takes no message id and stores nothing through [servercredp]; this
    holds for a simple bind too when server credentials are asked for. *)
Theorem ldap_sasl_bind_s_below_v3 (ld : LDAP) (dn mechanism : option string)
    (cred : option berval) (servercredp : bool) (env : bind_s_env) :
  ld_version ld < LDAP_VERSION3 ->
  servercredp = true \/ mechanism <> None ->
  let r := ldap_sasl_bind_s ld dn mechanism cred servercredp env in
  bo_rc r = LDAP_NOT_SUPPORTED /\
  bo_ld r = set_ld_errno ld LDAP_NOT_SUPPORTED /\
  bo_request r = None /\
  bo_servercred r = None /\ bo_freed r = None.
Proof.
  intros Hv Hwhy. unfold ldap_sasl_bind_s.
  apply Z.ltb_lt in Hv.
  destruct servercredp; cbn [andb].
  - rewrite Hv. cbn. auto.
  - destruct Hwhy as [H | Hm]; [discriminate |].
    destruct mechanism as [mech |]; [| contradiction].
    unfold ldap_sasl_bind. cbn [negb andb]. rewrite Hv.
    change (negb (LDAP_NOT_SUPPORTED =? LDAP_SUCCESS)) with true. cbn. auto.
Qed.

(** [ldap_sasl_bind_s_below_v3] for a simple bind on a version 2 handle
    that asks for server credentials. *)
Lemma ldap_sasl_bind_s_below_v3_witness :
  let ld := mkLDAP LDAP_VERSION2 LDAP_SUCCESS 7 None None in
  let env := mkBindS sample_wire None (mkParse true true (Some 0) None None) 0 in
  bo_rc (ldap_sasl_bind_s ld None None None true env) = LDAP_NOT_SUPPORTED /\
  bo_request (ldap_sasl_bind_s ld None None None true env) = None.
Proof.
  intros ld env.
  assert (Hv : ld_version ld < LDAP_VERSION3) by reflexivity.
  destruct (ldap_sasl_bind_s_below_v3 ld None None None true env Hv (or_introl eq_refl))
    as (A & _ & B & _).
  split; [exact A | exact B].
Defined.

(** ** The layer: writing *)

Section WriteResult.

Context {Ctx Wr : Type}.
Variable sasl_encode : Ctx -> list byte -> Z * list byte * Ctx.
Variable do_write : Wr -> Sockbuf_Buf -> Z * Sockbuf_Buf * Wr.

Lemma flush_out_spec (s : Sockbuf_IO_Desc Ctx Wr) :
  let r := do_write (next_wr s) (buf_out (sbiod_pvt s)) in
  flush_out do_write s =
  (fst (fst r),
   log (set_wr (set_out s (snd (fst r))) (snd r))
       (DoWrite (buf_end (buf_out (sbiod_pvt s)) - buf_ptr (buf_out (sbiod_pvt s)))
                (fst (fst r)))).
Proof.
  unfold flush_out.
  destruct (do_write (next_wr s) (buf_out (sbiod_pvt s))) as [[ret b'] w].
  reflexivity.
Qed.

(** The ways [sb_sasl_write] ends, by the calls it made: the flush of
    an old packet that did not report a positive count; an encode
    failure; the flush of the new packet, reporting what the helper
    reports when that is not positive and [len] otherwise.  [pre] is
    the flush of an old packet, if there was one. *)
Lemma sb_sasl_write_cases (s : Sockbuf_IO_Desc Ctx Wr) (buf : list byte) (len : Z) :
  let res := sb_sasl_write sasl_encode do_write s buf len in
  let data := firstn (Z.to_nat len) buf in
  let e := sasl_encode (sasl_context (sbiod_pvt s)) data in
  let old := buf_out (sbiod_pvt s) in
  (exists r, buf_ptr old <> buf_end old /\ r <= 0 /\ fst res = r /\
             calls (snd res) = calls s ++ [DoWrite (buf_end old - buf_ptr old) r] /\
             sasl_context (sbiod_pvt (snd res)) = sasl_context (sbiod_pvt s)) \/
  (exists pre,
      (pre = [] /\ buf_ptr old = buf_end old \/
       exists r0, pre = [DoWrite (buf_end old - buf_ptr old) r0] /\ 0 < r0 /\
                  buf_ptr old <> buf_end old) /\
      sasl_context (sbiod_pvt (snd res)) = snd e /\
      ((fst (fst e) <> SASL_OK /\ fst res = -1 /\
        calls (snd res) = calls s ++ pre ++ [Encode data (fst (fst e))] /\
        buf_out (sbiod_pvt (snd res)) = ber_pvt_sb_buf_init /\
        errno (snd res) = errno s) \/
       (fst (fst e) = SASL_OK /\
        exists r,
          calls (snd res) =
          calls s ++ pre ++ [Encode data SASL_OK;
                             DoWrite (Z.of_nat (length (snd (fst e)))) r] /\
          (r <= 0 /\ fst res = r \/ 0 < r /\ fst res = to_slen len)))).
Proof.
  cbv zeta. unfold sb_sasl_write.
  assert (Hmain : forall (s0 : Sockbuf_IO_Desc Ctx Wr) (pre : list call),
             calls s0 = calls s ++ pre ->
             sasl_context (sbiod_pvt s0) = sasl_context (sbiod_pvt s) ->
             errno s0 = errno s ->
             let res :=
               (let s1 := set_out s0 (ber_pvt_sb_buf_destroy (buf_out (sbiod_pvt s0))) in
                let data := firstn (Z.to_nat len) buf in
                let '(rc, cipher, ctx) := sasl_encode (sasl_context (sbiod_pvt s1)) data in
                let s2 := log (set_ctx s1 ctx) (Encode data rc) in
                if negb (rc =? SASL_OK) then (-1, s2)
                else
                  let clen := Z.of_nat (length cipher) in
                  let s3 := set_out s2 (mkBuf cipher 0 clen clen) in
                  let '(ret, s4) := flush_out do_write s3 in
                  if ret <=? 0 then (ret, s4) else (to_slen len, s4)) in
             let data := firstn (Z.to_nat len) buf in
             let e := sasl_encode (sasl_context (sbiod_pvt s)) data in
             sasl_context (sbiod_pvt (snd res)) = snd e /\
             ((fst (fst e) <> SASL_OK /\ fst res = -1 /\
               calls (snd res) = calls s ++ pre ++ [Encode data (fst (fst e))] /\
               buf_out (sbiod_pvt (snd res)) = ber_pvt_sb_buf_init /\
               errno (snd res) = errno s) \/
              (fst (fst e) = SASL_OK /\
               exists r,
                 calls (snd res) =
                 calls s ++ pre ++ [Encode data SASL_OK;
                                    DoWrite (Z.of_nat (length (snd (fst e)))) r] /\
                 (r <= 0 /\ fst res = r \/ 0 < r /\ fst res = to_slen len)))).
  { intros s0 pre Hc Hx He. cbv zeta.
    cbn [set_out sbiod_pvt sasl_context]. rewrite Hx.
    destruct (sasl_encode (sasl_context (sbiod_pvt s)) (firstn (Z.to_nat len) buf))
      as [[rc cipher] ctx].
    cbn [fst snd].
    destruct (Z.eqb_spec rc SASL_OK) as [Hrc | Hrc]; cbn [negb].
    - rewrite flush_out_spec. cbn [set_out set_ctx log sbiod_pvt buf_out next_wr calls
                                    buf_end buf_ptr sasl_context].
      set (r := do_write (next_wr s0) _).
      destruct (Z.leb_spec (fst (fst r)) 0) as [Hr | Hr];
        cbn [fst snd log set_wr set_out set_ctx calls sbiod_pvt sasl_context].
      + split; [reflexivity |]. right. split; [exact Hrc |].
        exists (fst (fst r)). rewrite Hc, <- !app_assoc, Hrc, Z.sub_0_r.
        split; [reflexivity |]. left. auto.
      + split; [reflexivity |]. right. split; [exact Hrc |].
        exists (fst (fst r)). rewrite Hc, <- !app_assoc, Hrc, Z.sub_0_r.
        split; [reflexivity |]. right. auto.
    - cbn [fst snd log set_ctx set_out calls sbiod_pvt sasl_context buf_out errno].
      split; [reflexivity |]. left. rewrite Hc, <- app_assoc.
      repeat split; auto. }
  destruct (Z.eqb_spec (buf_ptr (buf_out (sbiod_pvt s))) (buf_end (buf_out (sbiod_pvt s))))
    as [Hq | Hq]; cbn [negb].
  - right. exists []. split; [left; auto |].
    apply (Hmain s []); [now rewrite app_nil_r | reflexivity | reflexivity].
  - rewrite flush_out_spec.
    set (r := do_write (next_wr s) (buf_out (sbiod_pvt s))).
    destruct (Z.leb_spec (fst (fst r)) 0) as [Hr | Hr].
    + left. exists (fst (fst r)). cbn. auto.
    + right. eexists. split; [right; exists (fst (fst r)); eauto |].
      apply Hmain; reflexivity.
Qed.

(** X21.  [sb_sasl_write] reports a positive count only for a whole
    write: the count is [len], never a part of it; the data were encoded
    once, with success; and the flush of the new packet, the last call,
    reported a positive count.  A flush of an older packet comes before
    the encode. *)
Theorem sb_sasl_write_positive (s : Sockbuf_IO_Desc Ctx Wr) (buf : list byte) (len : Z) :
  let res := sb_sasl_write sasl_encode do_write s buf len in
  0 < fst res ->
  let data := firstn (Z.to_nat len) buf in
  let e := sasl_encode (sasl_context (sbiod_pvt s)) data in
  fst res = to_slen len /\
  fst (fst e) = SASL_OK /\
  sasl_context (sbiod_pvt (snd res)) = snd e /\
  exists pre r,
    calls (snd res) =
    calls s ++ pre ++ [Encode data SASL_OK;
                       DoWrite (Z.of_nat (length (snd (fst e)))) r] /\
    0 < r /\ filter is_encode pre = [].
Proof.
  cbv zeta. intros Hpos.
  destruct (sb_sasl_write_cases s buf len)
    as [(r & _ & Hr & Hres & _) | (pre & Hpre & Hctx & [(_ & Hres & _) | (Hok & r & Hc & Hr)])].
  - lia.
  - lia.
  - destruct Hr as [[Hr Hres] | [Hr Hres]]; [lia |].
    split; [exact Hres |]. split; [exact Hok |]. split; [exact Hctx |].
    exists pre, r. split; [exact Hc |]. split; [exact Hr |].
    destruct Hpre as [[-> _] | (r0 & -> & _)]; reflexivity.
Qed.

(** X22.  When the provider fails to encode, [sb_sasl_write] returns -1
    with the encode as its last call: the new data reach the next layer
    in no form, the output buffer is left empty and [errno] is left as
    it was. *)
Theorem sb_sasl_write_encode_failure (s : Sockbuf_IO_Desc Ctx Wr) (buf : list byte)
    (len : Z) (data : list byte) (rc : Z) :
  let res := sb_sasl_write sasl_encode do_write s buf len in
  In (Encode data rc) (skipn (length (calls s)) (calls (snd res))) ->
  rc <> SASL_OK ->
  fst res = -1 /\
  (exists pre, calls (snd res) = calls s ++ pre ++ [Encode data rc] /\
               filter is_encode pre = []) /\
  data = firstn (Z.to_nat len) buf /\
  buf_out (sbiod_pvt (snd res)) = ber_pvt_sb_buf_init /\
  errno (snd res) = errno s.
Proof.
  cbv zeta. intros Hin Hrc.
  assert (Hskip : forall l : list call, skipn (length (calls s)) (calls s ++ l) = l).
  { intros l. rewrite skipn_app, skipn_all, Nat.sub_diag. reflexivity. }
  assert (Hpre0 : forall pre,
             (pre = [] /\ buf_ptr (buf_out (sbiod_pvt s)) = buf_end (buf_out (sbiod_pvt s)) \/
              exists r0, pre = [DoWrite (buf_end (buf_out (sbiod_pvt s)) -
                                         buf_ptr (buf_out (sbiod_pvt s))) r0] /\ 0 < r0 /\
                         buf_ptr (buf_out (sbiod_pvt s)) <>
                         buf_end (buf_out (sbiod_pvt s))) ->
             filter is_encode pre = [] /\ ~ In (Encode data rc) pre).
  { intros pre [[-> _] | (r0 & -> & _)]; split; try reflexivity.
    - intros [].
    - intros [H | []]. discriminate H. }
  destruct (sb_sasl_write_cases s buf len)
    as [(r & _ & _ & _ & Hc & _) |
        (pre & Hpre & Hctx & [(Hne & Hres & Hc & Hout & Herr) | (Hok & r & Hc & Hr)])].
  - rewrite Hc, Hskip in Hin. destruct Hin as [H | []]. discriminate H.
  - destruct (Hpre0 pre Hpre) as [Hf Hnin].
    rewrite Hc, Hskip in Hin. apply in_app_or in Hin.
    destruct Hin as [Hin | [Hin | []]]; [contradiction |].
    injection Hin as <- <-.
    split; [exact Hres |]. split; [exists pre; auto |]. auto.
  - destruct (Hpre0 pre Hpre) as [Hf Hnin].
    rewrite Hc, Hskip in Hin. apply in_app_or in Hin.
    destruct Hin as [Hin | [Hin | [Hin | []]]]; [contradiction | | discriminate Hin].
    injection Hin as _ <-. contradiction.
Qed.

End WriteResult.

(** [sb_sasl_write_positive] on a layer with eight bytes of an old
    packet pending and a next layer that takes them and then the new
    packet. *)
Lemma sb_sasl_write_positive_witness :
  let s := mkIod (sbiod_pvt sample_pending) [] [8; 2] 0 [] in
  let res := sb_sasl_write sample_encode sb_do_write_model s [x41; x42] 2 in
  0 < fst res /\ fst res = to_slen 2.
Proof.
  cbv zeta.
  assert (Hpos : 0 < fst (sb_sasl_write sample_encode sb_do_write_model
                            (mkIod (sbiod_pvt sample_pending) [] [8; 2] 0 [])
                            [x41; x42] 2)) by reflexivity.
  split; [exact Hpos |].
  exact (proj1 (sb_sasl_write_positive sample_encode sb_do_write_model _ _ _ Hpos)).
Defined.

(** [sb_sasl_write_encode_failure] on the fresh layer with a provider
    that refuses to encode. *)
Lemma sb_sasl_write_encode_failure_witness :
  let s := sample_reader [] in
  let refuse := fun (c : unit) (_ : list byte) => (SASL_FAIL, @nil byte, c) in
  let res := sb_sasl_write refuse sb_do_write_model s [x41; x42] 2 in
  fst res = -1 /\ buf_out (sbiod_pvt (snd res)) = ber_pvt_sb_buf_init.
Proof.
  cbv zeta.
  assert (Hin : In (Encode [x41; x42] SASL_FAIL)
                   (skipn (length (calls (sample_reader [])))
                          (calls (snd (sb_sasl_write
                                         (fun (c : unit) (_ : list byte) =>
                                            (SASL_FAIL, @nil byte, c))
                                         sb_do_write_model (sample_reader [])
                                         [x41; x42] 2)))))
    by (cbn; tauto).
  assert (Hrc : SASL_FAIL <> SASL_OK) by discriminate.
  destruct (sb_sasl_write_encode_failure _ sb_do_write_model _ _ _ _ _ Hin Hrc)
    as (A & _ & _ & B & _).
  split; [exact A | exact B].
Defined.

(** ** The layer: reading *)

Lemma passes_no_grow (rds : list call) :
  forallb passes rds = true -> filter is_grow rds = [] /\ filter is_decode rds = [].
Proof.
  induction rds as [| c rds IH]; [auto |].
  cbn [forallb]. intros H. apply andb_true_iff in H. destruct H as [Hc Hr].
  destruct (IH Hr) as [A B].
  destruct c; try discriminate Hc; cbn [filter is_grow is_decode]; auto.
Qed.

Section ReadFrame.

Context {Ctx Wr : Type}.
Variable sasl_decode : Ctx -> list byte -> Z * list byte * Ctx.
Variable realloc : Z -> option Z.

Local Abbreviation state := (Sockbuf_IO_Desc Ctx Wr).

(** The part of [sb_sasl_read] after the buffer was sized asks for no
    growth and leaves the capacity of the staging buffer alone. *)
Lemma sb_sasl_read_body_frame (s : state) (out : list byte) (bufptr len : Z) :
  exists ret out' s' evs,
    sb_sasl_read_body sasl_decode s out bufptr len = Some (ret, out', s') /\
    calls s' = calls s ++ evs /\
    filter is_grow evs = [] /\
    buf_size (sec s') = buf_size (sec s).
Proof.
  unfold sb_sasl_read_body.
  pose proof (read_pkt_body_spec (S (transport_cost (next_rd s))) s
                                 (Nat.lt_succ_diag_r _)) as Hpost.
  destruct (read_pkt_body (S (transport_cost (next_rd s))) s) as [ret s1 | s1 |];
    cbn [loop_post] in Hpost.
  - destruct Hpost as (rds & l & Hc & Hp & _ & _ & Hf).
    exists ret, out, s1, (rds ++ [ReadNext l ret (errno s1)]).
    split; [reflexivity |]. split; [exact Hc |].
    destruct (passes_no_grow rds Hp) as [Hg _].
    split.
    + rewrite filter_app, Hg. reflexivity.
    + apply Hf.
  - destruct Hpost as (rds & Hc & Hp & Hf).
    destruct (passes_no_grow rds Hp) as [Hg _].
    pose proof (sb_sasl_read_decode_spec sasl_decode s1 out bufptr len) as Hd.
    cbv zeta in Hd. destruct Hd as (Hcd & Hsec & _).
    destruct (sb_sasl_read_decode sasl_decode s1 out bufptr len) as [[ret out'] s'].
    cbn [fst snd] in Hcd, Hsec.
    eexists ret, out', s', (rds ++ [_]).
    split; [reflexivity |]. split; [rewrite Hcd, Hc, <- app_assoc; reflexivity |].
    split.
    + rewrite filter_app, Hg. reflexivity.
    + rewrite Hsec. cbn [sb_sasl_drop_packet buf_size]. apply Hf.
  - contradiction.
Qed.

(** X24.  One call of [sb_sasl_read] asks for at most one growth of the
    staging buffer, for a capacity between 4 and 65540 bytes that is
    larger than the capacity it has, whatever the four bytes of the
    header say.  A growth that is refused ends the call with -1 and
    [ENOMEM] and leaves the capacity as it was; a growth that is granted
    leaves a capacity of at least the one asked for.  The capacity
    never shrinks, and without a growth it does not change. *)
Theorem sb_sasl_read_growth (s : state) (len : Z) :
  exists ret out s' evs,
    sb_sasl_read sasl_decode realloc s len = Some (ret, out, s') /\
    calls s' = calls s ++ evs /\
    buf_size (sec s) <= buf_size (sec s') /\
    (forall m ok,
        In (Grow m ok) evs ->
        4 <= m <= 65540 /\ buf_size (sec s) < m /\
        filter is_grow evs = [Grow m ok] /\
        (if ok then m <= buf_size (sec s')
         else ret = -1 /\ errno s' = ENOMEM /\ buf_size (sec s') = buf_size (sec s) /\
              exists pre, evs = pre ++ [Grow m false])) /\
    (filter is_grow evs = [] -> buf_size (sec s') = buf_size (sec s)).
Proof.
  unfold sb_sasl_read.
  destruct (ber_pvt_sb_copy_out (buf_in (sbiod_pvt s)) len) as [[ret0 out0] bin] eqn:Hco.
  destruct (to_len (len - ret0) =? 0).
  { exists ret0, out0, (set_in s bin), [].
    split; [reflexivity |]. split; [cbn; now rewrite app_nil_r |].
    split; [change (sec (set_in s bin)) with (sec s); lia |].
    split; [intros m ok [] | reflexivity]. }
  set (s0 := set_in s (ber_pvt_sb_buf_destroy bin)).
  assert (Hs0 : calls s0 = calls s /\ buf_size (sec s0) = buf_size (sec s)) by (split; reflexivity).
  destruct Hs0 as [Hc0 Hz0].
  pose proof (read_pkt_header_spec (S (transport_cost (next_rd s0))) s0
                                   (Nat.lt_succ_diag_r _)) as Hpost.
  destruct (read_pkt_header (S (transport_cost (next_rd s0))) s0) as [ret s1 | s1 |];
    cbn [loop_post] in Hpost.
  - destruct Hpost as (rds & l & Hc & Hp & _ & _ & Hf).
    destruct (passes_no_grow rds Hp) as [Hg _].
    assert (Hnone : filter is_grow (rds ++ [ReadNext l ret (errno s1)]) = [])
      by (rewrite filter_app, Hg; reflexivity).
    assert (Hz1 : buf_size (sec s1) = buf_size (sec s)) by (rewrite <- Hz0; apply Hf).
    exists ret, out0, s1, (rds ++ [ReadNext l ret (errno s1)]).
    split; [reflexivity |]. split; [rewrite Hc, Hc0; reflexivity |].
    split; [lia |].
    split.
    + intros m ok Hin.
      assert (Hin' : In (Grow m ok) (filter is_grow (rds ++ [ReadNext l ret (errno s1)])))
        by (apply filter_In; auto).
      rewrite Hnone in Hin'. contradiction.
    + intros _. exact Hz1.
  - destruct Hpost as (rds & Hc & Hp & Hf).
    destruct (passes_no_grow rds Hp) as [Hg _].
    assert (Hz1 : buf_size (sec s1) = buf_size (sec s)) by (rewrite <- Hz0; apply Hf).
    pose proof (sb_sasl_pkt_length_bounds (buf_base (sec s1))) as Hb.
    set (n := sb_sasl_pkt_length (buf_base (sec s1))) in *.
    assert (Hn : to_slen n = n) by (apply to_slen_small; lia).
    rewrite Hn.
    destruct (Z.ltb_spec (buf_size (sec s1)) n) as [Hlt | Hge].
    + unfold ber_pvt_sb_grow_buffer. destruct (realloc n) as [cap |] eqn:Hre.
      * cbv zeta.
        set (s2 := set_sec (log (set_sec s1 _) (Grow n true)) _).
        destruct (sb_sasl_read_body_frame s2 out0 ret0 (to_len (len - ret0)))
          as (ret & out' & s' & evs & Hrun & Hce & Hge & Hze).
        exists ret, out', s', (rds ++ Grow n true :: evs).
        split; [exact Hrun |].
        assert (Hc2 : calls s2 = calls s ++ rds ++ [Grow n true]).
        { subst s2. cbn [calls set_sec log]. rewrite Hc, Hc0, <- app_assoc. reflexivity. }
        split; [rewrite Hce, Hc2, <- !app_assoc; reflexivity |].
        assert (Hfil : filter is_grow (rds ++ Grow n true :: evs) = [Grow n true]).
        { rewrite filter_app, Hg. cbn [filter is_grow app]. rewrite Hge. reflexivity. }
        assert (Hz2 : buf_size (sec s') = Z.max (buf_size (sec s1)) (Z.max n cap)).
        { rewrite Hze. subst s2. cbn [sec set_sec log sbiod_pvt sec_buf_in buf_size].
          reflexivity. }
        split; [lia |].
        split.
        -- intros m ok Hin.
           assert (Hin' : In (Grow m ok) (filter is_grow (rds ++ Grow n true :: evs)))
             by (apply filter_In; auto).
           rewrite Hfil in Hin'. destruct Hin' as [Hin' | []]. injection Hin' as <- <-.
           split; [lia |]. split; [lia |]. split; [exact Hfil | lia].
        -- intros H. rewrite Hfil in H. discriminate H.
      * exists (-1), out0, (set_errno (log s1 (Grow n false)) ENOMEM), (rds ++ [Grow n false]).
        split; [reflexivity |].
        split; [cbn [calls set_errno log]; rewrite Hc, Hc0, <- app_assoc; reflexivity |].
        assert (Hfil : filter is_grow (rds ++ [Grow n false]) = [Grow n false])
          by (rewrite filter_app, Hg; reflexivity).
        split; [change (buf_size (sec (set_errno (log s1 (Grow n false)) ENOMEM)))
                  with (buf_size (sec s1)); lia |].
        split.
        -- intros m ok Hin.
           assert (Hin' : In (Grow m ok) (filter is_grow (rds ++ [Grow n false])))
             by (apply filter_In; auto).
           rewrite Hfil in Hin'. destruct Hin' as [Hin' | []]. injection Hin' as <- <-.
           split; [lia |]. split; [lia |]. split; [exact Hfil |].
           split; [reflexivity |]. split; [reflexivity |].
           split; [exact Hz1 | exists rds; reflexivity].
        -- intros H. rewrite Hfil in H. discriminate H.
    + set (s2 := set_sec s1 _).
      destruct (sb_sasl_read_body_frame s2 out0 ret0 (to_len (len - ret0)))
        as (ret & out' & s' & evs & Hrun & Hce & Hge' & Hze).
      exists ret, out', s', (rds ++ evs).
      split; [exact Hrun |].
      split; [rewrite Hce; subst s2; cbn [calls set_sec]; rewrite Hc, Hc0, <- app_assoc;
              reflexivity |].
      assert (Hfil : filter is_grow (rds ++ evs) = [])
        by (rewrite filter_app, Hg, Hge'; reflexivity).
      assert (Hz2 : buf_size (sec s') = buf_size (sec s)).
      { rewrite Hze. subst s2. cbn [sec set_sec sbiod_pvt sec_buf_in buf_size].
        exact Hz1. }
      split; [lia |].
      split.
      * intros m ok Hin.
        assert (Hin' : In (Grow m ok) (filter is_grow (rds ++ evs)))
          by (apply filter_In; auto).
        rewrite Hfil in Hin'. contradiction.
      * intros _. exact Hz2.
  - contradiction.
Qed.

(** A request that the bytes held in [buf_in] can serve. *)
Lemma sb_sasl_read_ready_run (s : state) (len : Z) :
  0 < len < 2 ^ 32 ->
  len <= buf_end (buf_in (sbiod_pvt s)) - buf_ptr (buf_in (sbiod_pvt s)) ->
  let b := buf_in (sbiod_pvt s) in
  sb_sasl_read sasl_decode realloc s len =
  Some (len, mem_range (buf_base b) (buf_ptr b) (buf_ptr b + len),
        set_in s (mkBuf (buf_base b) (buf_ptr b + len) (buf_end b) (buf_size b))).
Proof.
  intros Hlen Hav b. unfold sb_sasl_read, ber_pvt_sb_copy_out. fold b.
  change (buf_in (sbiod_pvt s)) with b in Hav.
  replace (Z.max 0 (Z.min (buf_end b - buf_ptr b) len)) with len by lia.
  rewrite Z.sub_diag. change (to_len 0 =? 0) with true. cbv iota.
  unfold mem_range. replace (buf_ptr b + len - buf_ptr b) with len by lia. reflexivity.
Qed.

(** X23.  A request that the decoded bytes still held in [buf_in] can
    serve is served from them alone: [sb_sasl_read] returns [len] with
    the next [len] bytes of the buffer, calls neither the next layer nor
    the provider, and leaves the staging buffer and [errno] alone.
    Afterwards [sb_sasl_ctrl] answers the data-ready question with 1
    when bytes remain, and passes it to the next layer when the request
    took the last one. *)
Theorem sb_sasl_read_ready (s : state) (len : Z) :
  0 < len < 2 ^ 32 ->
  len <= buf_end (buf_in (sbiod_pvt s)) - buf_ptr (buf_in (sbiod_pvt s)) ->
  let b := buf_in (sbiod_pvt s) in
  exists s',
    sb_sasl_read sasl_decode realloc s len =
    Some (len, mem_range (buf_base b) (buf_ptr b) (buf_ptr b + len), s') /\
    calls s' = calls s /\ next_rd s' = next_rd s /\ sec s' = sec s /\
    errno s' = errno s /\ sasl_context (sbiod_pvt s') = sasl_context (sbiod_pvt s) /\
    buf_in (sbiod_pvt s') = mkBuf (buf_base b) (buf_ptr b + len) (buf_end b) (buf_size b) /\
    forall next,
      sb_sasl_ctrl s' LBER_SB_OPT_DATA_READY next =
      if len <? buf_end b - buf_ptr b then 1 else next.
Proof.
  intros Hlen Hav b.
  eexists. split; [apply (sb_sasl_read_ready_run s len Hlen Hav) |].
  subst b.
  cbn [calls next_rd sec errno set_in sbiod_pvt sec_buf_in buf_in sasl_context].
  repeat split.
  intros next. unfold sb_sasl_ctrl.
  cbn [set_in sbiod_pvt buf_in buf_ptr buf_end].
  destruct (Z.ltb_spec len (buf_end (buf_in (sbiod_pvt s)) - buf_ptr (buf_in (sbiod_pvt s))))
    as [Hl | Hl];
    destruct (Z.eqb_spec (buf_ptr (buf_in (sbiod_pvt s)) + len)
                         (buf_end (buf_in (sbiod_pvt s)))) as [He | He];
    cbn [negb]; try reflexivity; lia.
Qed.

End ReadFrame.

(** [sb_sasl_read_ready] on a layer that holds three decoded bytes, for
    a request of two. *)
Lemma sb_sasl_read_ready_witness :
  let s := mkIod (mkData tt (mkBuf (repeat x00 4096) 0 0 4096)
                         (mkBuf [x0a; x0b; x0c] 0 3 3) ber_pvt_sb_buf_init)
                 [RdEof] ([] : list Z) 0 [] in
  exists s',
    sb_sasl_read reject_all (fun n => Some n) s 2 = Some (2, [x0a; x0b], s') /\
    calls s' = [] /\
    sb_sasl_ctrl s' LBER_SB_OPT_DATA_READY 0 = 1.
Proof.
  cbv zeta.
  destruct (sb_sasl_read_ready reject_all (fun n => Some n)
              (mkIod (mkData tt (mkBuf (repeat x00 4096) 0 0 4096)
                             (mkBuf [x0a; x0b; x0c] 0 3 3) ber_pvt_sb_buf_init)
                     [RdEof] ([] : list Z) 0 []) 2)
    as (s' & Hrun & Hc & _ & _ & _ & _ & _ & Hctrl).
  - lia.
  - cbn. lia.
  - exists s'. split; [exact Hrun |]. split; [exact Hc |]. exact (Hctrl 0).
Defined.

(** ** Reassembling a packet *)

Lemma take_bytes_cons (b : byte) (bs : list byte) (t : transport) (n : nat) :
  take_bytes (RdData (b :: bs) :: t) (S n) =
  if (length (b :: bs) <=? S n)%nat then
    match take_bytes t (S n - length (b :: bs)) with
    | Some (rest, t'') => Some ((b :: bs) ++ rest, t'')
    | None => None
    end
  else Some (firstn (S n) (b :: bs), RdData (skipn (S n) (b :: bs)) :: t).
Proof. reflexivity. Qed.

Lemma take_bytes_length (t : transport) :
  forall (n : nat) (rest : list byte) (t' : transport),
    take_bytes t n = Some (rest, t') -> length rest = n.
Proof.
  induction t as [| ev t IH]; intros [| n] rest t' H.
  - injection H as <- _. reflexivity.
  - discriminate H.
  - injection H as <- _. reflexivity.
  - destruct ev as [[| b bs] | | r0 e0]; try discriminate H.
    rewrite take_bytes_cons in H.
    destruct (Nat.leb_spec (length (b :: bs)) (S n)) as [Hle | Hgt].
    + destruct (take_bytes t (S n - length (b :: bs))) as [[rest2 t''] |] eqn:Ht;
        [| discriminate H].
      injection H as <- _. cbn [length app] in *.
      rewrite length_app, (IH _ _ _ Ht). lia.
    + pose proof (length_firstn (S n) (b :: bs)) as Hl.
      injection H as <- _. cbn [length firstn] in *. lia.
Qed.

(** One read of the next layer for the [S k] bytes still missing, on a
    stream that holds them. *)
Lemma take_bytes_step (t : transport) (e : Z) (k : nat) (rest : list byte)
    (t' : transport) :
  take_bytes t (S k) = Some (rest, t') ->
  exists got rest2 t2,
    LBER_SBIOD_READ_NEXT t e (Z.of_nat (S k)) = (Z.of_nat (length got), got, e, t2) /\
    (0 < length got <= S k)%nat /\
    rest = got ++ rest2 /\
    take_bytes t2 (S k - length got) = Some (rest2, t') /\
    (transport_cost t2 < transport_cost t)%nat.
Proof.
  destruct t as [| [[| b bs] | | r0 e0] t1]; try discriminate.
  rewrite take_bytes_cons. unfold LBER_SBIOD_READ_NEXT. rewrite Nat2Z.id.
  destruct (Nat.leb_spec (length (b :: bs)) (S k)) as [Hle | Hgt].
  - destruct (take_bytes t1 (S k - length (b :: bs))) as [[rest2 t''] |] eqn:Ht;
      [| discriminate].
    intros H. injection H as <- <-.
    exists (b :: bs), rest2, t1.
    rewrite firstn_all2 by exact Hle. rewrite skipn_all2 by exact Hle.
    split; [reflexivity |]. split; [cbn [length] in *; lia |].
    split; [reflexivity |]. split; [exact Ht |].
    cbn [transport_cost]. lia.
  - intros H. injection H as <- <-.
    assert (Hlen : length (firstn (S k) (b :: bs)) = S k)
      by (rewrite length_firstn; lia).
    assert (Hsk : length (skipn (S k) (b :: bs)) = (length (b :: bs) - S k)%nat)
      by apply length_skipn.
    exists (firstn (S k) (b :: bs)), [], (RdData (skipn (S k) (b :: bs)) :: t1).
    split.
    + destruct (skipn (S k) (b :: bs)) as [| x xs] eqn:Hs.
      * cbn [length] in Hsk, Hgt. lia.
      * reflexivity.
    + split; [lia |]. split; [now rewrite app_nil_r |].
      split; [rewrite Hlen, Nat.sub_diag; reflexivity |].
      cbn [transport_cost]. lia.
Qed.

Lemma mem_write_in_range (base : list byte) (off : nat) (data : list byte) :
  (off + length data <= length base)%nat ->
  length (mem_write base off data) = length base /\
  firstn (off + length data) (mem_write base off data) = firstn off base ++ data /\
  forall e, (off + length data <= e)%nat ->
            skipn e (mem_write base off data) = skipn e base.
Proof.
  intros Hin. unfold mem_write.
  assert (Hf : length (firstn off base) = off) by (rewrite length_firstn; lia).
  split; [| split].
  - rewrite !length_app, Hf, length_skipn. lia.
  - rewrite app_assoc.
    rewrite firstn_app.
    rewrite length_app, Hf.
    rewrite Nat.sub_diag, firstn_O, app_nil_r.
    apply firstn_all2. rewrite length_app, Hf. lia.
  - intros e He. rewrite app_assoc, skipn_app.
    rewrite length_app, Hf.
    rewrite skipn_all2 by (rewrite length_app, Hf; lia).
    rewrite skipn_skipn. cbn [app]. f_equal. lia.
Qed.

Section Reassembly.

Context {Ctx Wr : Type}.
Variable sasl_decode : Ctx -> list byte -> Z * list byte * Ctx.
Variable realloc : Z -> option Z.

Local Abbreviation state := (Sockbuf_IO_Desc Ctx Wr).

(** The body loop on a stream that holds the bytes missing from the
    frame, in any number of reads: it leaves with the frame complete,
    the bytes in stream order behind those already staged. *)
Lemma read_pkt_body_reassembles (fuel : nat) :
  forall (s : state) (rest : list byte) (t' : transport),
    0 <= buf_ptr (sec s) <= buf_end (sec s) ->
    buf_end (sec s) < 2 ^ 31 ->
    buf_end (sec s) <= Z.of_nat (length (buf_base (sec s))) ->
    take_bytes (next_rd s) (Z.to_nat (buf_end (sec s) - buf_ptr (sec s))) =
    Some (rest, t') ->
    (transport_cost (next_rd s) < fuel)%nat ->
    exists s',
      read_pkt_body fuel s = Continue s' /\
      next_rd s' = t' /\ errno s' = errno s /\ same_frame s s' /\
      buf_ptr (sec s') = buf_end (sec s) /\
      buf_base (sec s') =
        firstn (Z.to_nat (buf_ptr (sec s))) (buf_base (sec s)) ++ rest ++
        skipn (Z.to_nat (buf_end (sec s))) (buf_base (sec s)) /\
      exists rds, calls s' = calls s ++ rds /\ forallb passes rds = true.
Proof.
  induction fuel as [| fuel IH]; intros s rest t' Hp He Hlen Htake Hfuel; [lia |].
  cbn [read_pkt_body].
  destruct (Z.ltb_spec (buf_ptr (sec s)) (buf_end (sec s))) as [Hlt | Hge].
  - destruct (Z.to_nat (buf_end (sec s) - buf_ptr (sec s))) as [| k] eqn:Hk; [lia |].
    destruct (take_bytes_step _ (errno s) _ _ _ Htake)
      as (got & rest2 & t2 & Hrd & Hgot & -> & Ht2 & Hcost).
    rewrite to_slen_small by lia.
    replace (buf_end (sec s) - buf_ptr (sec s)) with (Z.of_nat (S k)) by lia.
    unfold read_next_into. rewrite Hrd.
    cbn [errno].
    destruct (Z.ltb_spec (Z.of_nat (length got)) 0) as [Hneg | _]; [lia |].
    cbn [andb].
    destruct (Z.leb_spec (Z.of_nat (length got)) 0) as [Hz | _]; [lia |].
    destruct (mem_write_in_range (buf_base (sec s)) (Z.to_nat (buf_ptr (sec s))) got
                                 ltac:(lia)) as (Hwl & Hwf & Hws).
    match goal with
    | |- exists s', read_pkt_body fuel ?x = _ /\ _ => set (s2 := x)
    end.
    assert (Hsec2 : sec s2 = mkBuf (mem_write (buf_base (sec s))
                                              (Z.to_nat (buf_ptr (sec s))) got)
                                   (buf_ptr (sec s) + Z.of_nat (length got))
                                   (buf_end (sec s)) (buf_size (sec s))).
    { subst s2. unfold advance_sec, sec, set_sec.
      cbn [sbiod_pvt sec_buf_in buf_base buf_ptr buf_end buf_size].
      change (sec_buf_in (sbiod_pvt s)) with (sec s).
      rewrite to_len_small by lia. reflexivity. }
    assert (Hrest2 : next_rd s2 = t2 /\ errno s2 = errno s /\
                     calls s2 = calls s ++ [ReadNext (Z.of_nat (S k))
                                                     (Z.of_nat (length got)) (errno s)] /\
                     sasl_context (sbiod_pvt s2) = sasl_context (sbiod_pvt s) /\
                     buf_in (sbiod_pvt s2) = buf_in (sbiod_pvt s) /\
                     buf_out (sbiod_pvt s2) = buf_out (sbiod_pvt s) /\
                     next_wr s2 = next_wr s).
    { subst s2. repeat split. }
    destruct Hrest2 as (Hn2 & He2 & Hc2 & Hx2 & Hi2 & Ho2 & Hw2).
    destruct (IH s2 rest2 t') as (s' & Hrun & Hn' & He' & Hf' & Hp' & Hb' & rds & Hc' & Hps).
    + rewrite Hsec2. cbn [buf_ptr buf_end]. lia.
    + rewrite Hsec2. cbn [buf_end]. lia.
    + rewrite Hsec2. cbn [buf_end buf_base]. rewrite Hwl. exact Hlen.
    + rewrite Hsec2, Hn2. cbn [buf_ptr buf_end].
      replace (Z.to_nat (buf_end (sec s) - (buf_ptr (sec s) + Z.of_nat (length got))))
        with (S k - length got)%nat by lia.
      exact Ht2.
    + rewrite Hn2. lia.
    + exists s'. split; [exact Hrun |]. split; [exact Hn' |].
      split; [now rewrite He', He2 |].
      rewrite Hsec2 in Hp', Hb'. cbn [buf_ptr buf_end buf_base buf_size] in Hp', Hb'.
      split.
      { destruct Hf' as (F1 & F2 & F3 & F4 & F5 & F6).
        rewrite Hsec2 in F5, F6. cbn [buf_size buf_end] in F5, F6.
        unfold same_frame. rewrite F1, F2, F3, F4, F5, F6, Hx2, Hi2, Ho2, Hw2.
        repeat split. }
      split; [exact Hp' |].
      split.
      { rewrite Hb'.
        replace (Z.to_nat (buf_ptr (sec s) + Z.of_nat (length got)))
          with (Z.to_nat (buf_ptr (sec s)) + length got)%nat by lia.
        rewrite Hwf, Hws by lia. rewrite <- !app_assoc. reflexivity. }
      exists (ReadNext (Z.of_nat (S k)) (Z.of_nat (length got)) (errno s) :: rds).
      split; [rewrite Hc', Hc2, <- app_assoc; reflexivity |].
      cbn [forallb passes]. rewrite Hps.
      destruct (Z.ltb_spec 0 (Z.of_nat (length got))) as [_ | Hno]; [reflexivity | lia].
  - replace (Z.to_nat (buf_end (sec s) - buf_ptr (sec s))) with 0%nat in Htake by lia.
    assert (Hnil : rest = [] /\ t' = next_rd s).
    { destruct (next_rd s); cbn [take_bytes] in Htake; injection Htake as <- <-; auto. }
    destruct Hnil as [-> ->].
    exists s. split; [reflexivity |]. split; [reflexivity |]. split; [reflexivity |].
    split; [apply same_frame_refl |]. split; [lia |].
    split.
    + replace (buf_end (sec s)) with (buf_ptr (sec s)) by lia.
      cbn [app]. symmetry. apply firstn_skipn.
    + exists []. rewrite app_nil_r. auto.
Qed.

(** The header loop when the first read delivers the four bytes. *)
Lemma read_pkt_header_takes (fuel : nat) (s : state)
    (b0 b1 b2 b3 : byte) (more : list byte) (t : transport) :
  next_rd s = RdData (b0 :: b1 :: b2 :: b3 :: more) :: t ->
  buf_ptr (sec s) = 0 ->
  exists s1,
    read_pkt_header (S fuel) s = Continue s1 /\
    calls s1 = calls s ++ [ReadNext 4 4 (errno s)] /\
    errno s1 = errno s /\
    same_frame s s1 /\
    buf_ptr (sec s1) = 4 /\
    buf_base (sec s1) = b0 :: b1 :: b2 :: b3 :: skipn 4 (buf_base (sec s)) /\
    next_rd s1 = match more with [] => t | _ :: _ => RdData more :: t end.
Proof.
  intros Hrd Hptr.
  destruct s as [[ctx sb bi bo] rd wr e cs]. destruct sb as [base ptr ed size].
  cbn in Hrd, Hptr. subst rd ptr.
  eexists. split.
  - cbn -[read_pkt_header].
    cbn [read_pkt_header sec sbiod_pvt sec_buf_in buf_ptr Z.ltb Z.compare].
    unfold read_next_into. cbn -[read_pkt_header].
    change (Pos.to_nat 4) with 4%nat. cbn -[read_pkt_header].
    apply read_pkt_header_done. cbn. lia.
  - cbn. repeat split.
Qed.

(** [sb_sasl_read] from the body loop on, for a stream that holds the
    bytes missing from the frame. *)
Lemma sb_sasl_read_body_reassembles (s : state) (out : list byte) (bufptr len : Z)
    (rest : list byte) (t' : transport) :
  0 <= buf_ptr (sec s) <= buf_end (sec s) ->
  buf_end (sec s) < 2 ^ 31 ->
  buf_end (sec s) <= Z.of_nat (length (buf_base (sec s))) ->
  take_bytes (next_rd s) (Z.to_nat (buf_end (sec s) - buf_ptr (sec s))) =
  Some (rest, t') ->
  let pkt := firstn (Z.to_nat (buf_ptr (sec s))) (buf_base (sec s)) ++ rest in
  let r := sasl_decode (sasl_context (sbiod_pvt s)) pkt in
  let plain := snd (fst r) in
  let plen := Z.of_nat (length plain) in
  let c := ber_pvt_sb_copy_out
             (mkBuf plain (buf_ptr (buf_in (sbiod_pvt s))) plen plen) len in
  exists ret out' s' evs,
    sb_sasl_read_body sasl_decode s out bufptr len = Some (ret, out', s') /\
    calls s' = calls s ++ evs /\
    filter is_decode evs = [Decode pkt (fst (fst r))] /\
    next_rd s' = t' /\
    staged_empty (sec s') = true /\
    sasl_context (sbiod_pvt s') = snd r /\
    (fst (fst r) <> SASL_OK -> ret = -1 /\ out' = out /\ errno s' = EIO) /\
    (fst (fst r) = SASL_OK ->
     ret = to_slen (bufptr + fst (fst c)) /\ out' = out ++ snd (fst c) /\
     buf_in (sbiod_pvt s') = snd c /\ errno s' = errno s).
Proof.
  intros Hp He Hlen Htake. cbv zeta.
  destruct (read_pkt_body_reassembles (S (transport_cost (next_rd s))) s rest t'
              Hp He Hlen Htake (Nat.lt_succ_diag_r _))
    as (s4 & Hrun & Hn4 & He4 & Hf4 & Hp4 & Hb4 & rds & Hc4 & Hps).
  unfold sb_sasl_read_body. rewrite Hrun.
  destruct Hf4 as (F1 & F2 & F3 & F4 & F5 & F6).
  assert (Hrest : length rest = Z.to_nat (buf_end (sec s) - buf_ptr (sec s)))
    by apply (take_bytes_length _ _ _ _ Htake).
  assert (Hpkt : firstn (Z.to_nat (buf_end (sec s4))) (buf_base (sec s4)) =
                 firstn (Z.to_nat (buf_ptr (sec s))) (buf_base (sec s)) ++ rest).
  { rewrite F6, Hb4, app_assoc.
    assert (Hl : length (firstn (Z.to_nat (buf_ptr (sec s))) (buf_base (sec s)) ++ rest) =
                 Z.to_nat (buf_end (sec s)))
      by (rewrite length_app, length_firstn; lia).
    rewrite firstn_app, Hl, Nat.sub_diag, firstn_O, app_nil_r.
    apply firstn_all2. lia. }
  unfold sb_sasl_read_decode. rewrite Hpkt, F1.
  set (pkt := firstn (Z.to_nat (buf_ptr (sec s))) (buf_base (sec s)) ++ rest).
  destruct (sasl_decode (sasl_context (sbiod_pvt s)) pkt) as [[rc plain] ctx'].
  cbn [fst snd].
  assert (Hdrop : sb_sasl_drop_packet (sec s4) =
                  mkBuf (buf_base (sec s4)) 0 0 (buf_size (sec s4)))
    by (apply sb_sasl_drop_packet_exact; rewrite Hp4, F6; reflexivity).
  destruct (passes_no_grow rds Hps) as [_ Hnd].
  destruct (Z.eqb_spec rc SASL_OK) as [Hrc | Hrc]; cbn [negb].
  - cbn [set_in set_sec log set_ctx sbiod_pvt buf_in sec sec_buf_in].
    change (sec_buf_in (sbiod_pvt s4)) with (sec s4). rewrite Hdrop, F2.
    destruct (ber_pvt_sb_copy_out
                (mkBuf plain (buf_ptr (buf_in (sbiod_pvt s)))
                       (Z.of_nat (length plain)) (Z.of_nat (length plain))) len)
      as [[n out2] bin] eqn:Hco.
    cbn [fst snd].
    eexists _, _, _, (rds ++ [Decode pkt rc]).
    split; [reflexivity |].
    cbn [set_in set_sec log set_ctx calls next_rd errno sec sbiod_pvt sec_buf_in buf_in
         sasl_context staged_empty buf_ptr buf_end].
    split; [rewrite Hc4, <- app_assoc; reflexivity |].
    split; [rewrite filter_app, Hnd; reflexivity |].
    split; [exact Hn4 |]. split; [reflexivity |]. split; [reflexivity |].
    split; [intros H; contradiction |].
    intros _. repeat split. exact He4.
  - eexists _, _, _, (rds ++ [Decode pkt rc]).
    split; [reflexivity |].
    cbn [set_errno set_sec log set_ctx calls next_rd errno sec sbiod_pvt sec_buf_in
         sasl_context].
    change (sec_buf_in (sbiod_pvt s4)) with (sec s4). rewrite Hdrop.
    split; [rewrite Hc4, <- app_assoc; reflexivity |].
    split; [rewrite filter_app, Hnd; reflexivity |].
    split; [exact Hn4 |]. split; [reflexivity |]. split; [reflexivity |].
    split; [intros _; repeat split | intros H; contradiction].
Qed.

(** X25.  [sb_sasl_read] reassembles a packet.  When the staging
    buffer is empty, the first read of the next layer delivers the four
    bytes of a header that announces [n] bytes, at most 65536, and the
    stream holds the [n] bytes that follow, in any number of reads,
    then the provider is handed exactly the header and those [n] bytes
    in order, once; the stream is left behind the packet and the staging
    buffer empty.  If the provider accepts, the call returns the first
    [len] bytes it decoded (all of them if there are fewer) and keeps
    the others, which later calls deliver in order without reading the
    next layer; if it refuses, the call returns -1 with [EIO]. *)
Theorem sb_sasl_read_reassembles (s : state) (len : Z)
    (b0 b1 b2 b3 : byte) (more body : list byte) (t t' : transport) :
  let n := be_value [b0; b1; b2; b3] in
  let pkt := b0 :: b1 :: b2 :: b3 :: body in
  next_rd s = RdData (b0 :: b1 :: b2 :: b3 :: more) :: t ->
  take_bytes (match more with [] => t | _ :: _ => RdData more :: t end) (Z.to_nat n) =
  Some (body, t') ->
  n <= MAX_BUFF_SIZE ->
  buf_ptr (sec s) = 0 ->
  4 <= buf_size (sec s) ->
  Z.of_nat (length (buf_base (sec s))) = buf_size (sec s) ->
  (buf_size (sec s) < n + 4 -> realloc (n + 4) <> None) ->
  buf_ptr (buf_in (sbiod_pvt s)) = buf_end (buf_in (sbiod_pvt s)) ->
  0 < len < 2 ^ 31 ->
  let r := sasl_decode (sasl_context (sbiod_pvt s)) pkt in
  let plain := snd (fst r) in
  let plen := Z.of_nat (length plain) in
  exists ret out s' evs,
    sb_sasl_read sasl_decode realloc s len = Some (ret, out, s') /\
    calls s' = calls s ++ evs /\
    filter is_decode evs = [Decode pkt (fst (fst r))] /\
    next_rd s' = t' /\
    staged_empty (sec s') = true /\
    sasl_context (sbiod_pvt s') = snd r /\
    (fst (fst r) <> SASL_OK -> ret = -1 /\ out = [] /\ errno s' = EIO) /\
    (fst (fst r) = SASL_OK ->
     ret = Z.min len plen /\ out = firstn (Z.to_nat len) plain /\
     errno s' = errno s /\
     forall len2,
       0 < len2 < 2 ^ 32 ->
       len2 <= plen - len ->
       exists s'',
         sb_sasl_read sasl_decode realloc s' len2 =
         Some (len2, mem_range plain len (len + len2), s'') /\
         calls s'' = calls s' /\ next_rd s'' = t').
Proof.
  intros n pkt Hrd Htake Hmax Hptr Hsize Hlen Hre Hin Hl r plain plen.
  pose proof (be_value_range b0 b1 b2 b3) as Hn. fold n in Hn.
  unfold MAX_BUFF_SIZE in Hmax.
  unfold sb_sasl_read at 1. unfold ber_pvt_sb_copy_out.
  replace (Z.max 0 (Z.min (buf_end (buf_in (sbiod_pvt s)) -
                           buf_ptr (buf_in (sbiod_pvt s))) len)) with 0 by lia.
  rewrite Z.sub_0_r, to_len_small by lia.
  destruct (Z.eqb_spec len 0) as [Hz | _]; [lia |].
  change (firstn (Z.to_nat 0) _) with (@nil byte).
  set (s0 := set_in s _).
  destruct (read_pkt_header_takes (transport_cost (next_rd s0)) s0 b0 b1 b2 b3 more t
                                  Hrd Hptr)
    as (s1 & Hrun & Hc1 & He1 & Hf1 & Hp1 & Hb1 & Hn1).
  rewrite Hrun.
  destruct Hf1 as (F1 & F2 & F3 & F4 & F5 & F6).
  assert (Hpl : sb_sasl_pkt_length (buf_base (sec s1)) = n + 4).
  { rewrite Hb1. unfold sb_sasl_pkt_length. cbn [nth].
    rewrite ntohl_be_value. fold n. unfold MAX_BUFF_SIZE.
    destruct (Z.ltb_spec 65536 n) as [Hgt | _]; [lia |].
    apply to_len_small. lia. }
  rewrite Hpl, to_slen_small by lia.
  assert (Hlen1 : Z.of_nat (length (buf_base (sec s1))) = buf_size (sec s)).
  { rewrite Hb1. cbn [length]. rewrite length_skipn.
    change (buf_base (sec s0)) with (buf_base (sec s)). lia. }
  change (buf_size (sec s0)) with (buf_size (sec s)) in F5.
  (* the state the body loop starts in *)
  assert (Hgrown :
            exists s3 pre,
              (if buf_size (sec s1) <? n + 4
               then match ber_pvt_sb_grow_buffer realloc (sec s1) (n + 4) with
                    | Some b => inr (log (set_sec s1 b) (Grow (n + 4) true))
                    | None => inl (log s1 (Grow (n + 4) false))
                    end
               else inr s1) = inr s3 /\
              calls s3 = calls s1 ++ pre /\ filter is_decode pre = [] /\
              next_rd s3 = next_rd s1 /\ errno s3 = errno s1 /\
              sasl_context (sbiod_pvt s3) = sasl_context (sbiod_pvt s1) /\
              buf_in (sbiod_pvt s3) = buf_in (sbiod_pvt s1) /\
              buf_ptr (sec s3) = 4 /\
              n + 4 <= Z.of_nat (length (buf_base (sec s3))) /\
              firstn 4 (buf_base (sec s3)) = [b0; b1; b2; b3]).
  { rewrite F5.
    destruct (Z.ltb_spec (buf_size (sec s)) (n + 4)) as [Hlt | Hge].
    - unfold ber_pvt_sb_grow_buffer.
      destruct (realloc (n + 4)) as [cap |] eqn:Hcap;
        [| exfalso; apply (Hre Hlt); reflexivity].
      cbv zeta.
      eexists _, [Grow (n + 4) true]. split; [reflexivity |].
      cbn [log set_sec calls next_rd errno sbiod_pvt sasl_context buf_in sec sec_buf_in
           buf_base buf_ptr].
      change (sec_buf_in (sbiod_pvt s1)) with (sec s1).
      repeat split; try assumption.
      + rewrite length_app, repeat_length, F5. lia.
      + rewrite Hb1. reflexivity.
    - exists s1, []. split; [reflexivity |]. rewrite app_nil_r.
      repeat split; try assumption.
      + lia.
      + rewrite Hb1. reflexivity. }
  destruct Hgrown as (s3 & pre & -> & Hc3 & Hd3 & Hn3 & He3 & Hx3 & Hi3 & Hp3 & Hl3 & Hh3).
  set (s3' := set_sec s3 _).
  assert (Hsec3 : sec s3' = mkBuf (buf_base (sec s3)) 4 (n + 4) (buf_size (sec s3))).
  { subst s3'. unfold sec, set_sec. cbn [sbiod_pvt sec_buf_in].
    change (sec_buf_in (sbiod_pvt s3)) with (sec s3). rewrite Hp3. reflexivity. }
  destruct (sb_sasl_read_body_reassembles s3' [] 0 len body t')
    as (ret & out' & s' & evs & Hrun' & Hc' & Hd' & Hn' & Hst' & Hx' & Hbad & Hgood).
  { rewrite Hsec3. cbn [buf_ptr buf_end]. lia. }
  { rewrite Hsec3. cbn [buf_end]. lia. }
  { rewrite Hsec3. cbn [buf_end buf_base]. exact Hl3. }
  { rewrite Hsec3. cbn [buf_ptr buf_end].
    replace (Z.to_nat (n + 4 - 4)) with (Z.to_nat n) by lia.
    change (next_rd s3') with (next_rd s3). rewrite Hn3, Hn1. exact Htake. }
  rewrite Hsec3 in Hd', Hx', Hbad, Hgood. cbn [buf_ptr buf_base] in Hd', Hx', Hbad, Hgood.
  change (Z.to_nat 4) with 4%nat in Hd', Hx', Hbad, Hgood.
  rewrite Hh3 in Hd', Hx', Hbad, Hgood.
  change (sasl_context (sbiod_pvt s3')) with (sasl_context (sbiod_pvt s3))
    in Hd', Hx', Hbad, Hgood.
  rewrite Hx3, F1 in Hd', Hx', Hbad, Hgood.
  change (sasl_context (sbiod_pvt s0)) with (sasl_context (sbiod_pvt s))
    in Hd', Hx', Hbad, Hgood.
  change ([b0; b1; b2; b3] ++ body) with pkt in Hd', Hx', Hbad, Hgood.
  fold r in Hd', Hx', Hbad, Hgood. fold plain in Hgood. fold plen in Hgood.
  change (buf_in (sbiod_pvt s3')) with (buf_in (sbiod_pvt s3)) in Hgood.
  rewrite Hi3, F2 in Hgood.
  change (buf_in (sbiod_pvt s0)) with ber_pvt_sb_buf_init in Hgood.
  cbn [ber_pvt_sb_buf_init buf_ptr] in Hgood.
  exists ret, out', s', (ReadNext 4 4 (errno s0) :: pre ++ evs).
  split; [exact Hrun' |].
  split.
  { rewrite Hc'. change (calls s3') with (calls s3). rewrite Hc3, Hc1.
    change (calls s0) with (calls s). rewrite <- !app_assoc. reflexivity. }
  split.
  { cbn [filter is_decode]. rewrite filter_app, Hd3, Hd'. reflexivity. }
  split; [exact Hn' |]. split; [exact Hst' |]. split; [exact Hx' |].
  split; [exact Hbad |].
  intros Hok. destruct (Hgood Hok) as (Hret & Hout & Hbin & Herr).
  unfold ber_pvt_sb_copy_out in Hret, Hout, Hbin.
  cbn [fst snd buf_ptr buf_end buf_base buf_size skipn Z.to_nat app] in Hret, Hout, Hbin.
  rewrite Z.sub_0_r in Hret, Hout, Hbin.
  replace (Z.max 0 (Z.min plen len)) with (Z.min len plen) in Hret, Hout, Hbin by lia.
  rewrite Z.add_0_l in Hret, Hbin.
  split; [rewrite Hret; apply to_slen_small; lia |].
  split.
  { rewrite Hout. destruct (Z.le_ge_cases len plen) as [Hle | Hle'].
    - rewrite Z.min_l by lia. reflexivity.
    - rewrite Z.min_r by lia. unfold plen. rewrite Nat2Z.id.
      rewrite firstn_all. symmetry. apply firstn_all2. lia. }
  split.
  { rewrite Herr. change (errno s3') with (errno s3). rewrite He3, He1. reflexivity. }
  intros len2 Hl2 Hav2.
  assert (Hmin : Z.min len plen = len) by lia.
  rewrite Hmin in Hbin.
  pose proof (sb_sasl_read_ready_run sasl_decode realloc s' len2) as Hready.
  rewrite Hbin in Hready. cbn [buf_ptr buf_end buf_base buf_size] in Hready.
  eexists. split; [apply Hready; lia |].
  split; [reflexivity | exact Hn'].
Qed.

End Reassembly.

(** [sb_sasl_read_reassembles] on the fresh layer: a packet of three
    bytes arrives with its header and first byte in one read, the second
    byte in another, and the third at the head of a read that also
    carries a byte of the next packet. *)
Lemma sb_sasl_read_reassembles_witness :
  let s := sample_reader [RdData [x00; x00; x00; x03; x0a]; RdData [x0b];
                          RdData [x0c; x0d]] in
  exists s' evs,
    sb_sasl_read accept_all (fun n => Some n) s 2 = Some (2, [x0a; x0b], s') /\
    calls s' = calls s ++ evs /\
    filter is_decode evs = [Decode [x00; x00; x00; x03; x0a; x0b; x0c] SASL_OK] /\
    next_rd s' = [RdData [x0d]] /\
    exists s'',
      sb_sasl_read accept_all (fun n => Some n) s' 1 = Some (1, [x0c], s'') /\
      calls s'' = calls s'.
Proof.
  cbv zeta.
  destruct (sb_sasl_read_reassembles accept_all (fun n => Some n)
              (sample_reader [RdData [x00; x00; x00; x03; x0a]; RdData [x0b];
                              RdData [x0c; x0d]])
              2 x00 x00 x00 x03 [x0a] [x0a; x0b; x0c]
              [RdData [x0b]; RdData [x0c; x0d]] [RdData [x0d]])
    as (ret & out & s' & evs & Hrun & Hc & Hd & Hn & _ & _ & _ & Hgood).
  - reflexivity.
  - reflexivity.
  - vm_compute. discriminate.
  - reflexivity.
  - vm_compute. discriminate.
  - reflexivity.
  - intros _. discriminate.
  - reflexivity.
  - lia.
  - destruct (Hgood eq_refl) as (Hret & Hout & _ & Hnext).
    destruct (Hnext 1) as (s'' & Hrun2 & Hc2 & _); [lia | vm_compute; discriminate |].
    exists s', evs. rewrite Hrun, Hret, Hout.
    split; [reflexivity |]. split; [exact Hc |]. split; [exact Hd |].
    split; [exact Hn |]. exists s''. split; [exact Hrun2 | exact Hc2].
Defined.

(** ** The bind driver: before the negotiation *)

Lemma rounds_no_client_new (ok : bool) (rs : list bind_event) :
  rounds ok rs -> filter is_client_new rs = [].
Proof.
  assert (Hf : forall c h, filter is_client_new (frees_of c h) = [])
    by (intros c [|]; reflexivity).
  induction 1 as [m c h | m c h conn | m c h s conn | ok m c h s tr Hr IH];
    cbn [filter is_client_new]; rewrite ?filter_app, ?Hf; cbn [filter is_client_new app];
    auto.
Qed.

(** The calls of [ldap_pvt_sasl_bind] up to the new context: none, or
    the disposal of the context the handle held followed by one
    [sasl_client_new] for the connected host. *)
Lemma ldap_pvt_sasl_bind_starts (ld : LDAP) (mechs : string) (env : bind_env)
    (rc : Z) (ld' : LDAP) (tr : list bind_event) :
  ldap_pvt_sasl_bind ld mechs env = Some (rc, ld', tr) ->
  tr = [] \/
  exists host rest,
    e_host env = Some host /\
    LDAP_VERSION3 <= ld_version ld /\
    tr = match ld_sasl_context ld with
         | Some c => [EvDispose (Some c)]
         | None => []
         end ++ EvClientNew host :: rest /\
    filter is_client_new rest = [].
Proof.
  unfold ldap_pvt_sasl_bind.
  destruct (Z.ltb_spec (ld_version ld) LDAP_VERSION3) as [Hv | Hv].
  { intros H. injection H as <- <- <-. now left. }
  set (opened := if e_sd_valid env then _ else _).
  assert (Hopen : match opened with
                  | inl _ => True
                  | inr l => ld_sasl_context l = ld_sasl_context ld
                  end).
  { subst opened. destruct (e_sd_valid env); [reflexivity |].
    destruct (e_open_defconn env) as [r e]. destruct (r <? 0); [exact I | reflexivity]. }
  destruct opened as [l | l].
  { intros H. injection H as <- <- <-. now left. }
  destruct (e_host env) as [host |].
  2: { intros H. injection H as <- <- <-. now left. }
  rewrite Hopen.
  destruct (e_client_new env) as [saslrc conn].
  set (old := match ld_sasl_context ld with
              | Some c => [EvDispose (Some c)]
              | None => []
              end).
  intros Hrun. right. exists host.
  destruct (sasl_failed saslrc).
  { injection Hrun as <- <- <-. exists [EvDispose (Some conn)].
    rewrite <- app_assoc.
    split; [reflexivity |]. split; [exact Hv |]. split; reflexivity. }
  destruct (e_getpeername env); cbn [negb] in Hrun.
  2: { injection Hrun as <- <- <-. exists [].
       split; [reflexivity |]. split; [exact Hv |]. split; reflexivity. }
  destruct (e_getsockname env); cbn [negb] in Hrun.
  2: { injection Hrun as <- <- <-. exists [EvSetProp "SASL_IP_REMOTE"].
       rewrite <- app_assoc.
       split; [reflexivity |]. split; [exact Hv |]. split; reflexivity. }
  destruct (e_start env) as [p mech].
  destruct (sasl_failed (pr_rc p)).
  { injection Hrun as <- <- <-. eexists.
    rewrite <- !app_assoc. cbn [app].
    split; [reflexivity |]. split; [exact Hv |]. split; reflexivity. }
  destruct (bind_loop (e_binds env) (e_steps env) mech
              (set_ld_context l (Some conn)) (pr_out p, pr_outlen p) _)
    as [r |] eqn:El; [| discriminate].
  pose proof (bind_loop_rounds _ _ _ _ _ _ _ El) as Hr.
  destruct r as [[[rc0 ld0] tr0] | [[rc0 ld0] tr0]].
  - injection Hrun as <- <- <-.
    destruct Hr as (_ & _ & rs & -> & Hrs).
    eexists. rewrite <- !app_assoc. cbn [app].
    split; [reflexivity |]. split; [exact Hv |]. split; [reflexivity |].
    cbn [filter is_client_new]. apply (rounds_no_client_new _ _ Hrs).
  - destruct Hr as (_ & _ & rs & -> & Hrs).
    assert (Hins : exists inst,
               match e_ssf env with
               | Some ssf =>
                   if negb (ssf =? 0)
                   then (((((old ++ [EvClientNew host]) ++ [EvSetProp "SASL_IP_REMOTE"]) ++
                           [EvSetProp "SASL_IP_LOCAL"; EvSetProp "SASL_SEC_PROPS"]) ++
                          [EvClientStart mechs]) ++ rs) ++ [EvInstall (ld_sasl_context ld0)]
                   else ((((old ++ [EvClientNew host]) ++ [EvSetProp "SASL_IP_REMOTE"]) ++
                          [EvSetProp "SASL_IP_LOCAL"; EvSetProp "SASL_SEC_PROPS"]) ++
                         [EvClientStart mechs]) ++ rs
               | None => ((((old ++ [EvClientNew host]) ++ [EvSetProp "SASL_IP_REMOTE"]) ++
                           [EvSetProp "SASL_IP_LOCAL"; EvSetProp "SASL_SEC_PROPS"]) ++
                          [EvClientStart mechs]) ++ rs
               end =
               old ++ EvClientNew host ::
                   [EvSetProp "SASL_IP_REMOTE"; EvSetProp "SASL_IP_LOCAL";
                    EvSetProp "SASL_SEC_PROPS"; EvClientStart mechs] ++ rs ++ inst /\
               filter is_client_new inst = []).
    { destruct (e_ssf env) as [v |]; [destruct (negb (v =? 0)) |].
      - exists [EvInstall (ld_sasl_context ld0)]. rewrite <- !app_assoc. auto.
      - exists []. rewrite <- !app_assoc, app_nil_r. auto.
      - exists []. rewrite <- !app_assoc, app_nil_r. auto. }
    destruct Hins as (inst & Heq & Hni).
    rewrite Heq in Hrun. injection Hrun as <- <- <-.
    eexists.
    split; [reflexivity |]. split; [exact Hv |]. split; [reflexivity |].
    cbn [filter is_client_new app]. rewrite filter_app, (rounds_no_client_new _ _ Hrs), Hni.
    reflexivity.
Qed.

(** X26.  [ldap_pvt_sasl_bind] creates at most one context per call,
    for the host the handle is connected to, on version 3 or later
    only, and after disposing of the context the handle held: when
    [sasl_client_new] is called it is the first call, or the second
    after that disposal. *)
Theorem ldap_pvt_sasl_bind_new_context (ld : LDAP) (mechs : string) (env : bind_env)
    (rc : Z) (ld' : LDAP) (tr : list bind_event) (host : string) :
  ldap_pvt_sasl_bind ld mechs env = Some (rc, ld', tr) ->
  In (EvClientNew host) tr ->
  e_host env = Some host /\
  LDAP_VERSION3 <= ld_version ld /\
  filter is_client_new tr = [EvClientNew host] /\
  exists rest,
    tr = match ld_sasl_context ld with
         | Some c => [EvDispose (Some c)]
         | None => []
         end ++ EvClientNew host :: rest.
Proof.
  intros Hrun Hin.
  destruct (ldap_pvt_sasl_bind_starts _ _ _ _ _ _ Hrun)
    as [-> | (h & rest & Hh & Hv & Htr & Hno)]; [contradiction |].
  assert (Hfil : filter is_client_new tr = [EvClientNew h]).
  { rewrite Htr, filter_app. cbn [filter is_client_new]. rewrite Hno.
    destruct (ld_sasl_context ld); reflexivity. }
  assert (Hin' : In (EvClientNew host) (filter is_client_new tr))
    by (apply filter_In; auto).
  rewrite Hfil in Hin'. destruct Hin' as [Heq | []]. injection Heq as ->.
  split; [exact Hh |]. split; [exact Hv |]. split; [exact Hfil |].
  exists rest. exact Htr.
Qed.

(** [ldap_pvt_sasl_bind_new_context] on the sample server, for a handle
    that still holds the context of an earlier bind. *)
Lemma ldap_pvt_sasl_bind_new_context_witness :
  let ld := mkLDAP LDAP_VERSION3 LDAP_SUCCESS 0 None (Some 7%nat) in
  exists rc ld' tr rest,
    ldap_pvt_sasl_bind ld "DIGEST-MD5"%string sample_env = Some (rc, ld', tr) /\
    tr = EvDispose (Some 7%nat) :: EvClientNew "ldap.example.org"%string :: rest.
Proof.
  cbv zeta. do 3 eexists.
  assert (H : ldap_pvt_sasl_bind (mkLDAP LDAP_VERSION3 LDAP_SUCCESS 0 None (Some 7%nat))
                                 "DIGEST-MD5"%string sample_env = Some (_, _, _))
    by reflexivity.
  assert (Hin : In (EvClientNew "ldap.example.org"%string)
                   (snd (match ldap_pvt_sasl_bind
                                 (mkLDAP LDAP_VERSION3 LDAP_SUCCESS 0 None (Some 7%nat))
                                 "DIGEST-MD5"%string sample_env with
                         | Some r => r | None => (0, sample_ld, []) end)))
    by (cbn; tauto).
  destruct (ldap_pvt_sasl_bind_new_context _ _ _ _ _ _ _ H Hin)
    as (_ & _ & _ & rest & Hrest).
  exists rest. split; [exact H | exact Hrest].
Defined.

(** X27.  When [getpeername] or [getsockname] fails,
    [ldap_pvt_sasl_bind] returns [LDAP_OPERATIONS_ERROR] and the handle
    keeps the context just created: it is not disposed, unlike on every
    failure after [sasl_client_start].  The next call that reaches
    [sasl_client_new] disposes of it first. *)
Theorem ldap_pvt_sasl_bind_address_failure (ld : LDAP) (mechs : string)
    (env : bind_env) (host : string) :
  LDAP_VERSION3 <= ld_version ld ->
  e_sd_valid env = true ->
  e_host env = Some host ->
  sasl_failed (fst (e_client_new env)) = false ->
  e_getpeername env = false \/ e_getsockname env = false ->
  let conn := snd (e_client_new env) in
  exists ld' tr,
    ldap_pvt_sasl_bind ld mechs env = Some (LDAP_OPERATIONS_ERROR, ld', tr) /\
    ld_errno ld' = LDAP_OPERATIONS_ERROR /\
    ld_sasl_context ld' = Some conn /\
    (exists rest,
        tr = match ld_sasl_context ld with
             | Some c => [EvDispose (Some c)]
             | None => []
             end ++ EvClientNew host :: rest /\
        filter is_dispose rest = []) /\
    forall mechs2 env2 rc2 ld2 tr2 host2,
      ldap_pvt_sasl_bind ld' mechs2 env2 = Some (rc2, ld2, tr2) ->
      In (EvClientNew host2) tr2 ->
      exists rest2, tr2 = EvDispose (Some conn) :: EvClientNew host2 :: rest2.
Proof.
  intros Hv Hsd Hhost Hnew Haddr conn.
  assert (Hnext : forall l : LDAP,
             ld_sasl_context l = Some conn ->
             forall mechs2 env2 rc2 ld2 tr2 host2,
               ldap_pvt_sasl_bind l mechs2 env2 = Some (rc2, ld2, tr2) ->
               In (EvClientNew host2) tr2 ->
               exists rest2, tr2 = EvDispose (Some conn) :: EvClientNew host2 :: rest2).
  { intros l Hl mechs2 env2 rc2 ld2 tr2 host2 Hrun Hin.
    destruct (ldap_pvt_sasl_bind_starts _ _ _ _ _ _ Hrun)
      as [-> | (h & rest & Hh & _ & Htr & Hno)]; [contradiction |].
    rewrite Hl in Htr. cbn [app] in Htr.
    assert (Hin' : In (EvClientNew host2) (filter is_client_new tr2))
      by (apply filter_In; auto).
    rewrite Htr in Hin'. cbn [filter is_client_new] in Hin'. rewrite Hno in Hin'.
    destruct Hin' as [Heq | []]. injection Heq as ->.
    exists rest. exact Htr. }
  unfold ldap_pvt_sasl_bind.
  destruct (Z.ltb_spec (ld_version ld) LDAP_VERSION3) as [Hlt | _]; [lia |].
  rewrite Hsd, Hhost. subst conn.
  destruct (e_client_new env) as [saslrc conn]. cbn [fst snd] in *.
  rewrite Hnew.
  destruct (e_getpeername env) eqn:Hpeer; cbn [negb].
  - destruct Haddr as [Ha | Ha]; [discriminate |]. rewrite Ha. cbn [negb].
    eexists _, _. split; [reflexivity |].
    split; [reflexivity |]. split; [reflexivity |].
    split.
    + exists [EvSetProp "SASL_IP_REMOTE"]. rewrite <- app_assoc. split; reflexivity.
    + apply Hnext. reflexivity.
  - eexists _, _. split; [reflexivity |].
    split; [reflexivity |]. split; [reflexivity |].
    split.
    + exists []. split; reflexivity.
    + apply Hnext. reflexivity.
Qed.

(** [ldap_pvt_sasl_bind_address_failure] on a connection whose remote
    address cannot be read. *)
Lemma ldap_pvt_sasl_bind_address_failure_witness :
  let env := mkEnv true (0, 0) (Some "ldap.example.org"%string) (SASL_OK, 1%nat)
                   false true (mkReply SASL_OK None 0, "EXTERNAL"%string) [] []
                   None in
  exists ld' tr,
    ldap_pvt_sasl_bind sample_ld "EXTERNAL"%string env =
    Some (LDAP_OPERATIONS_ERROR, ld', tr) /\
    ld_sasl_context ld' = Some 1%nat.
Proof.
  cbv zeta.
  destruct (ldap_pvt_sasl_bind_address_failure sample_ld "EXTERNAL"%string
              (mkEnv true (0, 0) (Some "ldap.example.org"%string) (SASL_OK, 1%nat)
                     false true (mkReply SASL_OK None 0, "EXTERNAL"%string) [] [] None)
              "ldap.example.org"%string)
    as (ld' & tr & Hrun & _ & Hctx & _).
  - vm_compute. discriminate.
  - reflexivity.
  - reflexivity.
  - reflexivity.
  - left. reflexivity.
  - exists ld', tr. split; [exact Hrun | exact Hctx].
Defined.

(** ** The layer: a header that arrives in two reads *)

Section SplitHeader.

Context {Ctx Wr : Type}.

Local Abbreviation state := (Sockbuf_IO_Desc Ctx Wr).

(** X28.  When the four bytes of a header arrive in two reads, the
    header loop of [sb_sasl_read] stores both at the start of the
    staging buffer: the bytes of the second read land on those of the
    first, not behind them, while the cursor counts all four.  The
    length of the packet is then taken from a block that begins with
    the bytes of the second read. *)
Theorem read_pkt_header_split (fuel : nat) (s : state)
    (first second more : list byte) (t : transport) :
  next_rd s = RdData first :: RdData (second ++ more) :: t ->
  (0 < length first < 4)%nat ->
  (length first + length second = 4)%nat ->
  buf_ptr (sec s) = 0 ->
  exists s1,
    read_pkt_header (S (S fuel)) s = Continue s1 /\
    calls s1 = calls s ++ [ReadNext 4 (Z.of_nat (length first)) (errno s);
                           ReadNext (Z.of_nat (length second))
                                    (Z.of_nat (length second)) (errno s)] /\
    buf_ptr (sec s1) = 4 /\
    buf_base (sec s1) = mem_write (mem_write (buf_base (sec s)) 0 first) 0 second /\
    firstn (length second) (buf_base (sec s1)) = second /\
    next_rd s1 = match more with [] => t | _ :: _ => RdData more :: t end.
Proof.
  intros Hrd Hf Hs Hptr.
  destruct s as [[ctx sb bi bo] rd wr e cs]. destruct sb as [base ptr ed size].
  cbn [next_rd sec sbiod_pvt sec_buf_in buf_ptr] in Hrd, Hptr. subst rd ptr.
  destruct first as [| a0 [| a1 [| a2 [| a3 first]]]]; cbn [length] in Hf, Hs; try lia;
    destruct second as [| c0 [| c1 [| c2 [| c3 second]]]]; cbn [length] in Hs; try lia.
  - eexists. split.
    + cbn -[read_pkt_header].
      cbn [read_pkt_header sec sbiod_pvt sec_buf_in buf_ptr Z.ltb Z.compare].
      unfold read_next_into. cbn -[read_pkt_header].
      change (Pos.to_nat 4) with 4%nat. cbn -[read_pkt_header].
      change (Pos.to_nat 3) with 3%nat. cbn -[read_pkt_header].
      apply read_pkt_header_done. cbn. lia.
    + cbn. rewrite <- app_assoc. repeat split.
  - eexists. split.
    + cbn -[read_pkt_header].
      cbn [read_pkt_header sec sbiod_pvt sec_buf_in buf_ptr Z.ltb Z.compare].
      unfold read_next_into. cbn -[read_pkt_header].
      change (Pos.to_nat 4) with 4%nat. cbn -[read_pkt_header].
      change (Pos.to_nat 2) with 2%nat. cbn -[read_pkt_header].
      apply read_pkt_header_done. cbn. lia.
    + cbn. rewrite <- app_assoc. repeat split.
  - eexists. split.
    + cbn -[read_pkt_header].
      cbn [read_pkt_header sec sbiod_pvt sec_buf_in buf_ptr Z.ltb Z.compare].
      unfold read_next_into. cbn -[read_pkt_header].
      change (Pos.to_nat 4) with 4%nat. cbn -[read_pkt_header].
      change (Pos.to_nat 1) with 1%nat. cbn -[read_pkt_header].
      apply read_pkt_header_done. cbn. lia.
    + cbn. rewrite <- app_assoc. repeat split.
Qed.

End SplitHeader.

(** [read_pkt_header_split] on the fresh layer: the header 00 01 00 01
    (65537 bytes announced, more than the ceiling) arrives as two reads
    of two bytes; the staged block begins 00 01 00 00, an announcement
    of 65536 bytes that passes the ceiling check. *)
Lemma read_pkt_header_split_witness :
  let s := sample_reader [RdData [x00; x01]; RdData [x00; x01]; RdEof] in
  exists s1,
    read_pkt_header 3 s = Continue s1 /\
    firstn 4 (buf_base (sec s1)) = [x00; x01; x00; x00] /\
    sb_sasl_pkt_length (buf_base (sec s1)) = 65540.
Proof.
  cbv zeta.
  destruct (@read_pkt_header_split unit (list Z) 1
              (sample_reader [RdData [x00; x01]; RdData [x00; x01]; RdEof])
              [x00; x01] [x00; x01] [] [RdEof])
    as (s1 & Hrun & _ & _ & Hbase & _).
  - reflexivity.
  - cbn. lia.
  - reflexivity.
  - reflexivity.
  - exists s1. split; [exact Hrun |]. rewrite Hbase. split; reflexivity.
Defined.

(** ** The layer: set-up *)

(** X29.  [sb_sasl_setup] fails exactly when one of its two allocations
    fails.  The layer it leaves holds the context it was given and is
    idle: a staging buffer of at least [MIN_BUFF_SIZE] bytes (the
    capacity the allocator gives for that request, [MIN_BUFF_SIZE] when
    it gives no more) with nothing staged, nothing decoded and nothing
    pending.  On such a layer [sb_sasl_ctrl] passes the data-ready
    question to the next layer, and the first call of [sb_sasl_write] is
    the encode of the caller's data, with no flush before it. *)
Theorem sb_sasl_setup_idle (Ctx Wr : Type) (realloc : Z -> option Z) (malloc_ok : bool)
    (arg : Ctx) :
  (sb_sasl_setup realloc malloc_ok arg = None <->
   malloc_ok = false \/ realloc MIN_BUFF_SIZE = None) /\
  forall p,
    sb_sasl_setup realloc malloc_ok arg = Some p ->
    sasl_context p = arg /\
    staged_empty (sec_buf_in p) = true /\
    (exists cap, realloc MIN_BUFF_SIZE = Some cap /\
                 buf_size (sec_buf_in p) = Z.max MIN_BUFF_SIZE cap) /\
    Z.of_nat (length (buf_base (sec_buf_in p))) = buf_size (sec_buf_in p) /\
    buf_in p = ber_pvt_sb_buf_init /\
    buf_out p = ber_pvt_sb_buf_init /\
    forall (rd : transport) (wr : Wr) (e : Z) (cs : list call),
      (forall next, sb_sasl_ctrl (mkIod p rd wr e cs) LBER_SB_OPT_DATA_READY next = next) /\
      forall (sasl_encode : Ctx -> list byte -> Z * list byte * Ctx)
             (do_write : Wr -> Sockbuf_Buf -> Z * Sockbuf_Buf * Wr)
             (buf : list byte) (len : Z),
      exists rest,
        calls (snd (sb_sasl_write sasl_encode do_write (mkIod p rd wr e cs) buf len)) =
        cs ++ Encode (firstn (Z.to_nat len) buf)
                     (fst (fst (sasl_encode arg (firstn (Z.to_nat len) buf)))) :: rest.
Proof.
  unfold sb_sasl_setup, ber_pvt_sb_grow_buffer.
  split.
  - destruct malloc_ok; [| split; auto].
    destruct (realloc MIN_BUFF_SIZE); split; auto; try discriminate.
    intros [H | H]; discriminate H.
  - intros p Hp.
    destruct malloc_ok; [| discriminate Hp].
    destruct (realloc MIN_BUFF_SIZE) as [cap |]; [| discriminate Hp].
    injection Hp as <-. cbn [sasl_context sec_buf_in buf_in buf_out buf_size buf_base].
    split; [reflexivity |]. split; [reflexivity |].
    split.
    { exists cap. split; [reflexivity |].
      cbn [ber_pvt_sb_buf_init buf_size]. unfold MIN_BUFF_SIZE. lia. }
    split.
    { cbn [ber_pvt_sb_buf_init buf_size buf_base app]. rewrite repeat_length.
      unfold MIN_BUFF_SIZE. lia. }
    split; [reflexivity |]. split; [reflexivity |].
    intros rd wr e cs. split; [reflexivity |].
    intros sasl_encode do_write buf len.
    match goal with
    | |- exists rest, calls (snd (sb_sasl_write _ _ ?x _ _)) = _ => set (s := x)
    end.
    destruct (sb_sasl_write_cases sasl_encode do_write s buf len)
      as [(r & Hne & _) | (pre & Hpre & _ & Hcases)].
    + contradiction Hne. reflexivity.
    + assert (Hnil : pre = []).
      { destruct Hpre as [[-> _] | (r0 & _ & _ & Hne)]; [reflexivity |].
        contradiction Hne. reflexivity. }
      subst pre.
      destruct Hcases as [(_ & _ & Hc & _) | (Hok & r & Hc & _)].
      * exists []. exact Hc.
      * eexists. rewrite Hc.
        change (sasl_context (sbiod_pvt s)) with arg in Hok. rewrite Hok. reflexivity.
Qed.

(** ** The layer: how a read fails *)

(** One read of the next layer for at least the [S k] bytes that come
    before a failing event: the read delivers a whole chunk. *)
Lemma take_bytes_whole_step (t : transport) (e : Z) (k : nat) (part : list byte)
    (t1 : transport) (len : Z) :
  take_bytes t (S k) = Some (part, t1) ->
  rd_fails (next_event t1) = true ->
  Z.of_nat (S k) <= len ->
  exists got rest2 t2,
    LBER_SBIOD_READ_NEXT t e len = (Z.of_nat (length got), got, e, t2) /\
    (0 < length got <= S k)%nat /\
    part = got ++ rest2 /\
    take_bytes t2 (S k - length got) = Some (rest2, t1) /\
    (transport_cost t2 < transport_cost t)%nat.
Proof.
  destruct t as [| [[| b bs] | | r0 e0] t']; try discriminate.
  rewrite take_bytes_cons. unfold LBER_SBIOD_READ_NEXT.
  destruct (Nat.leb_spec (length (b :: bs)) (S k)) as [Hle | Hgt].
  - destruct (take_bytes t' (S k - length (b :: bs))) as [[rest2 t''] |] eqn:Ht;
      [| discriminate].
    intros H Hf Hlen. injection H as <- <-.
    exists (b :: bs), rest2, t'.
    rewrite firstn_all2 by lia. rewrite skipn_all2 by lia.
    split; [reflexivity |]. split; [cbn [length] in *; lia |].
    split; [reflexivity |]. split; [exact Ht |].
    cbn [transport_cost]. lia.
  - intros H Hf. injection H as _ <-. discriminate Hf.
Qed.

Section ReadFails.

Context {Ctx Wr : Type}.
Variable sasl_decode : Ctx -> list byte -> Z * list byte * Ctx.
Variable realloc : Z -> option Z.

Local Abbreviation state := (Sockbuf_IO_Desc Ctx Wr).

(** One read of the next layer that meets a failing event, storing at
    offset [off]. *)
Lemma read_next_into_fails (s : state) (off l : Z) :
  rd_fails (next_event (next_rd s)) = true ->
  let ev := next_event (next_rd s) in
  exists s1,
    read_next_into s off l = (fst (rd_result ev (errno s)), s1) /\
    fst (rd_result ev (errno s)) <= 0 /\
    ((fst (rd_result ev (errno s)) <? 0) && (errno s1 =? EINTR)) = false /\
    errno s1 = snd (rd_result ev (errno s)) /\
    next_rd s1 = tl (next_rd s) /\
    calls s1 = calls s ++ [ReadNext l (fst (rd_result ev (errno s))) (errno s1)] /\
    same_frame s s1 /\
    buf_ptr (sec s1) = buf_ptr (sec s) /\
    buf_base (sec s1) = mem_write (buf_base (sec s)) (Z.to_nat off) [].
Proof.
  intros Hf ev. subst ev. unfold read_next_into.
  destruct (next_rd s) as [| [bs | | r e] t]; cbn [next_event] in Hf |- *;
    try discriminate Hf; cbn [LBER_SBIOD_READ_NEXT rd_result fst snd tl];
    eexists; (split; [reflexivity |]);
    cbn [errno next_rd calls sec sbiod_pvt sec_buf_in buf_ptr buf_base].
  - repeat split; try lia.
  - repeat split; try lia.
  - cbn [rd_fails] in Hf. rewrite negb_true_iff in Hf. rewrite Hf, andb_false_r.
    repeat split; try lia.
Qed.

(** The header loop when the next read fails. *)
Lemma read_pkt_header_fails (fuel : nat) (s : state) :
  buf_ptr (sec s) < 4 ->
  rd_fails (next_event (next_rd s)) = true ->
  let ev := next_event (next_rd s) in
  exists s1,
    read_pkt_header (S fuel) s = Return (fst (rd_result ev (errno s))) s1 /\
    errno s1 = snd (rd_result ev (errno s)) /\
    next_rd s1 = tl (next_rd s) /\
    calls s1 = calls s ++ [ReadNext (4 - buf_ptr (sec s))
                                    (fst (rd_result ev (errno s))) (errno s1)] /\
    same_frame s s1 /\
    buf_ptr (sec s1) = buf_ptr (sec s).
Proof.
  intros Hp Hf ev. cbn [read_pkt_header].
  destruct (Z.ltb_spec (buf_ptr (sec s)) 4) as [_ | Hge]; [| lia].
  destruct (read_next_into_fails s 0 (4 - buf_ptr (sec s)) Hf)
    as (s1 & Hrun & Hle & Hint & He & Hn & Hc & Hfr & Hptr & _).
  rewrite Hrun, Hint.
  destruct (Z.leb_spec (fst (rd_result (next_event (next_rd s)) (errno s))) 0)
    as [_ | Hgt]; [| lia].
  exists s1. split; [reflexivity |]. split; [exact He |]. split; [exact Hn |].
  split; [exact Hc |]. split; [exact Hfr | exact Hptr].
Qed.

(** The body loop on a stream that fails after [j] bytes, fewer than the
    frame misses: the bytes are staged behind those already there, and
    the failing read ends the loop with its own result. *)
Lemma read_pkt_body_fails (fuel : nat) :
  forall (s : state) (j : nat) (part : list byte) (t1 : transport),
    0 <= buf_ptr (sec s) <= buf_end (sec s) ->
    buf_end (sec s) < 2 ^ 31 ->
    buf_end (sec s) <= Z.of_nat (length (buf_base (sec s))) ->
    (j < Z.to_nat (buf_end (sec s) - buf_ptr (sec s)))%nat ->
    take_bytes (next_rd s) j = Some (part, t1) ->
    rd_fails (next_event t1) = true ->
    (transport_cost (next_rd s) < fuel)%nat ->
    exists s',
      read_pkt_body fuel s = Return (fst (rd_result (next_event t1) (errno s))) s' /\
      next_rd s' = tl t1 /\
      errno s' = snd (rd_result (next_event t1) (errno s)) /\
      same_frame s s' /\
      buf_ptr (sec s') = buf_ptr (sec s) + Z.of_nat j /\
      buf_base (sec s') =
        firstn (Z.to_nat (buf_ptr (sec s))) (buf_base (sec s)) ++ part ++
        skipn (Z.to_nat (buf_ptr (sec s)) + length part) (buf_base (sec s)) /\
      exists rds, calls s' = calls s ++ rds /\
                  filter is_decode rds = [] /\ filter is_grow rds = [].
Proof.
  induction fuel as [| fuel IH]; intros s j part t1 Hp He Hlen Hj Htake Hf Hfuel; [lia |].
  cbn [read_pkt_body].
  destruct (Z.ltb_spec (buf_ptr (sec s)) (buf_end (sec s))) as [Hlt | Hge]; [| lia].
  rewrite to_slen_small by lia.
  destruct j as [| k].
  - assert (Hnil : part = [] /\ t1 = next_rd s).
    { destruct (next_rd s); cbn [take_bytes] in Htake; injection Htake as <- <-; auto. }
    destruct Hnil as [-> ->].
    destruct (read_next_into_fails s (buf_ptr (sec s))
                                   (buf_end (sec s) - buf_ptr (sec s)) Hf)
      as (s1 & Hrun & Hle & Hint & He1 & Hn & Hc & Hfr & Hptr & Hbase).
    rewrite Hrun, Hint.
    destruct (Z.leb_spec (fst (rd_result (next_event (next_rd s)) (errno s))) 0)
      as [_ | Hgt]; [| lia].
    exists s1. split; [reflexivity |]. split; [exact Hn |]. split; [exact He1 |].
    split; [exact Hfr |]. split; [rewrite Hptr; lia |].
    split; [rewrite Hbase; reflexivity |].
    eexists. split; [exact Hc |]. split; reflexivity.
  - destruct (take_bytes_whole_step _ (errno s) _ _ _
                (buf_end (sec s) - buf_ptr (sec s)) Htake Hf ltac:(lia))
      as (got & rest2 & t2 & Hrd & Hgot & -> & Ht2 & Hcost).
    unfold read_next_into. rewrite Hrd.
    cbn [errno].
    destruct (Z.ltb_spec (Z.of_nat (length got)) 0) as [Hneg | _]; [lia |].
    cbn [andb].
    destruct (Z.leb_spec (Z.of_nat (length got)) 0) as [Hz | _]; [lia |].
    destruct (mem_write_in_range (buf_base (sec s)) (Z.to_nat (buf_ptr (sec s))) got
                                 ltac:(lia)) as (Hwl & Hwf & Hws).
    match goal with
    | |- exists s', read_pkt_body fuel ?x = _ /\ _ => set (s2 := x)
    end.
    assert (Hsec2 : sec s2 = mkBuf (mem_write (buf_base (sec s))
                                              (Z.to_nat (buf_ptr (sec s))) got)
                                   (buf_ptr (sec s) + Z.of_nat (length got))
                                   (buf_end (sec s)) (buf_size (sec s))).
    { subst s2. unfold advance_sec, sec, set_sec.
      cbn [sbiod_pvt sec_buf_in buf_base buf_ptr buf_end buf_size].
      change (sec_buf_in (sbiod_pvt s)) with (sec s).
      rewrite to_len_small by lia. reflexivity. }
    assert (Hrest2 : next_rd s2 = t2 /\ errno s2 = errno s /\
                     calls s2 = calls s ++ [ReadNext (buf_end (sec s) - buf_ptr (sec s))
                                                     (Z.of_nat (length got)) (errno s)] /\
                     sasl_context (sbiod_pvt s2) = sasl_context (sbiod_pvt s) /\
                     buf_in (sbiod_pvt s2) = buf_in (sbiod_pvt s) /\
                     buf_out (sbiod_pvt s2) = buf_out (sbiod_pvt s) /\
                     next_wr s2 = next_wr s).
    { subst s2. repeat split. }
    destruct Hrest2 as (Hn2 & He2 & Hc2 & Hx2 & Hi2 & Ho2 & Hw2).
    destruct (IH s2 (S k - length got)%nat rest2 t1)
      as (s' & Hrun & Hn' & He' & Hf' & Hp' & Hb' & rds & Hc' & Hd' & Hg').
    + rewrite Hsec2. cbn [buf_ptr buf_end]. lia.
    + rewrite Hsec2. cbn [buf_end]. lia.
    + rewrite Hsec2. cbn [buf_end buf_base]. rewrite Hwl. exact Hlen.
    + rewrite Hsec2. cbn [buf_ptr buf_end]. lia.
    + rewrite Hn2. exact Ht2.
    + exact Hf.
    + rewrite Hn2. lia.
    + rewrite He2 in Hrun, He'.
      exists s'. split; [exact Hrun |]. split; [exact Hn' |]. split; [exact He' |].
      rewrite Hsec2 in Hp', Hb'. cbn [buf_ptr buf_end buf_base buf_size] in Hp', Hb'.
      assert (Hr2 : length rest2 = (S k - length got)%nat)
        by apply (take_bytes_length _ _ _ _ Ht2).
      split.
      { destruct Hf' as (F1 & F2 & F3 & F4 & F5 & F6).
        rewrite Hsec2 in F5, F6. cbn [buf_size buf_end] in F5, F6.
        unfold same_frame. rewrite F1, F2, F3, F4, F5, F6, Hx2, Hi2, Ho2, Hw2.
        repeat split. }
      split; [rewrite Hp'; lia |].
      split.
      { rewrite Hb'.
        replace (Z.to_nat (buf_ptr (sec s) + Z.of_nat (length got)))
          with (Z.to_nat (buf_ptr (sec s)) + length got)%nat by lia.
        rewrite Hwf, Hws by lia.
        replace (Z.to_nat (buf_ptr (sec s)) + length (got ++ rest2))%nat
          with (Z.to_nat (buf_ptr (sec s)) + length got + length rest2)%nat
          by (rewrite length_app; lia).
        rewrite <- !app_assoc. reflexivity. }
      exists (ReadNext (buf_end (sec s) - buf_ptr (sec s))
                       (Z.of_nat (length got)) (errno s) :: rds).
      split; [rewrite Hc', Hc2, <- app_assoc; reflexivity |].
      cbn [filter is_decode is_grow]. split; assumption.
Qed.

(** [sb_sasl_read] from the body loop on, for a stream that fails
    before the frame is complete. *)
Lemma sb_sasl_read_body_fails (s : state) (out : list byte) (bufptr len : Z)
    (j : nat) (part : list byte) (t1 : transport) :
  0 <= buf_ptr (sec s) <= buf_end (sec s) ->
  buf_end (sec s) < 2 ^ 31 ->
  buf_end (sec s) <= Z.of_nat (length (buf_base (sec s))) ->
  (j < Z.to_nat (buf_end (sec s) - buf_ptr (sec s)))%nat ->
  take_bytes (next_rd s) j = Some (part, t1) ->
  rd_fails (next_event t1) = true ->
  exists s' evs,
    sb_sasl_read_body sasl_decode s out bufptr len =
    Some (fst (rd_result (next_event t1) (errno s)), out, s') /\
    errno s' = snd (rd_result (next_event t1) (errno s)) /\
    calls s' = calls s ++ evs /\
    filter is_decode evs = [] /\
    next_rd s' = tl t1 /\
    sasl_context (sbiod_pvt s') = sasl_context (sbiod_pvt s) /\
    buf_ptr (sec s') = buf_ptr (sec s) + Z.of_nat j /\
    buf_end (sec s') = buf_end (sec s) /\
    buf_base (sec s') =
      firstn (Z.to_nat (buf_ptr (sec s))) (buf_base (sec s)) ++ part ++
      skipn (Z.to_nat (buf_ptr (sec s)) + length part) (buf_base (sec s)).
Proof.
  intros Hp He Hlen Hj Htake Hf.
  destruct (read_pkt_body_fails (S (transport_cost (next_rd s))) s j part t1
              Hp He Hlen Hj Htake Hf (Nat.lt_succ_diag_r _))
    as (s' & Hrun & Hn & Herr & Hfr & Hptr & Hbase & rds & Hc & Hd & _).
  unfold sb_sasl_read_body. rewrite Hrun.
  destruct Hfr as (F1 & _ & _ & _ & _ & F6).
  exists s', rds. repeat split; assumption.
Qed.

(** The request cannot be served by the decoded bytes alone. *)
Lemma sb_sasl_read_not_ready (s : state) (len : Z) :
  0 < len < 2 ^ 32 ->
  buf_end (buf_in (sbiod_pvt s)) - buf_ptr (buf_in (sbiod_pvt s)) < len ->
  (to_len (len - fst (fst (ber_pvt_sb_copy_out (buf_in (sbiod_pvt s)) len))) =? 0) = false.
Proof.
  intros Hl Hav. unfold ber_pvt_sb_copy_out. cbn [fst].
  apply Z.eqb_neq. rewrite to_len_small by lia. lia.
Qed.

(** The header loop on a layer that enters a packet. *)
Lemma header_stage_run (fuel : nat) (s : state) (staged : list byte)
    (stream : transport) :
  header_stage s = Some (staged, stream) ->
  4 <= Z.of_nat (length (buf_base (sec s))) ->
  buf_ptr (sec s) <= Z.of_nat (length (buf_base (sec s))) ->
  exists s1,
    read_pkt_header (S fuel) s = Continue s1 /\
    (4 <= length staged)%nat /\
    buf_ptr (sec s1) = Z.of_nat (length staged) /\
    firstn (length staged) (buf_base (sec s1)) = staged /\
    next_rd s1 = stream /\ errno s1 = errno s /\ same_frame s s1 /\
    length (buf_base (sec s1)) = length (buf_base (sec s)) /\
    exists rds, calls s1 = calls s ++ rds /\
                filter is_decode rds = [] /\ filter is_grow rds = [].
Proof.
  unfold header_stage. intros Hst Hbase Hptr.
  destruct (Z.leb_spec 4 (buf_ptr (sec s))) as [Hge | Hlt].
  - injection Hst as <- <-.
    assert (Hl : length (firstn (Z.to_nat (buf_ptr (sec s))) (buf_base (sec s))) =
                 Z.to_nat (buf_ptr (sec s)))
      by (rewrite length_firstn; lia).
    exists s. split; [apply read_pkt_header_done; exact Hge |].
    rewrite Hl. split; [lia |]. split; [lia |]. split; [reflexivity |].
    split; [reflexivity |]. split; [reflexivity |]. split; [apply same_frame_refl |].
    split; [reflexivity |]. exists []. rewrite app_nil_r. auto.
  - destruct (Z.eqb_spec (buf_ptr (sec s)) 0) as [Hz | Hnz]; [| discriminate Hst].
    destruct (next_rd s) as [| [[| b0 [| b1 [| b2 [| b3 more]]]] | | r e] t] eqn:Hrd;
      try discriminate Hst.
    injection Hst as <- <-.
    destruct (read_pkt_header_takes fuel s b0 b1 b2 b3 more t Hrd Hz)
      as (s1 & Hrun & Hc1 & He1 & Hf1 & Hp1 & Hb1 & Hn1).
    exists s1. split; [exact Hrun |]. cbn [length].
    split; [lia |]. split; [rewrite Hp1; reflexivity |].
    split; [rewrite Hb1; reflexivity |].
    split; [exact Hn1 |]. split; [exact He1 |]. split; [exact Hf1 |].
    split.
    { rewrite Hb1. cbn [length]. rewrite length_skipn. lia. }
    eexists. split; [exact Hc1 |]. split; reflexivity.
Qed.

(** The growth step of [sb_sasl_read] when the allocator serves what is
    asked: the staged bytes are kept and the block holds the frame. *)
Lemma grown_ok (s1 : state) (f : Z) :
  (buf_size (sec s1) < f -> realloc f <> None) ->
  Z.of_nat (length (buf_base (sec s1))) = buf_size (sec s1) ->
  exists s3 pre,
    (if buf_size (sec s1) <? f
     then match ber_pvt_sb_grow_buffer realloc (sec s1) f with
          | Some b => inr (log (set_sec s1 b) (Grow f true))
          | None => inl (log s1 (Grow f false))
          end
     else inr s1) = inr s3 /\
    calls s3 = calls s1 ++ pre /\ filter is_decode pre = [] /\
    next_rd s3 = next_rd s1 /\ errno s3 = errno s1 /\
    sasl_context (sbiod_pvt s3) = sasl_context (sbiod_pvt s1) /\
    buf_in (sbiod_pvt s3) = buf_in (sbiod_pvt s1) /\
    buf_ptr (sec s3) = buf_ptr (sec s1) /\
    f <= Z.of_nat (length (buf_base (sec s3))) /\
    forall k, (k <= length (buf_base (sec s1)))%nat ->
              firstn k (buf_base (sec s3)) = firstn k (buf_base (sec s1)).
Proof.
  intros Hre Hlen.
  destruct (Z.ltb_spec (buf_size (sec s1)) f) as [Hlt | Hge].
  - unfold ber_pvt_sb_grow_buffer.
    destruct (realloc f) as [cap |] eqn:Hcap; [| exfalso; apply (Hre Hlt); reflexivity].
    cbv zeta.
    eexists _, [Grow f true]. split; [reflexivity |].
    cbn [log set_sec calls next_rd errno sbiod_pvt sasl_context buf_in sec sec_buf_in
         buf_base buf_ptr].
    change (sec_buf_in (sbiod_pvt s1)) with (sec s1).
    split; [reflexivity |]. split; [reflexivity |]. split; [reflexivity |].
    split; [reflexivity |]. split; [reflexivity |]. split; [reflexivity |].
    split; [reflexivity |].
    split.
    + rewrite length_app, repeat_length. lia.
    + intros k Hk. rewrite firstn_app.
      replace (k - length (buf_base (sec s1)))%nat with 0%nat by lia.
      rewrite firstn_O, app_nil_r. reflexivity.
  - exists s1, []. split; [reflexivity |]. rewrite app_nil_r.
    split; [reflexivity |]. split; [reflexivity |]. split; [reflexivity |].
    split; [reflexivity |]. split; [reflexivity |]. split; [reflexivity |].
    split; [reflexivity |]. split; [lia |]. intros k _. reflexivity.
Qed.

(** [sb_sasl_read] on a layer that enters a packet and whose decoded
    bytes cannot serve the request: the call is the body part of the
    read, started with the header bytes staged and the frame sized. *)
Lemma sb_sasl_read_enters_body (s : state) (len : Z) (staged : list byte)
    (stream : transport) :
  0 < len < 2 ^ 32 ->
  buf_end (buf_in (sbiod_pvt s)) - buf_ptr (buf_in (sbiod_pvt s)) < len ->
  header_stage s = Some (staged, stream) ->
  Z.of_nat (length (buf_base (sec s))) = buf_size (sec s) ->
  4 <= buf_size (sec s) ->
  buf_ptr (sec s) <= buf_size (sec s) ->
  let f := sb_sasl_pkt_length staged in
  (buf_size (sec s) < f -> realloc f <> None) ->
  let c := ber_pvt_sb_copy_out (buf_in (sbiod_pvt s)) len in
  exists s3 pre,
    sb_sasl_read sasl_decode realloc s len =
    sb_sasl_read_body sasl_decode s3 (snd (fst c)) (fst (fst c))
                      (to_len (len - fst (fst c))) /\
    calls s3 = calls s ++ pre /\ filter is_decode pre = [] /\
    next_rd s3 = stream /\ errno s3 = errno s /\
    sasl_context (sbiod_pvt s3) = sasl_context (sbiod_pvt s) /\
    buf_ptr (sec s3) = Z.of_nat (length staged) /\
    buf_end (sec s3) = f /\
    4 <= f <= 65540 /\
    f <= Z.of_nat (length (buf_base (sec s3))) /\
    firstn (length staged) (buf_base (sec s3)) = staged.
Proof.
  intros Hl Hav Hst Hlen Hsize Hptr f Hre c.
  pose proof (sb_sasl_read_not_ready s len Hl Hav) as Hnz. fold c in Hnz.
  unfold sb_sasl_read. fold c.
  destruct c as [[ret0 out0] bin]. cbn [fst snd] in *.
  rewrite Hnz.
  set (s0 := set_in s (ber_pvt_sb_buf_destroy bin)).
  destruct (header_stage_run (transport_cost (next_rd s0)) s0 staged stream)
    as (s1 & Hrun & Hst4 & Hp1 & Hf1 & Hn1 & He1 & Hfr1 & Hl1 & rds & Hc1 & Hd1 & _).
  { exact Hst. }
  { change (buf_base (sec s0)) with (buf_base (sec s)). lia. }
  { change (buf_base (sec s0)) with (buf_base (sec s)).
    change (buf_ptr (sec s0)) with (buf_ptr (sec s)). lia. }
  rewrite Hrun.
  destruct Hfr1 as (F1 & F2 & F3 & F4 & F5 & F6).
  change (buf_size (sec s0)) with (buf_size (sec s)) in F5.
  change (buf_base (sec s0)) with (buf_base (sec s)) in Hl1.
  assert (Hpl : sb_sasl_pkt_length (buf_base (sec s1)) = f).
  { subst f. rewrite <- Hf1. symmetry. apply sb_sasl_pkt_length_firstn. exact Hst4. }
  pose proof (sb_sasl_pkt_length_bounds staged) as Hb. fold f in Hb.
  rewrite Hpl, to_slen_small by lia.
  destruct (grown_ok s1 f) as (s3 & pre & Hg & Hc3 & Hd3 & Hn3 & He3 & Hx3 & Hi3 & Hp3 &
                               Hl3 & Hk3).
  { rewrite F5. exact Hre. }
  { rewrite Hl1, F5. exact Hlen. }
  rewrite Hg.
  eexists _, (rds ++ pre). split; [reflexivity |].
  cbn [set_sec calls next_rd errno sbiod_pvt sasl_context sec sec_buf_in buf_ptr buf_end
       buf_base].
  change (sec_buf_in (sbiod_pvt s3)) with (sec s3).
  split; [rewrite Hc3, Hc1, <- app_assoc; reflexivity |].
  split; [rewrite filter_app, Hd1, Hd3; reflexivity |].
  split; [rewrite Hn3; exact Hn1 |].
  split; [rewrite He3; exact He1 |].
  split; [rewrite Hx3; exact F1 |].
  split; [rewrite Hp3; exact Hp1 |].
  split; [reflexivity |]. split; [exact Hb |]. split; [exact Hl3 |].
  rewrite Hk3; [exact Hf1 |].
  pose proof (f_equal (@length byte) Hf1) as Hlf. rewrite length_firstn in Hlf. lia.
Qed.

(** C5.  A call of [sb_sasl_read] that the decoded bytes in [buf_in]
    cannot serve, by what the next layer and the provider do.

    If the next read fails (end of file, or an error other than an
    interrupt) while the header is incomplete, the call returns what
    that read returned, with the [errno] it left, after that one read.

    If the layer enters a packet ([header_stage]: the header is staged,
    or the buffer is idle and the first read delivers it) whose frame
    the staging buffer can hold or be grown to hold, then:
    when the stream holds the rest of the frame and the provider
    rejects the packet, the provider was handed exactly the staged
    bytes followed by the rest, once; the call returns -1 with [errno]
    set to [EIO]; the packet is dropped (the staging buffer is empty)
    and the stream is left right behind it;
    when the stream fails before the frame is complete, the call
    returns what the failing read returned, with the [errno] it left
    ([EIO] only if the next layer said so), hands nothing to the
    provider, and keeps the bytes read so far staged for the next
    call. *)
Theorem sb_sasl_read_failures (s : state) (len : Z) :
  0 < len < 2 ^ 32 ->
  buf_end (buf_in (sbiod_pvt s)) - buf_ptr (buf_in (sbiod_pvt s)) < len ->
  let out0 := snd (fst (ber_pvt_sb_copy_out (buf_in (sbiod_pvt s)) len)) in
  (buf_ptr (sec s) < 4 ->
   rd_fails (next_event (next_rd s)) = true ->
   let ev := next_event (next_rd s) in
   exists s',
     sb_sasl_read sasl_decode realloc s len =
     Some (fst (rd_result ev (errno s)), out0, s') /\
     errno s' = snd (rd_result ev (errno s)) /\
     calls s' = calls s ++ [ReadNext (4 - buf_ptr (sec s))
                                     (fst (rd_result ev (errno s))) (errno s')] /\
     next_rd s' = tl (next_rd s) /\
     sec s' = mkBuf (mem_write (buf_base (sec s)) 0 []) (buf_ptr (sec s))
                    (buf_end (sec s)) (buf_size (sec s)) /\
     sasl_context (sbiod_pvt s') = sasl_context (sbiod_pvt s)) /\
  (forall staged stream,
      header_stage s = Some (staged, stream) ->
      Z.of_nat (length (buf_base (sec s))) = buf_size (sec s) ->
      4 <= buf_size (sec s) ->
      buf_ptr (sec s) <= buf_size (sec s) ->
      let f := sb_sasl_pkt_length staged in
      Z.of_nat (length staged) <= f ->
      (buf_size (sec s) < f -> realloc f <> None) ->
      (forall rest t',
          take_bytes stream (Z.to_nat (f - Z.of_nat (length staged))) = Some (rest, t') ->
          let r := sasl_decode (sasl_context (sbiod_pvt s)) (staged ++ rest) in
          fst (fst r) <> SASL_OK ->
          exists s' evs,
            sb_sasl_read sasl_decode realloc s len = Some (-1, out0, s') /\
            errno s' = EIO /\
            calls s' = calls s ++ evs /\
            filter is_decode evs = [Decode (staged ++ rest) (fst (fst r))] /\
            staged_empty (sec s') = true /\
            next_rd s' = t' /\
            sasl_context (sbiod_pvt s') = snd r) /\
      (forall j part t1,
          (j < Z.to_nat (f - Z.of_nat (length staged)))%nat ->
          take_bytes stream j = Some (part, t1) ->
          rd_fails (next_event t1) = true ->
          exists s' evs,
            sb_sasl_read sasl_decode realloc s len =
            Some (fst (rd_result (next_event t1) (errno s)), out0, s') /\
            errno s' = snd (rd_result (next_event t1) (errno s)) /\
            calls s' = calls s ++ evs /\
            filter is_decode evs = [] /\
            next_rd s' = tl t1 /\
            sasl_context (sbiod_pvt s') = sasl_context (sbiod_pvt s) /\
            buf_ptr (sec s') = Z.of_nat (length staged + j) /\
            buf_end (sec s') = f /\
            firstn (length staged + j) (buf_base (sec s')) = staged ++ part)).
Proof.
  intros Hl Hav out0.
  split.
  - intros Hp Hf ev.
    pose proof (sb_sasl_read_not_ready s len Hl Hav) as Hnz.
    unfold sb_sasl_read. subst out0.
    destruct (ber_pvt_sb_copy_out (buf_in (sbiod_pvt s)) len) as [[ret0 o0] bin].
    cbn [fst snd] in *. rewrite Hnz.
    set (s0 := set_in s (ber_pvt_sb_buf_destroy bin)).
    destruct (read_pkt_header_fails (transport_cost (next_rd s0)) s0 Hp Hf)
      as (s1 & Hrun & He & Hn & Hc & Hfr & Hptr).
    rewrite Hrun. exists s1.
    change (next_rd s0) with (next_rd s) in *. change (errno s0) with (errno s) in *.
    change (calls s0) with (calls s) in Hc.
    change (buf_ptr (sec s0)) with (buf_ptr (sec s)) in *.
    split; [reflexivity |]. split; [exact He |]. split; [exact Hc |].
    split; [exact Hn |].
    destruct Hfr as (F1 & _ & _ & _ & F5 & F6).
    split; [| exact F1].
    revert Hrun. cbn [read_pkt_header].
    destruct (Z.ltb_spec (buf_ptr (sec s0)) 4) as [_ | Hge];
      [| change (buf_ptr (sec s0)) with (buf_ptr (sec s)) in Hge; lia].
    destruct (read_next_into_fails s0 0 (4 - buf_ptr (sec s0)) Hf)
      as (s2 & Hrun2 & Hle & Hint & _ & _ & _ & Hfr2 & Hptr2 & Hbase2).
    rewrite Hrun2, Hint.
    destruct (Z.leb_spec (fst (rd_result (next_event (next_rd s0)) (errno s0))) 0)
      as [_ | Hgt]; [| lia].
    intros Heq. injection Heq as <-.
    destruct Hfr2 as (_ & _ & _ & _ & G5 & G6).
    destruct (sec s2) as [b p e z] eqn:Hs2. cbn [buf_base buf_ptr buf_end buf_size] in *.
    subst b p e z. reflexivity.
  - intros staged stream Hst Hlen Hsize Hptr f Hfit Hre.
    destruct (sb_sasl_read_enters_body s len staged stream Hl Hav Hst Hlen Hsize Hptr Hre)
      as (s3 & pre & Heq & Hc3 & Hd3 & Hn3 & He3 & Hx3 & Hp3 & Hend3 & Hb & Hl3 & Hf3).
    fold f in Heq, Hend3, Hb, Hl3.
    assert (Hst3 : firstn (Z.to_nat (buf_ptr (sec s3))) (buf_base (sec s3)) = staged)
      by (rewrite Hp3, Nat2Z.id; exact Hf3).
    split.
    + intros rest t' Htake r Hrc.
      destruct (sb_sasl_read_body_reassembles sasl_decode s3 out0
                  (fst (fst (ber_pvt_sb_copy_out (buf_in (sbiod_pvt s)) len)))
                  (to_len (len - fst (fst (ber_pvt_sb_copy_out (buf_in (sbiod_pvt s)) len))))
                  rest t')
        as (ret & out' & s' & evs & Hrun & Hc & Hd & Hn & Hse & Hx & Hbad & _).
      { rewrite Hp3, Hend3. lia. }
      { rewrite Hend3. lia. }
      { rewrite Hend3. exact Hl3. }
      { rewrite Hp3, Hend3, Hn3. exact Htake. }
      rewrite Hst3, Hx3 in Hd, Hx, Hbad. fold r in Hd, Hx, Hbad.
      destruct (Hbad Hrc) as (-> & -> & Herr).
      exists s', (pre ++ evs). rewrite Heq.
      split; [exact Hrun |]. split; [exact Herr |].
      split; [rewrite Hc, Hc3, <- app_assoc; reflexivity |].
      split; [rewrite filter_app, Hd3, Hd; reflexivity |].
      split; [exact Hse |]. split; [exact Hn | exact Hx].
    + intros j part t1 Hj Htake Hf.
      destruct (sb_sasl_read_body_fails s3 out0
                  (fst (fst (ber_pvt_sb_copy_out (buf_in (sbiod_pvt s)) len)))
                  (to_len (len - fst (fst (ber_pvt_sb_copy_out (buf_in (sbiod_pvt s)) len))))
                  j part t1)
        as (s' & evs & Hrun & Herr & Hc & Hd & Hn & Hx & Hptr' & Hend' & Hbase').
      { rewrite Hp3, Hend3. lia. }
      { rewrite Hend3. lia. }
      { rewrite Hend3. exact Hl3. }
      { rewrite Hp3, Hend3. exact Hj. }
      { rewrite Hn3. exact Htake. }
      { exact Hf. }
      rewrite He3 in Hrun, Herr.
      exists s', (pre ++ evs). rewrite Heq.
      split; [exact Hrun |]. split; [exact Herr |].
      split; [rewrite Hc, Hc3, <- app_assoc; reflexivity |].
      split; [rewrite filter_app, Hd3, Hd; reflexivity |].
      split; [exact Hn |]. split; [rewrite Hx; exact Hx3 |].
      split; [rewrite Hptr', Hp3; lia |].
      split; [rewrite Hend'; exact Hend3 |].
      rewrite Hbase', Hst3, Hp3, Nat2Z.id.
      assert (Hpart : length part = j) by apply (take_bytes_length _ _ _ _ Htake).
      rewrite app_assoc, firstn_app.
      rewrite length_app, Hpart, Nat.sub_diag, firstn_O, app_nil_r.
      apply firstn_all2. rewrite length_app, Hpart. lia.
Qed.

End ReadFails.

(** [sb_sasl_read_failures] on the fresh layer: a packet of two bytes
    that the provider rejects gives -1 with [EIO] and an empty staging
    buffer; the same packet cut short by a connection reset (104) after
    its first byte gives the reset's own -1 with 104, no decode, and
    five bytes kept staged; an end of file before any header byte gives
    0 after one read of four bytes. *)
Lemma sb_sasl_read_failures_witness :
  let s := sample_reader [RdData [x00; x00; x00; x02; x0a; x0b]] in
  let s2 := sample_reader [RdData [x00; x00; x00; x02; x0a]; RdFail 1 104] in
  (exists s' evs,
      sb_sasl_read reject_all (fun n => Some n) s 100 = Some (-1, [], s') /\
      errno s' = EIO /\
      calls s' = evs /\
      filter is_decode evs = [Decode [x00; x00; x00; x02; x0a; x0b] SASL_FAIL] /\
      staged_empty (sec s') = true) /\
  (exists s' evs,
      sb_sasl_read reject_all (fun n => Some n) s2 100 = Some (-1, [], s') /\
      errno s' = 104 /\
      calls s' = evs /\
      filter is_decode evs = [] /\
      buf_ptr (sec s') = 5) /\
  (exists s',
      sb_sasl_read reject_all (fun n => Some n) (sample_reader []) 100 =
      Some (0, [], s') /\
      errno s' = 0 /\
      calls s' = [ReadNext 4 0 0]).
Proof.
  cbv zeta. split; [| split].
  3: {
    destruct (sb_sasl_read_failures reject_all (fun n => Some n)
                (sample_reader []) 100) as [Hhdr _]; [lia | cbn; lia |].
    destruct Hhdr as (s' & Hrun & Herr & Hc & _); [cbn; lia | reflexivity |].
    exists s'. split; [exact Hrun |]. split; [exact Herr |].
    rewrite Hc, Herr. reflexivity. }
  - destruct (sb_sasl_read_failures reject_all (fun n => Some n)
                (sample_reader [RdData [x00; x00; x00; x02; x0a; x0b]]) 100)
      as [_ Hpkt]; [lia | cbn; lia |].
    destruct (Hpkt [x00; x00; x00; x02] [RdData [x0a; x0b]]) as [Hbad _].
    + reflexivity.
    + reflexivity.
    + vm_compute. discriminate.
    + vm_compute. discriminate.
    + vm_compute. discriminate.
    + intros _. discriminate.
    + destruct (Hbad [x0a; x0b] [] eq_refl ltac:(discriminate))
        as (s' & evs & Hrun & Herr & Hc & Hd & Hse & _).
      exists s', evs. repeat split; assumption.
  - destruct (sb_sasl_read_failures reject_all (fun n => Some n)
                (sample_reader [RdData [x00; x00; x00; x02; x0a]; RdFail 1 104]) 100)
      as [_ Hpkt]; [lia | cbn; lia |].
    destruct (Hpkt [x00; x00; x00; x02] [RdData [x0a]; RdFail 1 104]) as [_ Hcut].
    + reflexivity.
    + reflexivity.
    + vm_compute. discriminate.
    + vm_compute. discriminate.
    + vm_compute. discriminate.
    + intros _. discriminate.
    + destruct (Hcut 1%nat [x0a] [RdFail 1 104]) as
          (s' & evs & Hrun & Herr & Hc & Hd & _ & _ & Hptr & _).
      * vm_compute. lia.
      * reflexivity.
      * reflexivity.
      * exists s', evs. repeat split; assumption.
Defined.
